(** * cjs2esm: the specifier rewriting pass and the transformation pipeline

    A shallow embedding of [src/transformer.js] (the jscodeshift transformation
    that rewrites import and re-export specifiers) and of the pipeline module
    that loads the configuration, copies the files, shields the shebangs, runs
    the codemod passes, reports and updates the manifests ([getConfiguration],
    [findFiles], [copyDirectory], [copyFiles], [removeShebangs],
    [restoreShebangs], [transformOutput], [findFolderEntryPath],
    [updatePackageJSON], [addPackageJSON]).

    Conventions of the embedding.
    - A JavaScript string is a [string]; each character stands for one code
      unit in the range U+0000..U+00FF.  The algorithms run on [list ascii].
    - Node's [path] module is the POSIX one ([path.sep] is "/").
    - [fs-extra], the jscodeshift [Runner] and the helpers of the [utils]
      module are the outside world: the file contents live in a finite map,
      everything else is a variable of the section that uses it.
    - Code that can throw returns a [Result]; code that reads or writes the
      disk runs in the state-and-error monad [M]. *)

From Stdlib Require Import Ascii String List Bool Arith Lia.
From stdpp Require Import gmap strings pretty.
Import ListNotations.

Open Scope string_scope.
Open Scope list_scope.
Open Scope nat_scope.

(** ** Characters and strings *)

Abbreviation chars := list_ascii_of_string.
Abbreviation str := string_of_list_ascii.

Module Char.

Definition code (c : ascii) : nat := nat_of_ascii c.

Definition eqb (a b : ascii) : bool := Ascii.eqb a b.

Definition in_range (lo hi c : ascii) : bool :=
  (code lo <=? code c) && (code c <=? code hi).

Definition is_digit (c : ascii) : bool := in_range "0" "9" c.
Definition is_lower (c : ascii) : bool := in_range "a" "z" c.
Definition is_upper (c : ascii) : bool := in_range "A" "Z" c.

(** [\w] is [A-Za-z0-9_]. *)
Definition is_word (c : ascii) : bool :=
  is_lower c || is_upper c || is_digit c || eqb c "_".

(** The line terminators of ECMAScript that fit in one byte: LF and CR. *)
Definition is_line_terminator (c : ascii) : bool :=
  eqb c "010" || eqb c "013".

(** The white space of ECMAScript that fits in one byte: TAB, LF, VT, FF, CR,
    SPACE and NO-BREAK SPACE. *)
Definition is_white_space (c : ascii) : bool :=
  in_range "009" "013" c || eqb c " " || eqb c "160".

(** The Latin-1 lower-case letters other than U+00F7, U+00FF and U+00B5 have
    their upper-case form 32 code points below. *)
Definition has_upper (c : ascii) : bool :=
  is_lower c || (in_range "224" "254" c && negb (eqb c "247")).
Definition has_lower (c : ascii) : bool :=
  is_upper c || (in_range "192" "222" c && negb (eqb c "215")).

Definition upper (c : ascii) : ascii :=
  if has_upper c then ascii_of_nat (code c - 32) else c.
Definition lower (c : ascii) : ascii :=
  if has_lower c then ascii_of_nat (code c + 32) else c.

End Char.

(** The functions of [String.prototype] the sources use, on [list ascii]. *)
Module Js.

Fixpoint starts_with (p s : list ascii) : bool :=
  match p, s with
  | [], _ => true
  | a :: p', b :: s' => Char.eqb a b && starts_with p' s'
  | _ :: _, [] => false
  end.

(** [s.substr(n)] for [0 <= n]. *)
Definition substr (n : nat) (s : list ascii) : list ascii := skipn n s.

(** [s.split(sep)] for a one-character separator. *)
Fixpoint split (sep : ascii) (s : list ascii) : list (list ascii) :=
  match s with
  | [] => [[]]
  | c :: s' =>
      if Char.eqb c sep then [] :: split sep s'
      else match split sep s' with
           | seg :: segs => (c :: seg) :: segs
           | [] => [[c]]
           end
  end.

(** [a.join(sep)]. *)
Fixpoint join (sep : list ascii) (segs : list (list ascii)) : list ascii :=
  match segs with
  | [] => []
  | [seg] => seg
  | seg :: segs' => seg ++ sep ++ join sep segs'
  end.

(** [s.trimLeft()]. *)
Fixpoint trim_left (s : list ascii) : list ascii :=
  match s with
  | c :: s' => if Char.is_white_space c then trim_left s' else s
  | [] => []
  end.

(** [s.replace(pattern, by)] for a string pattern: the first occurrence of
    [pattern] is replaced, and [by] is taken literally (the sources only pass
    the empty string there). *)
Fixpoint replace_first (pat by_ s : list ascii) : list ascii :=
  if starts_with pat s then by_ ++ skipn (length pat) s
  else match s with
       | [] => []
       | c :: s' => c :: replace_first pat by_ s'
       end.

End Js.

Definition startsWith (s p : string) : bool := Js.starts_with (chars p) (chars s).

(** ** Node's [path] module (POSIX flavour)

    The sources join, resolve and take apart paths with [path.join],
    [path.resolve], [path.dirname], [path.basename] and [path.parse].  They are
    rendered here segment by segment, after Node's [lib/path.js]. *)
Module Path.

Definition slash : ascii := "/".
Definition dot : ascii := ".".
Definition is_slash (c : ascii) : bool := Char.eqb c slash.

Definition seg_eqb (a b : list ascii) : bool :=
  if List.list_eq_dec ascii_dec a b then true else false.

(** One step of [normalizeString]: empty and "." segments vanish, ".." pops
    the last kept segment unless there is none (or it is ".." itself), in
    which case it is kept only when the path may climb above its root. *)
Definition normalize_step (allowAboveRoot : bool)
    (kept : list (list ascii)) (seg : list ascii) : list (list ascii) :=
  if seg_eqb seg [] || seg_eqb seg [dot] then kept
  else if seg_eqb seg [dot; dot] then
    match kept with
    | top :: below =>
        if seg_eqb top [dot; dot]
        then (if allowAboveRoot then seg :: kept else kept)
        else below
    | [] => if allowAboveRoot then [seg] else []
    end
  else seg :: kept.

(** [normalizeString(path, allowAboveRoot, '/', isPosixPathSeparator)]; the
    kept segments are held most recent first. *)
Definition normalize_string (p : list ascii) (allowAboveRoot : bool) : list ascii :=
  Js.join [slash]
    (rev (fold_left (normalize_step allowAboveRoot) (Js.split slash p) [])).

Definition is_absolute (p : list ascii) : bool :=
  match p with c :: _ => is_slash c | [] => false end.

Definition ends_with_slash (p : list ascii) : bool :=
  match rev p with c :: _ => is_slash c | [] => false end.

Definition normalize (p : list ascii) : list ascii :=
  match p with
  | [] => [dot]
  | _ =>
      let body := normalize_string p (negb (is_absolute p)) in
      match body with
      | [] =>
          if is_absolute p then [slash]
          else if ends_with_slash p then [dot; slash] else [dot]
      | _ =>
          (if is_absolute p then [slash] else [])
            ++ body ++ (if ends_with_slash p then [slash] else [])
      end
  end.

Definition nonempty (p : list ascii) : bool :=
  match p with [] => false | _ => true end.

Definition join (parts : list (list ascii)) : list ascii :=
  match filter nonempty parts with
  | [] => [dot]
  | kept => normalize (Js.join [slash] kept)
  end.

(** The loop of [path.resolve], from the last argument to the first and then
    the working directory, until an absolute part is met. *)
Fixpoint resolve_parts (rev_parts : list (list ascii)) (cwd acc : list ascii)
    : list ascii * bool :=
  match rev_parts with
  | [] =>
      match cwd with
      | [] => (acc, false)
      | _ => (cwd ++ [slash] ++ acc, is_absolute cwd)
      end
  | p :: more =>
      match p with
      | [] => resolve_parts more cwd acc
      | _ =>
          if is_absolute p then (p ++ [slash] ++ acc, true)
          else resolve_parts more cwd (p ++ [slash] ++ acc)
      end
  end.

Definition resolve (cwd : list ascii) (parts : list (list ascii)) : list ascii :=
  let '(joined, absolute) := resolve_parts (rev parts) cwd [] in
  let body := normalize_string joined (negb absolute) in
  if absolute then slash :: body
  else match body with [] => [dot] | _ => body end.

Fixpoint drop_while (f : ascii -> bool) (s : list ascii) : list ascii :=
  match s with
  | c :: s' => if f c then drop_while f s' else s
  | [] => []
  end.

Fixpoint take_while (f : ascii -> bool) (s : list ascii) : list ascii :=
  match s with
  | c :: s' => if f c then c :: take_while f s' else []
  | [] => []
  end.

Definition not_slash (c : ascii) : bool := negb (is_slash c).

(** [path.basename(p)]: the trailing separators are skipped, the last
    segment is returned. *)
Definition basename (p : list ascii) : list ascii :=
  rev (take_while not_slash (drop_while is_slash (rev p))).

(** [path.dirname(p)]. *)
Definition dirname (p : list ascii) : list ascii :=
  match p with
  | [] => [dot]
  | _ =>
      let upto := drop_while not_slash (drop_while is_slash (rev p)) in
      match upto with
      | [] | [_] => if is_absolute p then [slash] else [dot]
      | _ :: before =>
          if is_absolute p && (length upto =? 2) then [slash; slash]
          else rev before
      end
  end.

Definition is_dot (c : ascii) : bool := Char.eqb c dot.
Definition not_dot (c : ascii) : bool := negb (is_dot c).

(** The [name] and [ext] fields of [path.parse(p)]: the extension starts at
    the last dot of the base name, unless the base name has no dot, starts
    with its only dot, or is "..". *)
Definition split_ext (base : list ascii) : list ascii * list ascii :=
  let rev_ext := take_while not_dot (rev base) in
  match drop_while not_dot (rev base) with
  | [] => (base, [])
  | _ :: rev_name =>
      match rev_name with
      | [] => (base, [])
      | _ =>
          if seg_eqb base [dot; dot] then (base, [])
          else (rev rev_name, dot :: rev rev_ext)
      end
  end.

Definition parse_name (p : list ascii) : list ascii := fst (split_ext (basename p)).
Definition parse_ext (p : list ascii) : list ascii := snd (split_ext (basename p)).

End Path.

(** The same functions on strings, under the names the sources call. *)
Definition path_join (parts : list string) : string :=
  str (Path.join (map chars parts)).
Definition path_resolve (cwd : string) (parts : list string) : string :=
  str (Path.resolve (chars cwd) (map chars parts)).
Definition path_dirname (p : string) : string := str (Path.dirname (chars p)).
Definition path_basename (p : string) : string := str (Path.basename (chars p)).
Definition path_parse_name (p : string) : string := str (Path.parse_name (chars p)).
Definition path_parse_ext (p : string) : string := str (Path.parse_ext (chars p)).

(** ** Regular expressions

    The sources build their patterns with regular-expression literals and with
    [new RegExp(...)] on strings put together at run time, so the pattern
    reader and the backtracking matcher of ECMAScript are part of the
    embedding.  The fragment read here: literals, [.], classes, [\d \w \s] and
    their complements, [^ $ \b \B], capturing and non-capturing groups,
    alternation, and the quantifiers [* + ? {n} {n,} {n,m}] with their lazy
    forms; the flags [i] and [m].  Back references, look-around, named groups
    and the escapes [\c \x \u] are not read. *)
Module RegExp.

Inductive class_item :=
| CRange (lo hi : ascii)
| CDigit (complement : bool)
| CWord (complement : bool)
| CSpace (complement : bool).

Inductive re :=
| Empty
| Chr (c : ascii)
| Any
| Class (invert : bool) (items : list class_item)
| Bol
| Eol
| WordBoundary (invert : bool)
| Seq (a b : re)
| Alt (a b : re)
| Repeat (min : nat) (max : option nat) (greedy : bool) (r : re)
| Group (index : nat) (r : re).

Record flags := { ignoreCase : bool; multiline : bool }.

Definition no_flags : flags := {| ignoreCase := false; multiline := false |}.
Definition flag_i : flags := {| ignoreCase := true; multiline := false |}.
Definition flag_m : flags := {| ignoreCase := false; multiline := true |}.

(** A compiled [RegExp] object. *)
Record t := { source : re; fl : flags }.

(** *** Reading a pattern *)

Definition seq (a b : re) : re :=
  match b with Empty => a | _ => Seq a b end.

(** A run of decimal digits and its value. *)
Fixpoint digits (s : list ascii) (acc : nat) : nat * list ascii :=
  match s with
  | c :: s' =>
      if Char.is_digit c then digits s' (10 * acc + (Char.code c - 48))
      else (acc, s)
  | [] => (acc, s)
  end.

Definition starts_with_digit (s : list ascii) : bool :=
  match s with c :: _ => Char.is_digit c | [] => false end.

(** The bounds of a braced quantifier, after its opening brace. *)
Definition braces (s : list ascii) : option (nat * option nat * list ascii) :=
  if starts_with_digit s then
    let '(lo, s1) := digits s 0 in
    match s1 with
    | "}"%char :: s2 => Some (lo, Some lo, s2)
    | ","%char :: "}"%char :: s2 => Some (lo, None, s2)
    | ","%char :: s2 =>
        if starts_with_digit s2 then
          let '(hi, s3) := digits s2 0 in
          match s3 with
          | "}"%char :: s4 => Some (lo, Some hi, s4)
          | _ => None
          end
        else None
    | _ => None
    end
  else None.

Definition lazy_mark (s : list ascii) : bool * list ascii :=
  match s with "?"%char :: s' => (false, s') | _ => (true, s) end.

Definition in_order (lo : nat) (hi : option nat) : bool :=
  match hi with Some h => lo <=? h | None => true end.

(** The quantifier that may follow an atom; [None] when its bounds are out
    of order. *)
Definition quantified (a : re) (s : list ascii) : option (re * list ascii) :=
  match s with
  | "*"%char :: s' =>
      let '(g, s'') := lazy_mark s' in Some (Repeat 0 None g a, s'')
  | "+"%char :: s' =>
      let '(g, s'') := lazy_mark s' in Some (Repeat 1 None g a, s'')
  | "?"%char :: s' =>
      let '(g, s'') := lazy_mark s' in Some (Repeat 0 (Some 1) g a, s'')
  | "{"%char :: s' =>
      match braces s' with
      | Some (lo, hi, s'') =>
          if in_order lo hi then
            let '(g, s3) := lazy_mark s'' in Some (Repeat lo hi g a, s3)
          else None
      | None => Some (a, s)
      end
  | _ => Some (a, s)
  end.

(** What a backslash introduces outside a class. *)
Definition escape (c : ascii) : option re :=
  match c with
  | "d" => Some (Class false [CDigit false])
  | "D" => Some (Class false [CDigit true])
  | "w" => Some (Class false [CWord false])
  | "W" => Some (Class false [CWord true])
  | "s" => Some (Class false [CSpace false])
  | "S" => Some (Class false [CSpace true])
  | "b" => Some (WordBoundary false)
  | "B" => Some (WordBoundary true)
  | "t" => Some (Chr "009")
  | "n" => Some (Chr "010")
  | "v" => Some (Chr "011")
  | "f" => Some (Chr "012")
  | "r" => Some (Chr "013")
  | "0" => Some (Chr "000")
  | "c" | "x" | "u" | "k" => None
  | _ => if Char.is_digit c then None else Some (Chr c)
  end%char.

Definition class_escape (c : ascii) : option class_item :=
  match c with
  | "d" => Some (CDigit false)
  | "D" => Some (CDigit true)
  | "w" => Some (CWord false)
  | "W" => Some (CWord true)
  | "s" => Some (CSpace false)
  | "S" => Some (CSpace true)
  | "b" => Some (CRange "008" "008")
  | "t" => Some (CRange "009" "009")
  | "n" => Some (CRange "010" "010")
  | "v" => Some (CRange "011" "011")
  | "f" => Some (CRange "012" "012")
  | "r" => Some (CRange "013" "013")
  | "0" => Some (CRange "000" "000")
  | "c" | "x" | "u" | "k" => None
  | _ => if Char.is_digit c then None else Some (CRange c c)
  end%char.

(** One atom of a class: a character or an escape, with what follows it. *)
Definition class_atom (s : list ascii) : option (class_item * list ascii) :=
  match s with
  | "\" :: c :: s' =>
      match class_escape c with Some it => Some (it, s') | None => None end
  | "\" :: [] => None
  | c :: s' => Some (CRange c c, s')
  | [] => None
  end%char.

Definition hyphen : class_item := CRange "-" "-".

(** The items of a class up to its closing bracket. *)
Fixpoint class_items (n : nat) (s : list ascii) : option (list class_item * list ascii) :=
  match n with
  | 0 => None
  | S n' =>
      match s with
      | "]"%char :: s' => Some ([], s')
      | _ =>
          match class_atom s with
          | Some (CRange lo _, "-"%char :: s1) =>
              match s1 with
              | "]"%char :: s2 => Some ([CRange lo lo; hyphen], s2)
              | _ =>
                  match class_atom s1 with
                  | Some (CRange hi _, s2) =>
                      if Char.code lo <=? Char.code hi then
                        match class_items n' s2 with
                        | Some (its, s3) => Some (CRange lo hi :: its, s3)
                        | None => None
                        end
                      else None
                  | Some (it, s2) =>
                      match class_items n' s2 with
                      | Some (its, s3) => Some (CRange lo lo :: hyphen :: it :: its, s3)
                      | None => None
                      end
                  | None => None
                  end
              end
          | Some (it, s1) =>
              match class_items n' s1 with
              | Some (its, s2) => Some (it :: its, s2)
              | None => None
              end
          | None => None
          end
      end
  end.

Definition class (s : list ascii) : option (re * list ascii) :=
  let '(invert, body) :=
    match s with "^"%char :: s' => (true, s') | _ => (false, s) end in
  match class_items (S (length body)) body with
  | Some (its, s') => Some (Class invert its, s')
  | None => None
  end.

Definition then_quantified (a : option (re * list ascii)) : option (re * list ascii) :=
  match a with
  | Some (r, s) => quantified r s
  | None => None
  end.

(** Disjunction, alternative and term of the grammar; [n] bounds the depth
    of the descent.  Groups are numbered afterwards. *)
Fixpoint disjunction (n : nat) (s : list ascii) {struct n} : option (re * list ascii) :=
  match n with
  | 0 => None
  | S n' =>
      match alternative n' s with
      | Some (a, "|"%char :: s') =>
          match disjunction n' s' with
          | Some (b, s'') => Some (Alt a b, s'')
          | None => None
          end
      | other => other
      end
  end
with alternative (n : nat) (s : list ascii) {struct n} : option (re * list ascii) :=
  match n with
  | 0 => None
  | S n' =>
      match s with
      | [] => Some (Empty, [])
      | "|"%char :: _ | ")"%char :: _ => Some (Empty, s)
      | _ =>
          match term n' s with
          | Some (a, s') =>
              match alternative n' s' with
              | Some (b, s'') => Some (seq a b, s'')
              | None => None
              end
          | None => None
          end
      end
  end
with term (n : nat) (s : list ascii) {struct n} : option (re * list ascii) :=
  match n with
  | 0 => None
  | S n' =>
      match s with
      | "^" :: s' => Some (Bol, s')
      | "$" :: s' => Some (Eol, s')
      | "." :: s' => quantified Any s'
      | "[" :: s' => then_quantified (class s')
      | "(" :: "?" :: ":" :: s' =>
          match disjunction n' s' with
          | Some (a, ")" :: s'') => quantified a s''
          | _ => None
          end
      | "(" :: "?" :: _ => None
      | "(" :: s' =>
          match disjunction n' s' with
          | Some (a, ")" :: s'') => quantified (Group 0 a) s''
          | _ => None
          end
      | "\" :: c :: s' =>
          match escape c with
          | Some (WordBoundary b) => Some (WordBoundary b, s')
          | Some a => quantified a s'
          | None => None
          end
      | "\" :: [] => None
      | "*" :: _ | "+" :: _ | "?" :: _ | ")" :: _ | "|" :: _ => None
      | "{" :: s' =>
          match braces s' with
          | Some _ => None
          | None => quantified (Chr "{") s'
          end
      | c :: s' => quantified (Chr c) s'
      | [] => None
      end%char
  end.

(** The groups get their numbers in the order of their opening parentheses. *)
Fixpoint number (r : re) (next : nat) : re * nat :=
  match r with
  | Seq a b =>
      let '(a', n1) := number a next in
      let '(b', n2) := number b n1 in (Seq a' b', n2)
  | Alt a b =>
      let '(a', n1) := number a next in
      let '(b', n2) := number b n1 in (Alt a' b', n2)
  | Repeat lo hi g a =>
      let '(a', n1) := number a next in (Repeat lo hi g a', n1)
  | Group _ a =>
      let '(a', n1) := number a (S next) in (Group next a', n1)
  | _ => (r, next)
  end.

(** The pattern is read whole, or not at all. *)
Definition read (pattern : list ascii) : option re :=
  match disjunction (3 * S (length pattern)) pattern with
  | Some (r, []) => Some (fst (number r 1))
  | _ => None
  end.

Definition make (pattern : string) (f : flags) : option t :=
  match read (chars pattern) with
  | Some r => Some {| source := r; fl := f |}
  | None => None
  end.

Fixpoint groups_in (r : re) : list nat :=
  match r with
  | Seq a b | Alt a b => groups_in a ++ groups_in b
  | Repeat _ _ _ a => groups_in a
  | Group i a => i :: groups_in a
  | _ => []
  end.

(** *** Matching

    The state of a match attempt: the character just before the current
    position, if any, the input that remains, and the captures made so far
    (most recent first). *)
Record state := {
  prev : option ascii;
  rest : list ascii;
  caps : list (nat * list ascii)
}.

Definition canonicalize (f : flags) (c : ascii) : ascii :=
  if ignoreCase f then Char.upper c else c.

Definition item_has (it : class_item) (c : ascii) : bool :=
  match it with
  | CRange lo hi => Char.in_range lo hi c
  | CDigit neg => xorb neg (Char.is_digit c)
  | CWord neg => xorb neg (Char.is_word c)
  | CSpace neg => xorb neg (Char.is_white_space c)
  end.

(** Membership in a class; under the [i] flag a character also belongs
    through its other case. *)
Definition class_has (f : flags) (items : list class_item) (c : ascii) : bool :=
  existsb (fun it =>
    item_has it c
    || (ignoreCase f && (item_has it (Char.upper c) || item_has it (Char.lower c))))
    items.

Definition at_line_start (f : flags) (st : state) : bool :=
  match prev st with
  | None => true
  | Some p => multiline f && Char.is_line_terminator p
  end.

Definition at_line_end (f : flags) (st : state) : bool :=
  match rest st with
  | [] => true
  | c :: _ => multiline f && Char.is_line_terminator c
  end.

Definition at_word_boundary (st : state) : bool :=
  let a := match prev st with Some p => Char.is_word p | None => false end in
  let b := match rest st with c :: _ => Char.is_word c | [] => false end in
  xorb a b.

(** One character, when [ok] accepts it. *)
Definition step (ok : ascii -> bool) (st : state) (k : state -> option state)
    : option state :=
  match rest st with
  | c :: s' =>
      if ok c then k {| prev := Some c; rest := s'; caps := caps st |} else None
  | [] => None
  end.

Definition guard (b : bool) (st : state) (k : state -> option state) : option state :=
  if b then k st else None.

Definition or_else (a b : option state) : option state :=
  match a with Some _ => a | None => b end.

Definition progressed (from to : state) : bool :=
  length (rest to) <? length (rest from).

Definition is_zero (n : nat) : bool := n =? 0.

Definition forget (ids : list nat) (st : state) : state :=
  {| prev := prev st; rest := rest st;
     caps := filter (fun c => negb (existsb (Nat.eqb (fst c)) ids)) (caps st) |}.

Definition consumed (from to : state) : list ascii :=
  firstn (length (rest from) - length (rest to)) (rest from).

Definition capture (i : nat) (from to : state) : state :=
  {| prev := prev to; rest := rest to;
     caps := (i, consumed from to) :: filter (fun c => negb (fst c =? i)) (caps to) |}.

(** [RepeatMatcher]: [body] is the matcher of the quantified atom and [ids]
    the groups inside it, which every iteration forgets; once the minimum is
    reached an iteration that consumes nothing is refused.  The counter [n]
    is bounded by the minimum plus the remaining input. *)
Fixpoint repeat (body : state -> (state -> option state) -> option state)
    (ids : list nat) (greedy : bool) (k : state -> option state)
    (n min : nat) (max : option nat) (st : state) {struct n} : option state :=
  match n with
  | 0 => None
  | S n' =>
      match max with
      | Some 0 => k st
      | _ =>
          let again :=
            body (forget ids st) (fun st' =>
              if is_zero min && negb (progressed st st') then None
              else repeat body ids greedy k n' (pred min) (option_map pred max) st') in
          if negb (is_zero min) then again
          else if greedy then or_else again (k st)
          else or_else (k st) again
      end
  end.

(** The matcher of a pattern, in continuation-passing style: the first
    successful path in the priority order of ECMAScript wins. *)
Fixpoint m (f : flags) (r : re) (st : state) (k : state -> option state)
    {struct r} : option state :=
  match r with
  | Empty => k st
  | Chr c => step (fun x => Char.eqb (canonicalize f x) (canonicalize f c)) st k
  | Any => step (fun x => negb (Char.is_line_terminator x)) st k
  | Class invert items => step (fun x => xorb invert (class_has f items x)) st k
  | Bol => guard (at_line_start f st) st k
  | Eol => guard (at_line_end f st) st k
  | WordBoundary invert => guard (xorb invert (at_word_boundary st)) st k
  | Seq a b => m f a st (fun st' => m f b st' k)
  | Alt a b => or_else (m f a st k) (m f b st k)
  | Group i a => m f a st (fun st' => k (capture i st st'))
  | Repeat lo hi greedy a =>
      repeat (m f a) (groups_in a) greedy k (S (lo + length (rest st))) lo hi st
  end.

(** One attempt at a position. *)
Definition attempt (x : t) (p : option ascii) (s : list ascii) : option state :=
  m (fl x) (source x) {| prev := p; rest := s; caps := [] |} Some.

(** The outcome of a search: what precedes the match, the match, what
    follows, and the captures. *)
Record found := {
  before : list ascii;
  matched : list ascii;
  after : list ascii;
  captures : list (nat * list ascii)
}.

(** [RegExpBuiltinExec] without the [g] and [y] flags: the attempts go from
    the first position to the last. *)
Fixpoint search (x : t) (p : option ascii) (seen s : list ascii) : option found :=
  match attempt x p s with
  | Some st' =>
      Some {| before := rev seen;
              matched := firstn (length s - length (rest st')) s;
              after := rest st';
              captures := caps st' |}
  | None =>
      match s with
      | [] => None
      | c :: s' => search x (Some c) (c :: seen) s'
      end
  end.

Definition exec (x : t) (s : list ascii) : option found := search x None [] s.

Definition test (x : t) (s : list ascii) : bool :=
  match exec x s with Some _ => true | None => false end.

Definition digit_value (c : ascii) : nat := Char.code c - 48.

Definition captured (w : found) (i : nat) : list ascii :=
  match find (fun c => fst c =? i) (captures w) with
  | Some c => snd c
  | None => []
  end.

(** [GetSubstitution]: the replacement text with its dollar patterns
    expanded; [groups] is the number of groups of the pattern. *)
Fixpoint substitution (groups : nat) (w : found) (template : list ascii)
    : list ascii :=
  match template with
  | [] => []
  | c :: t1 =>
      if negb (Char.eqb c "$") then c :: substitution groups w t1
      else
        match t1 with
        | [] => [c]
        | d1 :: t2 =>
            if Char.eqb d1 "$" then d1 :: substitution groups w t2
            else if Char.eqb d1 "&" then matched w ++ substitution groups w t2
            else if Char.eqb d1 "`" then before w ++ substitution groups w t2
            else if Char.eqb d1 "'" then after w ++ substitution groups w t2
            else if Char.is_digit d1 then
              let one := digit_value d1 in
              let single :=
                if (1 <=? one) && (one <=? groups)
                then captured w one ++ substitution groups w t2
                else c :: d1 :: substitution groups w t2 in
              match t2 with
              | d2 :: t3 =>
                  if Char.is_digit d2 then
                    let two := 10 * one + digit_value d2 in
                    if (1 <=? two) && (two <=? groups)
                    then captured w two ++ substitution groups w t3
                    else single
                  else single
              | [] => single
              end
            else c :: substitution groups w t1
        end
  end.

(** [s.replace(x, template)] for a pattern without the [g] flag. *)
Definition replace (x : t) (s template : list ascii) : list ascii :=
  match exec x s with
  | None => s
  | Some w =>
      before w
        ++ substitution (length (groups_in (source x))) w template
        ++ after w
  end.

End RegExp.

(** ** Results and errors *)

Inductive Error :=
| TypeError (message : string)
| SyntaxError (pattern : string)
| IOError (path : string)
| JsError (message : string).

Inductive Result (A : Type) :=
| Ok (a : A)
| Throw (e : Error).

Arguments Ok {A} a.
Arguments Throw {A} e.

Definition bind_result {A B} (r : Result A) (f : A -> Result B) : Result B :=
  match r with
  | Ok a => f a
  | Throw e => Throw e
  end.

(** [new RegExp(pattern)]: a pattern that cannot be read throws.  For the
    constructs left out of the fragment (look-around, named groups, back
    references, the escapes [\c], [\x] and [\u]) the embedding throws where
    ECMAScript would build the pattern; the theorems that conclude a throw
    from a pattern are stated for patterns that ECMAScript refuses as well,
    those with a parenthesis that has no partner. *)
Definition RegExp_new (pattern : string) : Result RegExp.t :=
  match RegExp.make pattern RegExp.no_flags with
  | Some x => Ok x
  | None => Throw (SyntaxError pattern)
  end.

(** [patterns.map((p) => new RegExp(p))]. *)
Fixpoint RegExp_all (patterns : list string) : Result (list RegExp.t) :=
  match patterns with
  | [] => Ok []
  | p :: more =>
      bind_result (RegExp_new p) (fun x =>
      bind_result (RegExp_all more) (fun xs => Ok (x :: xs)))
  end.

(** [s.match(x)] and [x.test(s)], read as a condition. *)
Definition matches (s : string) (x : RegExp.t) : bool := RegExp.test x (chars s).

(** [s.replace(x, template)]. *)
Definition replace (s : string) (x : RegExp.t) (template : string) : string :=
  str (RegExp.replace x (chars s) (chars template)).

(** The regular-expression literals of the sources. *)
Module Literal.
Import RegExp.

(** [/\/$/] *)
Definition trailing_slash : t :=
  {| source := Seq (Chr "/") Eol; fl := no_flags |}.

(** [/^\w/] *)
Definition leading_word : t :=
  {| source := Seq Bol (Class false [CWord false]); fl := no_flags |}.

(** [/\.js$/i] *)
Definition js_extension : t :=
  {| source := Seq (Chr ".") (Seq (Chr "j") (Seq (Chr "s") Eol)); fl := flag_i |}.

(** [/\.mjs$/i] *)
Definition mjs_extension : t :=
  {| source := Seq (Chr ".") (Seq (Chr "m") (Seq (Chr "j") (Seq (Chr "s") Eol)));
     fl := flag_i |}.

(** [/^#!.*?$/m] *)
Definition shebang : t :=
  {| source := Seq Bol (Seq (Chr "#") (Seq (Chr "!")
                 (Seq (Repeat 0 None false Any) Eol)));
     fl := flag_m |}.

End Literal.

(** ** [src/transformer.js] *)

(** What [getAbsPathInfoSync] returns for a path that is on disk: the path of
    what was found there, and whether it is a file. *)
Record AbsPathInfo := { path : string; isFile : bool }.

(** An alias rule of [options.modules]. *)
Record ModuleRule := {
  name : string;
  find : option string;
  rule_path : string
}.

(** The options the transformation reads: [cjs2esm.extension.ignore] and
    [cjs2esm.modules]. *)
Record TransformerOptions := {
  extension_ignore : list string;
  modules : list ModuleRule
}.

(** The statements the transformation looks at, with the fields it reads or
    rebuilds; the specifier is the [source] of the node. *)
Inductive Statement :=
| ImportDeclaration (specifiers : list string) (source : string)
| ExportNamedDeclaration (declaration : option string) (specifiers : list string)
    (source : option string)
| ExportAllDeclaration (exported : option string) (source : string)
| OtherStatement (code : string).

Section Transformer.

(** The disk, as the helpers of the [utils] module and [fs-extra] show it,
    and the working directory of the process. *)
Variable cwd : string.
Variable pathExistsSync : string -> bool.
Variable getAbsPathInfoSync : string -> option AbsPathInfo.
Variable findFileSync : list string -> string -> option string.

Definition createReplacementForFolder (absPath importPath : string) : option string :=
  let pkgPath := path_join [absPath; "package.json"] in
  let pkgExists := pathExistsSync pkgPath in
  if pkgExists then Some (replace importPath Literal.trailing_slash "")
  else
    match findFileSync ["index.mjs"; "index.js"] absPath with
    | Some file => Some (path_join [importPath; path_basename file])
    | None => None
    end.

(** The absolute path the import statement is resolved to. *)
Definition absPathOf (importPath base : string) : string :=
  if startsWith importPath "." then path_join [base; importPath]
  else path_resolve cwd ["node_modules"; importPath].

(** [a || b] on a string that may be [null]: the empty string is falsy. *)
Definition or_string (a : option string) (b : string) : string :=
  match a with
  | Some "" | None => b
  | Some s => s
  end.

(** The replacement before the hotfix. *)
Definition replacementOf (importPath base : string) : string :=
  let absPath := absPathOf importPath base in
  match getAbsPathInfoSync absPath with
  | None => importPath
  | Some info =>
      if isFile info
      then path_join [path_dirname importPath; path_basename (path info)]
      else or_string (createReplacementForFolder absPath importPath) importPath
  end.

(** The hotfix at the end of [updatePath]. *)
Definition hotfix (importPath replacement : string) : string :=
  if (String.eqb importPath "." || startsWith importPath "./")
     && negb (startsWith replacement "./")
  then "./" +:+ replacement
  else replacement.

Definition updatePath (importPath base : string) : string :=
  hotfix importPath (replacementOf importPath base).

Definition needsPathUpdate (ignoreListForExt : list RegExp.t)
    (exportPath : option string) : bool :=
  match exportPath with
  | None | Some "" => false
  | Some p =>
      negb (existsb (matches p) ignoreListForExt)
      && (startsWith p "." || matches p Literal.leading_word)
  end.

Definition sourceOf (s : Statement) : option string :=
  match s with
  | ImportDeclaration _ src => Some src
  | ExportNamedDeclaration _ _ src => src
  | ExportAllDeclaration _ src => Some src
  | OtherStatement _ => None
  end.

(** The three [find(...).filter(needsPathUpdate).replaceWith(...)] chains:
    each one visits the nodes of its own type. *)
Definition updateImport (ignoreListForExt : list RegExp.t) (base : string)
    (s : Statement) : Statement :=
  match s with
  | ImportDeclaration specifiers src =>
      if needsPathUpdate ignoreListForExt (Some src)
      then ImportDeclaration specifiers (updatePath src base)
      else s
  | _ => s
  end.

Definition updateExportNamed (ignoreListForExt : list RegExp.t) (base : string)
    (s : Statement) : Statement :=
  match s with
  | ExportNamedDeclaration declaration specifiers (Some src) =>
      if needsPathUpdate ignoreListForExt (Some src)
      then ExportNamedDeclaration declaration specifiers (Some (updatePath src base))
      else s
  | _ => s
  end.

Definition updateExportAll (ignoreListForExt : list RegExp.t) (base : string)
    (s : Statement) : Statement :=
  match s with
  | ExportAllDeclaration exported src =>
      if needsPathUpdate ignoreListForExt (Some src)
      then ExportAllDeclaration exported (updatePath src base)
      else s
  | _ => s
  end.

(** [modules.map((r) => ({ ...r, regex: new RegExp(`^${r.name}(/|$)`) }))]. *)
Fixpoint withRegex (rules : list ModuleRule) : Result (list (ModuleRule * RegExp.t)) :=
  match rules with
  | [] => Ok []
  | r :: more =>
      bind_result (RegExp_new ("^" +:+ name r +:+ "(/|$)")) (fun x =>
      bind_result (withRegex more) (fun xs => Ok ((r, x) :: xs)))
  end.

(** The body of the [replaceWith] of the modules pass; [info] is
    [undefined] when no rule name starts the specifier. *)
Definition applyModule (mods : list (ModuleRule * RegExp.t)) (importPath : string)
    : Result string :=
  match List.find (fun md => startsWith importPath (name (fst md))) mods with
  | None => Throw (TypeError "Cannot read properties of undefined (reading 'find')")
  | Some (info, _) =>
      bind_result
        (match find info with
         | None | Some "" => RegExp_new ("^" +:+ name info)
         | Some pattern => RegExp_new pattern
         end)
        (fun x => Ok (replace importPath x (rule_path info)))
  end.

Definition updateModule (mods : list (ModuleRule * RegExp.t)) (s : Statement)
    : Result Statement :=
  match s with
  | ImportDeclaration specifiers importPath =>
      if existsb (fun md => matches importPath (snd md)) mods
      then bind_result (applyModule mods importPath)
             (fun replacement => Ok (ImportDeclaration specifiers replacement))
      else Ok s
  | _ => Ok s
  end.

Fixpoint mapResult {A B} (f : A -> Result B) (l : list A) : Result (list B) :=
  match l with
  | [] => Ok []
  | a :: more =>
      bind_result (f a) (fun b =>
      bind_result (mapResult f more) (fun bs => Ok (b :: bs)))
  end.

(** The modules pass: it runs when there are rules, on import declarations
    only. *)
Definition modulesPass (options : TransformerOptions) (root : list Statement)
    : Result (list Statement) :=
  match modules options with
  | [] => Ok root
  | rules =>
      bind_result (withRegex rules) (fun mods => mapResult (updateModule mods) root)
  end.

(** The passes that add the missing extensions. *)
Definition extensionPass (ignoreListForExt : list RegExp.t) (base : string)
    (root : list Statement) : list Statement :=
  map (updateExportAll ignoreListForExt base)
    (map (updateExportNamed ignoreListForExt base)
       (map (updateImport ignoreListForExt base) root)).

(** [transform(file, api, options)], from the parsed statements of the file
    to the statements it prints back. *)
Definition transform (file_path : string) (root : list Statement)
    (options : TransformerOptions) : Result (list Statement) :=
  let base := path_dirname file_path in
  bind_result (RegExp_all (extension_ignore options)) (fun ignoreListForExt =>
  modulesPass options (extensionPass ignoreListForExt base root)).

End Transformer.

(** Modelled from the spec: [findFileSync] of the [utils] module, which is not
    among the sources.  The spec has the entry file probed "in that priority
    order": the first name of the list, in order, that exists under the
    directory, as a path; nothing when none exists. *)
Definition findFileSync_model (pathExistsSync : string -> bool)
    (names : list string) (directory : string) : option string :=
  List.find pathExistsSync (map (fun f => path_join [directory; f]) names).

(** ** Sample disks for the resolver

    The oracles of a few small disks, used to run the resolver on concrete
    specifiers. *)
Module Fixture.

Definition cwd : string := "/proj".

Definition directory : AbsPathInfo := {| path := ""; isFile := false |}.

Definition is_one_of (paths : list string) (p : string) : bool :=
  existsb (String.eqb p) paths.

(** A disk with nothing on it. *)
Definition nothing_exists (p : string) : bool := false.
Definition nothing_found (p : string) : option AbsPathInfo := None.

(** A disk where [/proj/esm/lib] is a directory that holds a
    [package.json]. *)
Definition lib_with_manifest_exists : string -> bool :=
  is_one_of ["/proj/esm/lib"; "/proj/esm/lib/"; "/proj/esm/lib/package.json"].
Definition lib_info (p : string) : option AbsPathInfo :=
  if is_one_of ["/proj/esm/lib"; "/proj/esm/lib/"] p then Some directory else None.

(** A disk where [/proj/esm/lib] is a directory that holds [index.js] and
    nothing else. *)
Definition lib_with_index_exists : string -> bool :=
  is_one_of ["/proj/esm/lib"; "/proj/esm/lib/index.js"].

(** A disk where [/proj/esm/lib] is a directory that holds nothing. *)
Definition lib_empty_exists : string -> bool := is_one_of ["/proj/esm/lib"].


Definition no_file (names : list string) (directory : string) : option string := None.

(** A rule that sends [utils] to [./shared/utils], with [utils] on the
    ignore list of the extensions as well. *)
Definition utilsRule : ModuleRule :=
  {| name := "utils"; find := None; rule_path := "./shared/utils" |}.
Definition utilsIgnored : TransformerOptions :=
  {| extension_ignore := ["^utils"]; modules := [utilsRule] |}.
Definition stylesIgnored : TransformerOptions :=
  {| extension_ignore := ["\.css$"]; modules := [utilsRule] |}.

(** The rules that send [react] and [react-dom] to [preact/compat]. *)
Definition preact : TransformerOptions :=
  {| extension_ignore := [];
     modules := [ {| name := "react"; find := None; rule_path := "preact/compat" |};
                  {| name := "react-dom"; find := None; rule_path := "preact/compat" |} ] |}.

End Fixture.

(** ** The pipeline

    The module that copies the files and runs the transformations.  Its
    functions are [async]; they are rendered in a state-and-error monad over
    the [World], one operation after the other (the callbacks that
    [Promise.all] runs side by side work on different files). *)

(** The contents of the files, the transformations the jscodeshift runner
    was started with, and what was logged. *)
Record World := {
  disk : gmap string string;
  runs : list string;
  console : list (string * string)
}.

Definition with_disk (w : World) (files : gmap string string) : World :=
  {| disk := files; runs := runs w; console := console w |}.

Definition M (A : Type) : Type := World -> Result A * World.

Definition ret {A} (a : A) : M A := fun w => (Ok a, w).

Definition throw {A} (e : Error) : M A := fun w => (Throw e, w).

Definition bind {A B} (c : M A) (f : A -> M B) : M B :=
  fun w =>
    match c w with
    | (Ok a, w') => f a w'
    | (Throw e, w') => (Throw e, w')
    end.

Declare Scope pipeline_scope.
Delimit Scope pipeline_scope with pipeline.
Notation "x <- c1 ;; c2" := (bind c1 (fun x => c2))
  (at level 100, c1 at next level, right associativity) : pipeline_scope.
Notation "c1 ;; c2" := (bind c1 (fun _ => c2))
  (at level 100, right associativity) : pipeline_scope.
Open Scope pipeline_scope.

Definition lift {A} (r : Result A) : M A := fun w => (r, w).

(** [await fs.readFile(path, 'utf-8')]: a file that is not there is an error. *)
Definition readFile (p : string) : M string :=
  fun w =>
    match disk w !! p with
    | Some contents => (Ok contents, w)
    | None => (Throw (IOError p), w)
    end.

(** [await fs.writeFile(path, contents)]. *)
Definition writeFile (p contents : string) : M unit :=
  fun w => (Ok tt, with_disk w (<[p := contents]> (disk w))).

(** [await fs.ensureDir(path.dirname(to))] and [await fs.copyFile(from, to)],
    as far as files go.  The disk maps the paths of the files to their
    contents and has no directories of its own: the copy fails here only
    when the source cannot be read.  What the file system refuses on the
    side of the destination (a directory at the destination, a file where a
    directory is needed) is outside the embedding, and the theorems on
    copies take the success of the copy as a hypothesis. *)
Definition copyFile (src dst : string) : M unit :=
  contents <- readFile src ;; writeFile dst contents.

(** [log(color, text)]. *)
Definition log (color text : string) : M unit :=
  fun w =>
    (Ok tt, {| disk := disk w; runs := runs w; console := console w ++ [(color, text)] |}).

(** [await Promise.all(list.map(async (x) => ...))], in list order. *)
Fixpoint traverse {A B} (f : A -> M B) (l : list A) : M (list B) :=
  match l with
  | [] => ret []
  | a :: more => b <- f a ;; bs <- traverse f more ;; ret (b :: bs)
  end.

Record CopiedFile := { from : string; to : string }.

(** [ModuleExtension]: the extension the modules should use, 'js' or 'mjs'. *)
Inductive ModuleExtension := ExtJs | ExtMjs.

Definition extension_name (e : ModuleExtension) : string :=
  match e with ExtJs => "js" | ExtMjs => "mjs" end.

(** What [fs.readdir] and [fs.stat] show of a directory: its entries, each one
    a file or a directory with entries of its own. *)
#[warnings="-register-all"]
Inductive Entry :=
| FileEntry (item : string)
| DirEntry (item : string) (children : list Entry).

Definition skipped (item : string) : bool :=
  String.eqb item "." || String.eqb item ".." || String.eqb item "node_modules".

(** [findFiles(directory)], for one entry of the directory: the files whose
    name matches [/\.js$/i], at any depth. *)
Fixpoint findFilesAt (directory : string) (e : Entry) : list string :=
  match e with
  | FileEntry item =>
      if skipped item then []
      else if matches item Literal.js_extension then [path_join [directory; item]]
      else []
  | DirEntry item children =>
      if skipped item then []
      else flat_map (findFilesAt (path_join [directory; item])) children
  end.

Definition findFiles (directory : string) (entries : list Entry) : list string :=
  flat_map (findFilesAt directory) entries.

(** [cleanPath.split(path.sep)], [shift()], [join(path.sep)]. *)
Definition withoutFirstSegment (p : string) : string :=
  str (Js.join [Path.slash] (tl (Js.split Path.slash (chars p)))).

(** The change of extension in [copyDirectory]: when the extension that
    [path.parse] finds is not the one asked for, it is replaced through a
    pattern built from it. *)
Definition withExtension (newPath extension : string) : Result string :=
  let ext := path_parse_ext newPath in
  if String.eqb ext extension then Ok newPath
  else
    bind_result (RegExp_new ("\" +:+ ext +:+ "$"))
      (fun x => Ok (replace newPath x extension)).

(** The body of the [map] of [copyDirectory], for one file. *)
Definition copyOne (cwd output : string) (extension : string) (forceDirectory : bool)
    (item : string) : M CopiedFile :=
  let cleanPath := str (Js.substr (String.length cwd + 1) (chars item)) in
  let cleanPath := if forceDirectory then cleanPath else withoutFirstSegment cleanPath in
  newPath <- lift (withExtension (path_join [output; cleanPath]) extension) ;;
  copyFile item newPath ;;
  ret {| from := item; to := newPath |}.

(** [copyDirectory(directory, output, useExtension, forceDirectory)]; the
    entries are what [directory] holds. *)
Definition copyDirectory (cwd directory : string) (entries : list Entry)
    (output : string) (useExtension : ModuleExtension) (forceDirectory : bool)
    : M (list CopiedFile) :=
  let extension := "." +:+ extension_name useExtension in
  let contents := findFiles directory entries in
  traverse (copyOne cwd output extension forceDirectory) contents.

(** [copyFiles(input, output, useExtension, forceDirectory)]; each input
    directory comes with its entries. *)
Definition copyFiles (cwd : string) (input : list (string * list Entry))
    (output : string) (useExtension : ModuleExtension) (forceDirectory : option bool)
    : M (list CopiedFile) :=
  match input with
  | [(firstInput, entries)] =>
      copyDirectory cwd firstInput entries output useExtension
        (match forceDirectory with Some true => true | _ => false end)
  | _ =>
      result <- traverse (fun item =>
                  copyDirectory cwd (fst item) (snd item) output useExtension true) input ;;
      ret (concat result)
  end.

(** A JavaScript object used as a dictionary with string keys: the keys keep
    the order in which they were first set. *)
Fixpoint dict_set (d : list (string * string)) (k v : string) : list (string * string) :=
  match d with
  | [] => [(k, v)]
  | (k', v') :: more =>
      if String.eqb k' k then (k', v) :: more else (k', v') :: dict_set more k v
  end.

Definition newline : string := String "010" "".

(** The body of the [map] of [removeShebangs], for one file. *)
Definition removeShebang (file : CopiedFile) : M (option (string * CopiedFile)) :=
  contents <- readFile (to file) ;;
  match RegExp.exec Literal.shebang (chars contents) with
  | Some found =>
      let shebang := RegExp.matched found in
      let contents := Js.trim_left (Js.replace_first shebang [] (chars contents)) in
      writeFile (to file) (str contents) ;;
      ret (Some (str shebang, file))
  | None => ret None
  end.

Definition removeShebangs (files : list CopiedFile) : M (list (string * string)) :=
  result <- traverse removeShebang files ;;
  ret (fold_left
         (fun acc item =>
            match item with
            | Some (shebang, file) => dict_set acc (to file) shebang
            | None => acc
            end)
         result []).

(** The body of the [map] of [restoreShebangs], for one key of the dictionary. *)
Definition restoreOne (entry : string * string) : M unit :=
  let '(filepath, shebang) := entry in
  contents <- readFile filepath ;;
  writeFile filepath (shebang +:+ newline +:+ newline +:+ contents).

Definition restoreShebangs (shebangs : list (string * string)) : M unit :=
  traverse restoreOne shebangs ;; ret tt.

(** The options of the tool that the pipeline reads, and the ones it hands to
    the transformations. *)
Record CJS2ESMOptions := {
  output : string;
  filesWithShebang : list string;
  transformer : TransformerOptions
}.

(** The options [Runner.run] is called with. *)
Record RunnerOptions := {
  verbose : nat;
  dry : bool;
  print : bool;
  babel : bool;
  extension : string;
  ignorePattern : list string;
  ignoreConfig : list string;
  runInBand : bool;
  silent : bool;
  parser : string;
  cjs2esm : CJS2ESMOptions
}.

(** The statistics [Runner.run] resolves with. *)
Record Stats := {
  error : nat;
  ok : nat;
  nochange : nat;
  skip : nat;
  timeElapsed : string
}.

(** [array.findIndex(f)]; [None] stands for -1. *)
Fixpoint findIndex {A} (f : A -> bool) (l : list A) : option nat :=
  match l with
  | [] => None
  | a :: more => if f a then Some 0 else option_map S (findIndex f more)
  end.

Section TransformOutput.

(** [process.cwd()], the directory of the [5to6-codemod] transformations,
    [__dirname], the jscodeshift runner (on the contents of the files) and
    the sum of the elapsed times as [toFixed(2)] prints it. *)
Variable cwd : string.
Variable fiveToSixCodeModPath : string.
Variable dirname : string.
Variable Runner_run :
  string -> list string -> RunnerOptions -> gmap string string ->
  Result Stats * gmap string string.
Variable totalTime : list Stats -> string.

(** [Runner.run(transformation, paths, options)]. *)
Definition run (transformation : string) (paths : list string)
    (options : RunnerOptions) : M Stats :=
  fun w =>
    let '(stats, files) := Runner_run transformation paths options (disk w) in
    (stats, {| disk := files; runs := runs w ++ [transformation];
               console := console w |}).

Definition transformations : list string :=
  [ path_join [fiveToSixCodeModPath; "cjs.js"];
    path_join [fiveToSixCodeModPath; "exports.js"];
    path_join [fiveToSixCodeModPath; "named-export-generation.js"];
    path_join [dirname; "transformer.js"] ].

(** The [reduce] over the transformations: the runs are chained one after
    the other and their statistics collected (the [null] the chain starts
    with, which [results.shift()] removes afterwards, is left out). *)
Fixpoint runAll (todo : list string) (output : string) (options : RunnerOptions)
    (prevStats : list Stats) : M (list Stats) :=
  match todo with
  | [] => ret prevStats
  | transformation :: more =>
      stats <- run transformation [output] options ;;
      runAll more output options (prevStats ++ [stats])
  end.

(** The options every transformation is run with. *)
Definition runnerOptions (first : CopiedFile) (options : CJS2ESMOptions)
    : RunnerOptions :=
  {| verbose := 0; dry := false; print := false; babel := true;
     extension := if matches (to first) Literal.mjs_extension then "mjs" else "js";
     ignorePattern := []; ignoreConfig := []; runInBand := false;
     silent := true; parser := "babel"; cjs2esm := options |}.

(** Before the transformations: the shebangs of the files that match
    [options.filesWithShebang] are removed; [None] stands for the
    [shebangs] variable left [undefined]. *)
Definition shield (files : list CopiedFile) (options : CJS2ESMOptions)
    : M (option (list (string * string))) :=
  shebangExpressions <- lift (RegExp_all (filesWithShebang options)) ;;
  let filesWithShebang :=
    filter (fun file => existsb (matches (from file)) shebangExpressions) files in
  match filesWithShebang with
  | [] => ret None
  | _ => shebangs <- removeShebangs filesWithShebang ;; ret (Some shebangs)
  end.

(** After the transformations: [if (shebangs) await restoreShebangs(shebangs)]. *)
Definition unshield (shebangs : option (list (string * string))) : M unit :=
  match shebangs with
  | Some found => restoreShebangs found
  | None => ret tt
  end.

Definition failed (files : list CopiedFile) (stats : Stats) : bool :=
  negb (ok stats + nochange stats =? length files).

Definition failureMessage (transformationError : string) : string :=
  "At least one file couldn't be transformed with `" +:+ transformationError +:+ "`".

(** The end of [transformOutput]: the check of the statistics and the
    report. *)
Definition report (files : list CopiedFile) (results : list Stats) : M unit :=
  match findIndex (failed files) results with
  | Some errorIndex =>
      let transformationError := nth errorIndex transformations "" in
      let transformationError := path_parse_name transformationError in
      throw (JsError (failureMessage transformationError))
  | None =>
      traverse (fun file =>
          log "gray" ("> " +:+ str (Js.substr (String.length cwd + 1) (chars (to file)))))
        files ;;
      log "green" ("All files were successfully transformed ("
                   +:+ totalTime results +:+ "s)!")
  end.

Definition announce (files : list CopiedFile) : M unit :=
  log "yellow" ("Transforming " +:+ pretty (length files) +:+ " files...").

Definition transformOutput (files : list CopiedFile) (options : CJS2ESMOptions)
    : M unit :=
  match files with
  | [] => throw (TypeError "Cannot read properties of undefined (reading 'to')")
  | first :: _ =>
      let transformOptions := runnerOptions first options in
      shebangs <- shield files options ;;
      announce files ;;
      results <- runAll transformations (output options) transformOptions [] ;;
      unshield shebangs ;;
      report files results
  end.

End TransformOutput.

(** ** Sample runs of the pipeline *)
Module Run.

Definition cwd : string := "/proj".
Definition codemods : string := "/proj/node_modules/5to6-codemod/transforms".
Definition here : string := "/proj/node_modules/cjs2esm/src".

Definition noTime (results : list Stats) : string := "0.00".

Definition emptyWorld : World := {| disk := ∅; runs := []; console := [] |}.

Definition onDisk (files : list (string * string)) : World :=
  {| disk := list_to_map files; runs := []; console := [] |}.

Definition options : CJS2ESMOptions :=
  {| output := "/proj/esm"; filesWithShebang := [];
     transformer := {| extension_ignore := []; modules := [] |} |}.

Definition copied : list CopiedFile :=
  [ {| from := "/proj/src/a.js"; to := "/proj/esm/a.mjs" |} ].

Definition good : Stats :=
  {| error := 0; ok := 1; nochange := 0; skip := 0; timeElapsed := "0.010" |}.
Definition bad : Stats :=
  {| error := 1; ok := 0; nochange := 0; skip := 0; timeElapsed := "0.010" |}.

(** A runner that leaves the files alone and reports a file in error for
    the transformation whose file name is [failing]. *)
Definition runner (failing : string) (transformation : string) (paths : list string)
    (options : RunnerOptions) (files : gmap string string)
    : Result Stats * gmap string string :=
  (Ok (if String.eqb (path_basename transformation) failing then bad else good), files).

(** A script with a shebang: one line break after it, or an empty line. *)
Definition script : CopiedFile :=
  {| from := "/proj/src/bin.js"; to := "/proj/esm/bin.js" |}.
Definition shebangLine : string := "#!/usr/bin/env node".
Definition tight : string := shebangLine +:+ newline +:+ "main();" +:+ newline.
Definition spaced : string :=
  shebangLine +:+ newline +:+ newline +:+ "main();" +:+ newline.

(** A source directory that holds [A.JS] and a file named [.js]. *)
Definition sources : list Entry := [FileEntry "A.JS"; FileEntry ".js"].
Definition sourceFiles : World :=
  onDisk [("/proj/src/A.JS", "module.exports = 1;"); ("/proj/src/.js", "module.exports = 2;")].

End Run.

(** ** The vocabulary of the properties *)

(** The string without its last character when that one is a slash. *)
Fixpoint drop_slash (s : list ascii) : list ascii :=
  match s with
  | [] => []
  | c :: s' =>
      match s' with
      | [] => if Path.is_slash c then [] else [c]
      | _ => c :: drop_slash s'
      end
  end.

Definition dropTrailingSlash (s : string) : string := str (drop_slash (chars s)).

Definition regular_segment (n : list ascii) : Prop :=
  n <> [] /\ forallb Path.not_slash n = true
  /\ n <> [Path.dot] /\ n <> [Path.dot; Path.dot].

Definition no_line_terminator (l : list ascii) : Prop :=
  forallb (fun c => negb (Char.is_line_terminator c)) l = true.

(** What follows a line: nothing, or a line terminator. *)
Definition line_ends_at (s : list ascii) : Prop :=
  match s with
  | [] => True
  | c :: _ => Char.is_line_terminator c = true
  end.

(** The first line of a text, and the text from the end of that line on. *)
Fixpoint first_line (t : list ascii) : list ascii :=
  match t with
  | c :: t' => if Char.is_line_terminator c then [] else c :: first_line t'
  | [] => []
  end.

Fixpoint after_first_line (t : list ascii) : list ascii :=
  match t with
  | c :: t' => if Char.is_line_terminator c then t else after_first_line t'
  | [] => []
  end.

(** What [removeShebangs] makes of the contents of one file: the shebang it
    records and the contents it writes back, when there is a shebang. *)
Definition strip (contents : string) : option (string * string) :=
  match RegExp.exec Literal.shebang (chars contents) with
  | Some found =>
      Some (str (RegExp.matched found),
            str (Js.trim_left
                   (Js.replace_first (RegExp.matched found) [] (chars contents))))
  | None => None
  end.

Definition contents_at (files : gmap string string) (f : CopiedFile) : string :=
  default "" (files !! to f).

Definition item_of (files : gmap string string) (f : CopiedFile)
    : option (string * CopiedFile) :=
  match strip (contents_at files f) with
  | Some (shebang, _) => Some (shebang, f)
  | None => None
  end.

Definition stripped (contents : string) : string :=
  match strip contents with
  | Some (_, contents') => contents'
  | None => contents
  end.

Definition entry_of (files : gmap string string) (f : CopiedFile)
    : option (string * string) :=
  match strip (contents_at files f) with
  | Some (shebang, _) => Some (to f, shebang)
  | None => None
  end.

(** The strings that the round trip is stated with. *)
Definition firstLine (text : string) : string := str (first_line (chars text)).
Definition afterFirstLine (text : string) : string := str (after_first_line (chars text)).
Definition trimLeft (text : string) : string := str (Js.trim_left (chars text)).

(** The computations that start no transformation. *)
Definition keeps_runs {A} (c : M A) : Prop := forall w, runs (c w).2 = runs w.

(** A segment that [normalizeString] keeps: not empty, not ".", without a
    slash. *)
Definition kept_segment (seg : list ascii) : Prop :=
  seg <> [] /\ seg <> [Path.dot] /\ forallb Path.not_slash seg = true.

(** The specifiers the hotfix of [updatePath] looks after. *)
Definition marked (importPath : string) : bool :=
  String.eqb importPath "." || startsWith importPath "./".

(** The pattern of a literal text followed by [$]. *)
Definition literal_eol (text : list ascii) : RegExp.t :=
  {| RegExp.source := fold_right (fun c r => RegExp.Seq (RegExp.Chr c) r) RegExp.Eol text;
     RegExp.fl := RegExp.no_flags |}.

(** The last segment of a path that does not end with a slash. *)
Definition last_segment (p : list ascii) : list ascii :=
  rev (Path.take_while Path.not_slash (rev p)).

(** The spellings of the extension that [findFiles] lets through. *)
Definition js_spellings : list string := [".js"; ".jS"; ".Js"; ".JS"].

(** The characters that stand for themselves in a pattern, whatever comes
    before or after them. *)
Definition plain (c : ascii) : bool :=
  negb (existsb (Char.eqb c) (chars "^$\.*+?()[]{}|")).

Definition plainName (s : string) : Prop := forallb plain (chars s) = true.

(** The pattern of a literal text followed by the pattern [r], as the reader
    of patterns builds it. *)
Definition literal_then (text : list ascii) (r : RegExp.re) : RegExp.re :=
  fold_right (fun c r => RegExp.seq (RegExp.Chr c) r) r text.

(** The pattern of [(/|$)], as the first group of its pattern. *)
Definition segment_end : RegExp.re :=
  RegExp.Group 1 (RegExp.Alt (RegExp.Chr "/") RegExp.Eol).

(** The pattern of [^name(/|$)] and the pattern of [^name], for a name of
    plain characters. *)
Definition wholeSegment (name : string) : RegExp.t :=
  {| RegExp.source := RegExp.Seq RegExp.Bol (literal_then (chars name) segment_end);
     RegExp.fl := RegExp.no_flags |}.

Definition leading (name : string) : RegExp.t :=
  {| RegExp.source := RegExp.seq RegExp.Bol (literal_then (chars name) RegExp.Empty);
     RegExp.fl := RegExp.no_flags |}.

(** [name] is the specifier, or the specifier starts with [name] and a
    slash. *)
Definition isSegmentPrefix (name s : string) : bool :=
  String.eqb s name || startsWith s (name +:+ "/").

Definition dollarFree (s : string) : Prop :=
  forallb (fun c => negb (Char.eqb c "$")) (chars s) = true.

(** The character before the position reached after reading [text]. *)
Definition prev_after (p : option ascii) (text : list ascii) : option ascii :=
  match rev text with
  | c :: _ => Some c
  | [] => p
  end.

(** What may follow the name of a rule in a specifier: nothing, or a slash. *)
Definition segment_ends (t : list ascii) : bool :=
  match t with
  | [] => true
  | c :: _ => Char.eqb c "/"
  end.

(** ** Values of JSON files and configuration modules

    What [require] and [fs.readJSON] hand back: the values of JSON, an object
    being the list of its properties in the order they were set (its keys are
    distinct).  Numbers are kept whole, which is all their truth value asks
    for. *)
#[warnings="-register-all"]
Inductive Json :=
| JNull
| JBool (b : bool)
| JNumber (n : Z)
| JString (s : string)
| JArray (items : list Json)
| JObject (properties : list (string * Json)).

(** The truth value of what a property read gives; [None] is [undefined]. *)
Definition truthy (v : option Json) : bool :=
  match v with
  | None | Some JNull | Some (JBool false) | Some (JNumber Z0) | Some (JString "") => false
  | Some _ => true
  end.

Fixpoint lookup_property (k : string) (properties : list (string * Json)) : option Json :=
  match properties with
  | [] => None
  | (k', v) :: more => if String.eqb k' k then Some v else lookup_property k more
  end.

(** [value.k], for a key that is no index and no built-in: only an object
    has it. *)
Definition property (k : string) (value : Json) : option Json :=
  match value with
  | JObject properties => lookup_property k properties
  | _ => None
  end.

(** [object.k = v]: the value of an existing key is replaced in place, a new
    key comes last. *)
Fixpoint assign (properties : list (string * Json)) (k : string) (v : Json)
    : list (string * Json) :=
  match properties with
  | [] => [(k, v)]
  | (k', v') :: more =>
      if String.eqb k' k then (k', v) :: more else (k', v') :: assign more k v
  end.

(** The own enumerable properties that [{ ...value }] copies: the properties
    of an object, the items of an array and the characters of a string under
    their indices, nothing for the other values. *)
Definition ownProperties (value : Json) : list (string * Json) :=
  match value with
  | JObject properties => properties
  | JArray items => imap (fun i item => (pretty i, item)) items
  | JString s => imap (fun i c => (pretty i, JString (String c ""))) (chars s)
  | _ => []
  end.

(** [{ ...target, ...value }]. *)
Definition spread (target : list (string * Json)) (value : Json) : list (string * Json) :=
  fold_left (fun acc kv => assign acc (fst kv) (snd kv)) (ownProperties value) target.

(** ** [path.relative]

    After Node's [lib/path.js]: both paths are resolved, the segments they
    start with in common are dropped, and what is left of [from] is climbed
    with ".." before what is left of [to]. *)
Fixpoint drop_common (a b : list (list ascii)) : list (list ascii) * list (list ascii) :=
  match a, b with
  | x :: a', y :: b' => if Path.seg_eqb x y then drop_common a' b' else (a, b)
  | _, _ => (a, b)
  end.

Definition path_segments (p : list ascii) : list (list ascii) :=
  filter Path.nonempty (Js.split Path.slash p).

Definition relative (cwd from to : list ascii) : list ascii :=
  if Path.seg_eqb from to then []
  else
    let from := Path.resolve cwd [from] in
    let to := Path.resolve cwd [to] in
    if Path.seg_eqb from to then []
    else
      let '(up, down) := drop_common (path_segments from) (path_segments to) in
      Js.join [Path.slash] (map (fun _ => [Path.dot; Path.dot]) up ++ down).

Definition path_relative (cwd from to : string) : string :=
  str (relative (chars cwd) (chars from) (chars to)).

(** [/^(\w)/] *)
Definition first_word_character : RegExp.t :=
  {| RegExp.source :=
       RegExp.Seq RegExp.Bol
         (RegExp.Group 1 (RegExp.Class false [RegExp.CWord false]));
     RegExp.fl := RegExp.no_flags |}.

(** ** The configuration and the manifest of the project *)

Section GetConfiguration.

(** [process.cwd()], [findFile] and [requireModule] of the [utils] module,
    and [fs.readJSON]. *)
Variable cwd : string.
Variable findFile : list string -> string -> option string.
Variable requireModule : string -> Result Json.
Variable readJSON : string -> Result Json.

(** The configuration that [package.json] holds, under [config.cjs2esm] or
    under [cjs2esm]. *)
Definition fromPackageJson (pkgJson : Json) : M Json :=
  match pkgJson with
  | JNull => throw (TypeError "Cannot read properties of null (reading 'config')")
  | _ =>
      let config := property "config" pkgJson in
      let nested := match config with Some c => property "cjs2esm" c | None => None end in
      if truthy config && truthy nested then
        log "green" "Using configuration from the package.json" ;;
        ret (default JNull nested)
      else if truthy (property "cjs2esm" pkgJson) then
        log "green" "Using configuration from the package.json" ;;
        ret (default JNull (property "cjs2esm" pkgJson))
      else
        log "gray" "No configuration was found, using defaults..." ;;
        ret (JObject [])
  end.

(** The first part of [getConfiguration]: where the configuration is taken
    from. *)
Definition loadConfiguration : M Json :=
  match findFile [".cjs2esm"; ".cjs2esm.json"; ".cjs2esm.js"] cwd with
  | None =>
      pkgJson <- lift (requireModule (path_join [cwd; "package.json"])) ;;
      fromPackageJson pkgJson
  | Some file =>
      config <- lift (if matches file Literal.js_extension
                      then requireModule file else readJSON file) ;;
      log "green" ("Configuration file found: `" +:+ file +:+ "`") ;;
      ret config
  end.

Definition defaults : list (string * Json) :=
  [ ("input", JArray [JString "src"]);
    ("output", JString "esm");
    ("forceDirectory", JNull);
    ("modules", JArray []);
    ("extension", JObject []);
    ("addModuleEntry", JBool false);
    ("addPackageJson", JBool true);
    ("filesWithShebang", JArray []) ].

Definition extensionDefaults : list (string * Json) :=
  [ ("use", JString "js"); ("ignore", JArray []) ].

(** [path.join(cwd, item)] on a value: anything but a string is refused. *)
Definition joinCwd (item : Json) : Result Json :=
  match item with
  | JString s => Ok (JString (path_join [cwd; s]))
  | _ => Throw (TypeError "The path argument must be of type string")
  end.

(** [result.input.map((item) => path.join(cwd, item))]. *)
Definition inputPaths (input : option Json) : Result Json :=
  match input with
  | Some (JArray items) =>
      bind_result (mapResult joinCwd items) (fun paths => Ok (JArray paths))
  | Some JNull => Throw (TypeError "Cannot read properties of null (reading 'map')")
  | None => Throw (TypeError "Cannot read properties of undefined (reading 'map')")
  | Some _ => Throw (TypeError "result.input.map is not a function")
  end.

(** The second part of [getConfiguration]: the defaults are completed with
    the configuration and the paths put under the working directory. *)
Definition withDefaults (config : Json) : Result Json :=
  let result := spread defaults config in
  let extension :=
    spread extensionDefaults (default JNull (lookup_property "extension" result)) in
  let result := assign result "extension" (JObject extension) in
  bind_result (inputPaths (lookup_property "input" result)) (fun input =>
  let result := assign result "input" input in
  bind_result (joinCwd (default JNull (lookup_property "output" result))) (fun output =>
  Ok (JObject (assign result "output" output)))).

Definition getConfiguration : M Json :=
  log "yellow" "Loading configuration..." ;;
  config <- loadConfiguration ;;
  lift (withDefaults config).

End GetConfiguration.

Section UpdatePackageJSON.

(** [process.cwd()], the helpers of the [utils] module, and what
    [fs.writeJSON] with two spaces writes for a value. *)
Variable cwd : string.
Variable requireModule : string -> Result Json.
Variable getAbsPathInfo : string -> option AbsPathInfo.
Variable findFile : list string -> string -> option string.
Variable stringify : Json -> string.

Definition writeJSON (p : string) (value : Json) : M unit :=
  writeFile p (stringify value).

Definition findFolderEntryPath (absPath : string) : option string :=
  match findFile ["index.mjs"; "index.js"] absPath with
  | None | Some "" => None
  | Some file => Some (path_join [absPath; path_basename file])
  end.

(** [pkgJson.module = result]. *)
Definition withModule (pkgJson : Json) (result : string) : Json :=
  match pkgJson with
  | JObject properties => JObject (assign properties "module" (JString result))
  | other => other
  end.

(** The file the [main] property stands for: the file itself, or the entry
    file of the folder. *)
Definition mainFile (info : AbsPathInfo) : M string :=
  if isFile info then ret (path info)
  else
    match findFolderEntryPath (path info) with
    | None | Some "" =>
        throw (JsError ("The entry file can't be found: `" +:+ path info +:+ "`"))
    | Some entry => ret entry
    end.

Definition updatePackageJSON (files : list CopiedFile) : M (option string) :=
  let pkgJsonPath := path_join [cwd; "package.json"] in
  pkgJson <- lift (requireModule pkgJsonPath) ;;
  match pkgJson with
  | JNull => throw (TypeError "Cannot read properties of null (reading 'main')")
  | _ =>
      if truthy (property "main" pkgJson) then
        match property "main" pkgJson with
        | Some (JString main) =>
            match getAbsPathInfo (path_join [cwd; main]) with
            | None => throw (TypeError "Cannot read properties of null (reading 'isFile')")
            | Some info =>
                mainPath <- mainFile info ;;
                match List.find (fun item => String.eqb (from item) mainPath) files with
                | Some file =>
                    let result :=
                      replace (path_relative cwd cwd (to file)) first_word_character "./$1" in
                    writeJSON pkgJsonPath (withModule pkgJson result) ;;
                    log "green"
                      "The module property was successfully added to the package.json!" ;;
                    ret (Some result)
                | None =>
                    log "yellow"
                      "It doesnt seem like the main file was transformed, package.json update aborted" ;;
                    ret None
                end
            end
        | _ => throw (TypeError "The path argument must be of type string")
        end
      else
        log "yellow" "There's no main property, package.json update aborted" ;;
        ret None
  end.

Definition addPackageJSON (output : string) : M unit :=
  writeJSON (path_join [output; "package.json"]) (JObject [("type", JString "module")]) ;;
  log "green" "The packages.json for the ESM version was successfully added!".

End UpdatePackageJSON.

(** ** Vocabulary of the further properties *)

(** A statement without its specifier. *)
Definition shape (s : Statement) : Statement :=
  match s with
  | ImportDeclaration specifiers _ => ImportDeclaration specifiers ""
  | ExportNamedDeclaration declaration specifiers src =>
      ExportNamedDeclaration declaration specifiers (option_map (fun _ => "") src)
  | ExportAllDeclaration exported _ => ExportAllDeclaration exported ""
  | OtherStatement code => OtherStatement code
  end.

(** Whether a specifier starts with a dot or with a word character. *)
Definition startsWithDotOrWord (src : string) : bool :=
  match chars src with
  | c :: _ => Char.eqb c "." || Char.is_word c
  | [] => false
  end.

Definition isImport (s : Statement) : bool :=
  match s with ImportDeclaration _ _ => true | _ => false end.

(** A name as [fs.readdir] gives it: not empty and without a slash. *)
Definition entryName (item : string) : bool :=
  negb (String.eqb item "") && forallb Path.not_slash (chars item).

(** The names of an entry and of the entries below it all pass [ok]. *)
Fixpoint wellNamed (ok : string -> bool) (e : Entry) : bool :=
  match e with
  | FileEntry item => ok item
  | DirEntry item children => ok item && forallb (wellNamed ok) children
  end.

(** A path with more segments put after it, each one behind a slash. *)
Definition below (directory : string) (segs : list string) : string :=
  fold_left (fun p s => p +:+ "/" +:+ s) segs directory.

(** An absolute path in normal form, other than the root: regular segments,
    each one behind a slash. *)
Definition absolutePath (p : string) : Prop :=
  exists segs,
    segs <> [] /\ Forall (fun s => regular_segment (chars s)) segs /\ p = below "" segs.

(** A name that ends with ".js", in any letter case. *)
Definition endsWithJs (item : string) : Prop :=
  exists stem e, In e js_spellings /\ item = stem +:+ e.

(** A name that is more than ".js". *)
Definition hasStem (item : string) : bool :=
  negb (existsb (String.eqb item) js_spellings).

Definition flat (segs : list (list ascii)) : list ascii :=
  concat (map (cons Path.slash) segs).

(** Whether a line starts right after the character [p]; there is none at
    the start of the text. *)
Definition lineStartsAfter (p : option ascii) : bool :=
  match p with
  | None => true
  | Some c => Char.is_line_terminator c
  end.

(** Whether some line of a text starts with "#!"; [p] is the character
    before the text. *)
Fixpoint hasShebangLine (p : option ascii) (s : list ascii) : bool :=
  match s with
  | [] => false
  | c :: s' =>
      (lineStartsAfter p && Js.starts_with ["#"%char; "!"%char] s)
      || hasShebangLine (Some c) s'
  end.

Definition shebangFree (contents : string) : bool :=
  negb (hasShebangLine None (chars contents)).

(** The character before what follows [pre]. *)
Fixpoint last_before (p : option ascii) (pre : list ascii) : option ascii :=
  match pre with
  | [] => p
  | c :: pre' => last_before (Some c) pre'
  end.

Definition noHash (s : list ascii) : bool :=
  forallb (fun c => negb (Char.eqb c "#")) s.

Definition startsWithWord (s : string) : bool :=
  match chars s with
  | c :: _ => Char.is_word c
  | [] => false
  end.

(** A file named [item] lies in the tree of [entries], in the folder that
    the names [dirs] lead to. *)
Fixpoint inTree (dirs : list string) (item : string) (entries : list Entry) : Prop :=
  match dirs with
  | [] => In (FileEntry item) entries
  | d :: dirs' =>
      exists children, In (DirEntry d children) entries /\ inTree dirs' item children
  end.

(** A character of a pattern that stands for itself, or one of the
    characters [( ) | . ^ $]: a pattern of such characters has no escape, no
    class, no quantifier and no group that opens with [(?]. *)
Definition simpleCharacter (c : ascii) : bool :=
  plain c || existsb (Char.eqb c) (chars "()|.^$").

Definition simplePattern (s : string) : bool := forallb simpleCharacter (chars s).

(** The number of parentheses that are open after a text which starts with
    [d] of them open; [None] when a closing parenthesis has none to close. *)
Fixpoint openAfter (d : nat) (s : list ascii) : option nat :=
  match s with
  | [] => Some d
  | c :: s' =>
      if Char.eqb c "(" then openAfter (S d) s'
      else if Char.eqb c ")" then
        match d with 0 => None | S d' => openAfter d' s' end
      else openAfter d s'
  end.

Definition parenthesesMatch (s : string) : bool :=
  match openAfter 0 (chars s) with Some 0 => true | _ => false end.

(** A text that closes each parenthesis it opens, and no other. *)
Definition closed (u : list ascii) : Prop := forall d, openAfter d u = Some d.

(** ** More sample disks, rules and runs *)
Module Sample.

(** A disk where [/proj/esm/b] stands for the file [/proj/esm/b.mjs]. *)
Definition b_mjs : AbsPathInfo := {| path := "/proj/esm/b.mjs"; isFile := true |}.
Definition b_is_a_file (p : string) : option AbsPathInfo :=
  if String.eqb p "/proj/esm/b" then Some b_mjs else None.

(** A disk where every path is a file of that very name. *)
Definition all_files (p : string) : option AbsPathInfo :=
  Some {| path := p; isFile := true |}.

(** A rule whose name has a dot in it, and one whose name is no pattern. *)
Definition dotted : TransformerOptions :=
  {| extension_ignore := [];
     modules := [ {| name := "a.b"; find := None; rule_path := "c" |} ] |}.
Definition unreadable : TransformerOptions :=
  {| extension_ignore := [];
     modules := [ {| name := "("; find := None; rule_path := "c" |} ] |}.

Definition utils : TransformerOptions :=
  {| extension_ignore := []; modules := [Fixture.utilsRule] |}.

(** A source directory with a folder and a [node_modules]. *)
Definition tree : list Entry :=
  [ FileEntry "A.JS";
    DirEntry "lib" [FileEntry "b.js"; FileEntry "notes.txt"];
    DirEntry "node_modules" [FileEntry "dep.js"] ].
Definition treeFiles : World :=
  Run.onDisk [ ("/proj/src/A.JS", "module.exports = 1;");
               ("/proj/src/lib/b.js", "module.exports = 2;");
               ("/proj/a.js", "module.exports = 3;") ].

(** A directory without a source file. *)
Definition docs : list Entry := [FileEntry "README.md"; DirEntry "img" []].

(** A script whose second line starts with "#!", inside a template. *)
Definition opening : string := "const usage = `".
Definition closing : string := "/bin/sh" +:+ newline +:+ "`;".
Definition template : string := opening +:+ newline +:+ "#!" +:+ closing.
Definition plainScript : string := "main();" +:+ newline.

(** A runner that reports every file as done. *)
Definition runner : string -> list string -> RunnerOptions -> gmap string string ->
    Result Stats * gmap string string :=
  Run.runner "".

(** A runner that rejects for the transformation whose file name is
    [failing]. *)
Definition rejecting (failing : string) (transformation : string) (paths : list string)
    (options : RunnerOptions) (files : gmap string string)
    : Result Stats * gmap string string :=
  if String.eqb (path_basename transformation) failing
  then (Throw (JsError "the transformation cannot be loaded"), files)
  else (Ok Run.good, files).

Definition shebangOptions (expressions : list string) : CJS2ESMOptions :=
  {| output := "/proj/esm"; filesWithShebang := expressions;
     transformer := {| extension_ignore := []; modules := [] |} |}.

(** A manifest, the helpers that read it, and a printer that shows the
    [module] property only. *)
Definition manifest : Json :=
  JObject [("name", JString "demo"); ("main", JString "src/index.js")].
Definition requireManifest (p : string) : Result Json :=
  if String.eqb p "/proj/package.json" then Ok manifest else Throw (IOError p).
Definition index_is_a_file (p : string) : option AbsPathInfo :=
  if String.eqb p "/proj/src/index.js"
  then Some {| path := "/proj/src/index.js"; isFile := true |}
  else None.
Definition lib_is_a_folder (p : string) : option AbsPathInfo :=
  if String.eqb p "/proj/src/index.js"
  then Some {| path := "/proj/src/index.js"; isFile := false |}
  else None.
Definition printed (value : Json) : string :=
  match property "module" value with
  | Some (JString m) => "module: " +:+ m
  | _ => ""
  end.
Definition copiedIndex : list CopiedFile :=
  [ {| from := "/proj/src/index.js"; to := "/proj/esm/index.mjs" |} ].

(** A project whose configuration file is [/proj/.cjs2esm.json]. *)
Definition configFile (names : list string) (directory : string) : option string :=
  Some "/proj/.cjs2esm.json".
Definition noModule (p : string) : Result Json := Throw (IOError p).
Definition withInputString (p : string) : Result Json :=
  Ok (JObject [("input", JString "src")]).
Definition withOutput (p : string) : Result Json :=
  Ok (JObject [("output", JString "/dist"); ("banner", JBool true)]).

End Sample.

(** ** Node paths and the literals, on samples *)

Example path_join_ex1 : path_join ["/proj/esm"; "./b"] = "/proj/esm/b".
Proof. reflexivity. Qed.
Example path_join_ex2 : path_join ["./lib"; "index.mjs"] = "lib/index.mjs".
Proof. reflexivity. Qed.
Example path_join_ex3 : path_join ["../lib/"; "index.js"] = "../lib/index.js".
Proof. reflexivity. Qed.
Example path_join_ex4 : path_join ["/a/b"; "../../../c/"] = "/c/".
Proof. reflexivity. Qed.
Example path_join_ex5 : path_join ["."; "index.mjs"] = "index.mjs".
Proof. reflexivity. Qed.
Example path_join_ex6 : path_join ["a/.."; ""] = ".".
Proof. reflexivity. Qed.
Example path_resolve_ex : path_resolve "/proj" ["node_modules"; "lodash/fp"] = "/proj/node_modules/lodash/fp".
Proof. reflexivity. Qed.
Example path_dirname_ex1 : path_dirname "./lib/b" = "./lib".
Proof. reflexivity. Qed.
Example path_dirname_ex2 : path_dirname "./b" = ".".
Proof. reflexivity. Qed.
Example path_dirname_ex3 : path_dirname "/b" = "/".
Proof. reflexivity. Qed.
Example path_dirname_ex4 : path_dirname "a//b" = "a/".
Proof. reflexivity. Qed.
Example path_basename_ex : path_basename "/proj/esm/lib/index.mjs/" = "index.mjs".
Proof. reflexivity. Qed.
Example path_parse_ex1 : path_parse_ext "/proj/esm/a.JS" = ".JS".
Proof. reflexivity. Qed.
Example path_parse_ex2 : path_parse_ext "/proj/esm/.js" = "".
Proof. reflexivity. Qed.
Example path_parse_ex3 : path_parse_ext "/proj/esm/..js" = ".js".
Proof. reflexivity. Qed.
Example path_parse_ex4 : path_parse_name "/x/transforms/named-export-generation.js" = "named-export-generation".
Proof. reflexivity. Qed.
Example path_parse_ex5 : path_parse_ext "a/.." = "" /\ path_parse_ext "a/..." = ".".
Proof. split; reflexivity. Qed.
Example literal_trailing_slash :
  RegExp.make "\/$" RegExp.no_flags = Some Literal.trailing_slash.
Proof. reflexivity. Qed.
Example literal_leading_word :
  RegExp.make "^\w" RegExp.no_flags = Some Literal.leading_word.
Proof. reflexivity. Qed.
Example literal_js_extension :
  RegExp.make "\.js$" RegExp.flag_i = Some Literal.js_extension.
Proof. reflexivity. Qed.
Example literal_mjs_extension :
  RegExp.make "\.mjs$" RegExp.flag_i = Some Literal.mjs_extension.
Proof. reflexivity. Qed.
Example literal_shebang :
  RegExp.make "^#!.*?$" RegExp.flag_m = Some Literal.shebang.
Proof. reflexivity. Qed.

(** * Properties *)

(** ** Strings and their characters *)

Lemma str_chars (s : string) : str (chars s) = s.
Proof. apply string_of_list_ascii_of_string. Qed.

Lemma chars_str (l : list ascii) : chars (str l) = l.
Proof. apply list_ascii_of_string_of_list_ascii. Qed.

Lemma chars_inj (a b : string) : chars a = chars b -> a = b.
Proof. intros H. rewrite <- (str_chars a), <- (str_chars b). now rewrite H. Qed.

Lemma chars_app (a b : string) : chars (a +:+ b) = chars a ++ chars b.
Proof. induction a as [|c a IH]; simpl; [reflexivity | now rewrite IH]. Qed.

Lemma str_app (a b : list ascii) : str (a ++ b) = str a +:+ str b.
Proof. induction a as [|c a IH]; simpl; [reflexivity | now rewrite IH]. Qed.

Lemma char_eqb_eq (a b : ascii) : Char.eqb a b = true <-> a = b.
Proof. apply Ascii.eqb_eq. Qed.

Lemma char_eqb_refl (a : ascii) : Char.eqb a a = true.
Proof. apply Ascii.eqb_refl. Qed.

Lemma starts_with_app (p s : list ascii) : Js.starts_with p (p ++ s) = true.
Proof. induction p as [|c p IH]; simpl; [reflexivity | now rewrite char_eqb_refl]. Qed.

Lemma starts_with_inv (p s : list ascii) :
  Js.starts_with p s = true -> exists t, s = p ++ t.
Proof.
  revert s. induction p as [|c p IH]; intros s H; simpl in H.
  - now exists s.
  - destruct s as [|d s]; [discriminate |].
    apply andb_true_iff in H as [Hc Hp]. apply char_eqb_eq in Hc. subst d.
    destruct (IH _ Hp) as [t ->]. now exists t.
Qed.

Lemma startsWith_app (p s : string) : startsWith (p +:+ s) p = true.
Proof. unfold startsWith. rewrite chars_app. apply starts_with_app. Qed.

Lemma startsWith_inv (s p : string) :
  startsWith s p = true -> exists t, s = p +:+ t.
Proof.
  unfold startsWith. intros H. apply starts_with_inv in H as [t Ht].
  exists (str t). apply chars_inj. now rewrite chars_app, chars_str.
Qed.

(** ** The pattern [/\/$/] removes one trailing slash *)

Lemma drop_slash_snoc (s : list ascii) : drop_slash (s ++ ["/"%char]) = s.
Proof.
  induction s as [|c s IH]; [reflexivity |].
  simpl. destruct (s ++ ["/"%char]) eqn:E.
  - destruct s; discriminate.
  - now rewrite IH.
Qed.

Lemma rev_cons_nonempty {A} (a : A) (l : list A) : rev (a :: l) <> [].
Proof. simpl. destruct (rev l); discriminate. Qed.

Lemma search_unfold (x : RegExp.t) (p : option ascii) (seen s : list ascii) :
  RegExp.search x p seen s =
    match RegExp.attempt x p s with
    | Some st' =>
        Some {| RegExp.before := rev seen;
                RegExp.matched := firstn (length s - length (RegExp.rest st')) s;
                RegExp.after := RegExp.rest st';
                RegExp.captures := RegExp.caps st' |}
    | None =>
        match s with
        | [] => None
        | c :: s' => RegExp.search x (Some c) (c :: seen) s'
        end
    end.
Proof. destruct s; reflexivity. Qed.

Lemma attempt_trailing_slash (p : option ascii) (s : list ascii) :
  RegExp.attempt Literal.trailing_slash p s =
    match s with
    | [c] =>
        if Path.is_slash c
        then Some {| RegExp.prev := Some c; RegExp.rest := []; RegExp.caps := [] |}
        else None
    | _ => None
    end.
Proof.
  unfold RegExp.attempt. cbn.
  unfold RegExp.step, RegExp.guard, RegExp.at_line_end, Path.is_slash, Path.slash. cbn.
  destruct s as [|c [|d s]]; try reflexivity.
  now destruct (Char.eqb c "/").
Qed.

Lemma search_trailing_slash (p : option ascii) (seen s : list ascii) :
  RegExp.search Literal.trailing_slash p seen s =
    match rev s with
    | c :: r =>
        if Path.is_slash c
        then Some {| RegExp.before := rev seen ++ rev r; RegExp.matched := [c];
                     RegExp.after := []; RegExp.captures := [] |}
        else None
    | [] => None
    end.
Proof.
  revert p seen. induction s as [|c s IH]; intros p seen; [reflexivity |].
  rewrite search_unfold, attempt_trailing_slash.
  destruct s as [|d s].
  - cbn. destruct (Path.is_slash c); cbn; [| reflexivity].
    now rewrite app_nil_r.
  - rewrite IH.
    change (rev (c :: d :: s)) with (rev (d :: s) ++ [c]).
    destruct (rev (d :: s)) as [|e r] eqn:Er.
    + now apply rev_cons_nonempty in Er.
    + cbn. destruct (Path.is_slash e); [| reflexivity].
      rewrite rev_app_distr. cbn. now rewrite <- app_assoc.
Qed.

Lemma drop_slash_rev (s : list ascii) :
  drop_slash s =
    match rev s with
    | c :: r => if Path.is_slash c then rev r else s
    | [] => s
    end.
Proof.
  induction s as [|c s IH]; [reflexivity |].
  destruct s as [|d s].
  - cbn. now destruct (Path.is_slash c).
  - change (drop_slash (c :: d :: s)) with (c :: drop_slash (d :: s)).
    rewrite IH. change (rev (c :: d :: s)) with (rev (d :: s) ++ [c]).
    destruct (rev (d :: s)) as [|e r] eqn:Er.
    + now apply rev_cons_nonempty in Er.
    + cbn. destruct (Path.is_slash e); [| reflexivity].
      now rewrite rev_app_distr.
Qed.

Lemma replace_trailing_slash (s : string) :
  replace s Literal.trailing_slash "" = dropTrailingSlash s.
Proof.
  unfold replace, dropTrailingSlash, RegExp.replace, RegExp.exec. f_equal.
  rewrite search_trailing_slash, drop_slash_rev.
  destruct (rev (chars s)) as [|c r]; [reflexivity |].
  destruct (Path.is_slash c); [| reflexivity].
  cbn. now rewrite app_nil_r.
Qed.

(** ** Paths: the base name of a joined path *)

Lemma split_no_slash (n : list ascii) :
  forallb Path.not_slash n = true -> Js.split Path.slash n = [n].
Proof.
  induction n as [|c n IH]; intros H; [reflexivity |].
  simpl in H. apply andb_true_iff in H as [Hc Hn].
  simpl. unfold Path.not_slash, Path.is_slash in Hc.
  apply negb_true_iff in Hc. rewrite Hc, (IH Hn). reflexivity.
Qed.

Lemma split_nonempty (s : list ascii) : Js.split Path.slash s <> [].
Proof.
  destruct s as [|c s]; simpl; [discriminate |].
  destruct (Char.eqb c Path.slash); [discriminate |].
  destruct (Js.split Path.slash s); discriminate.
Qed.

Lemma split_snoc (p n : list ascii) :
  forallb Path.not_slash n = true ->
  Js.split Path.slash (p ++ Path.slash :: n) = Js.split Path.slash p ++ [n].
Proof.
  intros Hn. induction p as [|c p IH].
  - simpl. now rewrite (split_no_slash _ Hn).
  - simpl. rewrite IH. destruct (Char.eqb c Path.slash); [reflexivity |].
    pose proof (split_nonempty p) as Hne.
    destruct (Js.split Path.slash p); [contradiction | reflexivity].
Qed.

Lemma seg_eqb_false (a b : list ascii) : a <> b -> Path.seg_eqb a b = false.
Proof. intros H. unfold Path.seg_eqb. now destruct (List.list_eq_dec ascii_dec a b). Qed.

Lemma normalize_step_regular (above : bool) (kept : list (list ascii)) (n : list ascii) :
  regular_segment n -> Path.normalize_step above kept n = n :: kept.
Proof.
  intros (H0 & _ & H1 & H2). unfold Path.normalize_step.
  now rewrite !seg_eqb_false.
Qed.

Lemma join_snoc (l : list (list ascii)) (n : list ascii) :
  Js.join [Path.slash] (l ++ [n]) =
    match l with
    | [] => n
    | _ => Js.join [Path.slash] l ++ Path.slash :: n
    end.
Proof.
  induction l as [|a l IH]; [reflexivity |].
  destruct l as [|b l]; [reflexivity |].
  change (Js.join [Path.slash] ((a :: b :: l) ++ [n]))
    with (a ++ [Path.slash] ++ Js.join [Path.slash] ((b :: l) ++ [n])).
  rewrite IH.
  change (Js.join [Path.slash] (a :: b :: l))
    with (a ++ [Path.slash] ++ Js.join [Path.slash] (b :: l)).
  now rewrite <- !app_assoc.
Qed.

(** A path whose last segment is regular normalises to a path that ends with
    that segment, after nothing or after a slash. *)
Lemma normalize_ends_with (q pre : list ascii) (n : list ascii) :
  regular_segment n ->
  q = n \/ q = pre ++ Path.slash :: n ->
  Path.normalize q = n \/ exists x, Path.normalize q = x ++ Path.slash :: n.
Proof.
  intros Hreg Hq.
  assert (Hsplit : exists segs, Js.split Path.slash q = segs ++ [n]).
  { destruct Hreg as (_ & Hns & _). destruct Hq as [-> | ->].
    - exists []. now apply split_no_slash.
    - eexists. now apply split_snoc. }
  assert (Hend : Path.ends_with_slash q = false).
  { destruct Hreg as (Hne & Hns & _). unfold Path.ends_with_slash.
    assert (Hrev : exists c r, rev q = c :: r /\ Path.not_slash c = true).
    { destruct (rev n) as [|c r] eqn:Er.
      - apply (f_equal (@rev ascii)) in Er. rewrite rev_involutive in Er. contradiction.
      - assert (Hc : Path.not_slash c = true).
        { rewrite forallb_forall in Hns. apply Hns. apply in_rev. rewrite Er. now left. }
        destruct Hq as [-> | ->].
        + now exists c, r.
        + exists c, (r ++ rev (pre ++ [Path.slash])).
          split; [| exact Hc].
          change (pre ++ Path.slash :: n) with (pre ++ [Path.slash] ++ n).
          rewrite app_assoc, rev_app_distr, Er. reflexivity. }
    destruct Hrev as (c & r & -> & Hc). unfold Path.not_slash in Hc.
    now apply negb_true_iff in Hc. }
  assert (Hq0 : q <> []).
  { destruct Hreg as (Hne & _). destruct Hq as [-> | ->]; [exact Hne |].
    destruct pre; discriminate. }
  destruct Hsplit as [segs Hsegs].
  unfold Path.normalize. destruct q as [|c0 q']; [contradiction |].
  set (q := c0 :: q') in *.
  unfold Path.normalize_string. rewrite Hsegs, fold_left_app. cbn [fold_left].
  rewrite (normalize_step_regular _ _ _ Hreg). cbn [rev]. rewrite join_snoc, Hend.
  set (kept := rev (fold_left _ segs [])).
  destruct kept as [|k kept'] eqn:Ek.
  - destruct n as [|n0 n']; [now destruct Hreg |].
    destruct (Path.is_absolute q).
    + right. exists []. now rewrite app_nil_r.
    + left. now rewrite app_nil_r.
  - set (body := Js.join [Path.slash] (k :: kept')).
    destruct (body ++ Path.slash :: n) eqn:Eb; [now destruct body |].
    rewrite <- Eb. right.
    destruct (Path.is_absolute q).
    + exists (Path.slash :: body). now rewrite app_nil_r.
    + exists body. now rewrite app_nil_r.
Qed.

Lemma drop_while_head (f : ascii -> bool) (c : ascii) (s : list ascii) :
  f c = false -> Path.drop_while f (c :: s) = c :: s.
Proof. intros H. simpl. now rewrite H. Qed.

Lemma take_while_app_stop (f : ascii -> bool) (a b : list ascii) :
  forallb f a = true ->
  match b with [] => True | c :: _ => f c = false end ->
  Path.take_while f (a ++ b) = a.
Proof.
  intros Ha Hb. induction a as [|c a IH].
  - destruct b as [|c b]; [reflexivity |]. simpl. now rewrite Hb.
  - simpl in Ha. apply andb_true_iff in Ha as [Hc Ha].
    simpl. rewrite Hc. now rewrite (IH Ha).
Qed.

Lemma forallb_rev {A} (f : A -> bool) (l : list A) :
  forallb f (rev l) = forallb f l.
Proof.
  induction l as [|a l IH]; [reflexivity |].
  simpl. rewrite forallb_app, IH. simpl. rewrite andb_true_r. apply andb_comm.
Qed.

Lemma basename_after_slash (x n : list ascii) :
  n <> [] -> forallb Path.not_slash n = true ->
  Path.basename (x ++ Path.slash :: n) = n /\ Path.basename n = n.
Proof.
  intros Hne Hns. unfold Path.basename.
  assert (Hrev : forallb Path.not_slash (rev n) = true) by now rewrite forallb_rev.
  destruct (rev n) as [|c r] eqn:Er.
  { apply (f_equal (@rev ascii)) in Er. rewrite rev_involutive in Er. contradiction. }
  assert (Hc : Path.is_slash c = false).
  { simpl in Hrev. apply andb_true_iff in Hrev as [Hc _].
    unfold Path.not_slash in Hc. now apply negb_true_iff in Hc. }
  split.
  - change (x ++ Path.slash :: n) with (x ++ [Path.slash] ++ n).
    rewrite app_assoc, rev_app_distr, Er.
    cbn [app]. rewrite (drop_while_head _ _ _ Hc).
    change (c :: r ++ rev (x ++ [Path.slash])) with ((c :: r) ++ rev (x ++ [Path.slash])).
    rewrite take_while_app_stop.
    + rewrite <- Er. apply rev_involutive.
    + exact Hrev.
    + rewrite rev_app_distr. reflexivity.
  - rewrite (drop_while_head _ _ _ Hc).
    rewrite <- (app_nil_r (c :: r)), take_while_app_stop; [| exact Hrev | exact I].
    rewrite <- Er. apply rev_involutive.
Qed.

Lemma basename_join (directory name : string) :
  regular_segment (chars name) ->
  path_basename (path_join [directory; name]) = name.
Proof.
  intros Hreg. unfold path_basename, path_join. rewrite chars_str.
  assert (Hne : chars name <> []) by apply Hreg.
  assert (Hns : forallb Path.not_slash (chars name) = true) by apply Hreg.
  assert (H : Path.join (map chars [directory; name]) = chars name
              \/ exists x, Path.join (map chars [directory; name])
                           = x ++ Path.slash :: chars name).
  { unfold Path.join. cbn [map filter].
    destruct (chars directory) as [|d ds] eqn:Ed;
      destruct (chars name) as [|c cs] eqn:En; try contradiction; cbn [Path.nonempty].
    - apply (normalize_ends_with _ []); [exact Hreg | now left].
    - apply (normalize_ends_with _ (d :: ds)); [exact Hreg | right].
      reflexivity. }
  destruct H as [-> | [x ->]].
  - rewrite (proj2 (basename_after_slash [] _ Hne Hns)). apply str_chars.
  - rewrite (proj1 (basename_after_slash x _ Hne Hns)). apply str_chars.
Qed.

Lemma regular_index_mjs : regular_segment (chars "index.mjs").
Proof. repeat split; discriminate. Qed.

Lemma regular_index_js : regular_segment (chars "index.js").
Proof. repeat split; discriminate. Qed.

(** [path.join] never returns the empty string. *)
Lemma normalize_nonempty (q : list ascii) : Path.normalize q <> [].
Proof.
  unfold Path.normalize. destruct q as [|c q]; [discriminate |].
  destruct (Path.normalize_string (c :: q) _) as [|b body].
  - destruct (Path.is_absolute _); [discriminate |].
    destruct (Path.ends_with_slash _); discriminate.
  - destruct (Path.is_absolute _); discriminate.
Qed.

Lemma path_join_nonempty (parts : list string) : path_join parts <> "".
Proof.
  unfold path_join, Path.join. intros H.
  apply (f_equal chars) in H. rewrite chars_str in H. cbn in H.
  destruct (filter Path.nonempty (map chars parts)); [discriminate |].
  now apply normalize_nonempty in H.
Qed.

(** *** A joined path does not start with "./" *)

Lemma split_segments (s : list ascii) :
  Forall (fun seg => forallb Path.not_slash seg = true) (Js.split Path.slash s).
Proof.
  induction s as [|c s IH]; [repeat constructor |].
  simpl. destruct (Char.eqb c Path.slash) eqn:E.
  - now constructor.
  - destruct (Js.split Path.slash s) as [|seg segs].
    + repeat constructor. unfold Path.not_slash, Path.is_slash. simpl. now rewrite E.
    + apply Forall_cons in IH as [Hseg Hsegs]. constructor; [| exact Hsegs].
      simpl. unfold Path.not_slash at 1, Path.is_slash. now rewrite E.
Qed.

Lemma seg_eqb_true (a b : list ascii) : Path.seg_eqb a b = true -> a = b.
Proof. unfold Path.seg_eqb. now destruct (List.list_eq_dec ascii_dec a b). Qed.

Lemma seg_eqb_neq (a b : list ascii) : Path.seg_eqb a b = false -> a <> b.
Proof. unfold Path.seg_eqb. now destruct (List.list_eq_dec ascii_dec a b). Qed.

Lemma normalize_step_kept (above : bool) (kept : list (list ascii)) (seg : list ascii) :
  Forall kept_segment kept -> forallb Path.not_slash seg = true ->
  Forall kept_segment (Path.normalize_step above kept seg).
Proof.
  intros Hkept Hseg. unfold Path.normalize_step.
  destruct (Path.seg_eqb seg []) eqn:E0; [exact Hkept |].
  destruct (Path.seg_eqb seg [Path.dot]) eqn:E1; [exact Hkept |].
  assert (Hk : kept_segment seg).
  { repeat split; [now apply seg_eqb_neq | now apply seg_eqb_neq | exact Hseg]. }
  cbn [orb]. destruct (Path.seg_eqb seg [Path.dot; Path.dot]).
  - destruct kept as [|top below].
    + destruct above; [apply Forall_cons; split; [exact Hk | apply Forall_nil_2] |
                       apply Forall_nil_2].
    + destruct (Path.seg_eqb top [Path.dot; Path.dot]).
      * destruct above; [apply Forall_cons; split; [exact Hk | exact Hkept] | exact Hkept].
      * now apply Forall_cons in Hkept as [_ Hbelow].
  - apply Forall_cons. split; [exact Hk | exact Hkept].
Qed.

Lemma normalize_fold_kept (above : bool) (segs kept : list (list ascii)) :
  Forall kept_segment kept ->
  Forall (fun seg => forallb Path.not_slash seg = true) segs ->
  Forall kept_segment (fold_left (Path.normalize_step above) segs kept).
Proof.
  revert kept. induction segs as [|seg segs IH]; intros kept Hkept Hsegs; [exact Hkept |].
  apply Forall_cons in Hsegs as [Hseg Hsegs]. cbn [fold_left].
  apply IH; [| exact Hsegs]. now apply normalize_step_kept.
Qed.

Lemma join_kept_not_marked (segs : list (list ascii)) (t : list ascii) :
  segs <> [] -> Forall kept_segment segs ->
  Js.starts_with [Path.dot; Path.slash] (Js.join [Path.slash] segs ++ t) = false.
Proof.
  intros Hne Hsegs. destruct segs as [|[|c s1] rest]; [contradiction | |].
  - apply Forall_cons in Hsegs as [(H & _) _]. contradiction.
  - apply Forall_cons in Hsegs as [(_ & Hdot & Hns) _].
    assert (Hjoin : exists y, Js.join [Path.slash] ((c :: s1) :: rest) = c :: s1 ++ y).
    { destruct rest as [|r rest]; [exists []; cbn; now rewrite app_nil_r |].
      eexists. cbn [Js.join]. rewrite <- app_comm_cons. reflexivity. }
    destruct Hjoin as [y ->]. cbn [app Js.starts_with].
    destruct (Char.eqb Path.dot c) eqn:Ec; [| reflexivity].
    apply char_eqb_eq in Ec. subst c. cbn [andb].
    destruct s1 as [|d s1]; [contradiction |].
    simpl in Hns. apply andb_true_iff in Hns as [Hd _].
    unfold Path.not_slash, Path.is_slash in Hd. apply negb_true_iff in Hd.
    cbn [app Js.starts_with]. unfold Char.eqb in *.
    rewrite Ascii.eqb_sym, Hd. reflexivity.
Qed.

Lemma normalize_not_marked (q pre n : list ascii) :
  regular_segment n ->
  q = n \/ q = pre ++ Path.slash :: n ->
  Js.starts_with [Path.dot; Path.slash] (Path.normalize q) = false.
Proof.
  intros Hreg Hq.
  assert (Hsplit : exists segs, Js.split Path.slash q = segs ++ [n]).
  { destruct Hreg as (_ & Hns & _). destruct Hq as [-> | ->].
    - exists []. now apply split_no_slash.
    - eexists. now apply split_snoc. }
  assert (Hq0 : q <> []).
  { destruct Hreg as (Hne & _). destruct Hq as [-> | ->]; [exact Hne |].
    destruct pre; discriminate. }
  destruct Hsplit as [segs Hsegs].
  unfold Path.normalize. destruct q as [|c0 q']; [contradiction |].
  set (q := c0 :: q') in *.
  unfold Path.normalize_string.
  set (kept := fold_left _ (Js.split Path.slash q) []).
  assert (Hkept : Forall kept_segment kept).
  { apply normalize_fold_kept; [constructor | apply split_segments]. }
  assert (Hne : rev kept <> []).
  { unfold kept. rewrite Hsegs, fold_left_app. cbn [fold_left].
    rewrite (normalize_step_regular _ _ _ Hreg). apply rev_cons_nonempty. }
  assert (Hrev : Forall kept_segment (rev kept)).
  { apply Forall_forall. intros x Hx. rewrite Forall_forall in Hkept.
    apply Hkept. apply list_elem_of_In. apply in_rev. now apply list_elem_of_In. }
  destruct (Js.join [Path.slash] (rev kept)) as [|b body] eqn:Eb.
  - pose proof (join_kept_not_marked (rev kept) [Path.dot; Path.slash] Hne Hrev) as H.
    rewrite Eb in H. discriminate.
  - destruct (Path.is_absolute q); [reflexivity |].
    rewrite <- Eb. cbn [app]. now apply join_kept_not_marked.
Qed.

Lemma path_join_not_marked (directory name : string) :
  regular_segment (chars name) ->
  startsWith (path_join [directory; name]) "./" = false.
Proof.
  intros Hreg. unfold startsWith, path_join. rewrite chars_str.
  assert (Hne : chars name <> []) by apply Hreg.
  unfold Path.join. cbn [map filter].
  destruct (chars directory) as [|d ds] eqn:Ed;
    destruct (chars name) as [|c cs] eqn:En; try contradiction; cbn [Path.nonempty].
  - apply (normalize_not_marked _ [] (c :: cs)); [exact Hreg | now left].
  - apply (normalize_not_marked _ (d :: ds) (c :: cs)); [exact Hreg | right].
    reflexivity.
Qed.

(** ** The resolver: [updatePath] *)

Lemma drop_slash_nil (l : list ascii) :
  drop_slash l = [] -> l = [] \/ l = [Path.slash].
Proof.
  destruct l as [|c [|d l]]; cbn; intros H.
  - now left.
  - right. unfold Path.is_slash in H. destruct (Char.eqb c Path.slash) eqn:E; [| discriminate].
    apply char_eqb_eq in E. now subst c.
  - discriminate.
Qed.

Lemma dropTrailingSlash_empty (s : string) :
  dropTrailingSlash s = "" -> s = "" \/ s = "/".
Proof.
  unfold dropTrailingSlash. intros H.
  apply (f_equal chars) in H. rewrite chars_str in H.
  apply drop_slash_nil in H as [H | H]; [left | right]; now apply chars_inj.
Qed.

(** What [dropTrailingSlash] is: a final slash goes, anything else stays. *)
Lemma dropTrailingSlash_slash (s : string) : dropTrailingSlash (s +:+ "/") = s.
Proof.
  unfold dropTrailingSlash. rewrite chars_app.
  change (chars "/") with ["/"%char]. rewrite drop_slash_snoc. apply str_chars.
Qed.

Lemma dropTrailingSlash_other (s : string) :
  Path.ends_with_slash (chars s) = false -> dropTrailingSlash s = s.
Proof.
  unfold dropTrailingSlash, Path.ends_with_slash. intros H.
  rewrite drop_slash_rev. destruct (rev (chars s)) as [|c r]; [apply str_chars |].
  rewrite H. apply str_chars.
Qed.

Lemma dropTrailingSlash_keeps_marker (t : string) :
  t <> "" -> startsWith (dropTrailingSlash ("./" +:+ t)) "./" = true.
Proof.
  intros Ht. unfold startsWith, dropTrailingSlash. rewrite chars_str, chars_app.
  destruct (chars t) as [|c l] eqn:E.
  - exfalso. apply Ht. apply chars_inj. now rewrite E.
  - reflexivity.
Qed.

Lemma string_eqb_dot (s : string) : String.eqb s "." = false -> s <> ".".
Proof. intros H E. subst s. discriminate. Qed.

Lemma hotfix_marked (importPath replacement : string) :
  startsWith replacement "./" = true -> hotfix importPath replacement = replacement.
Proof. intros H. unfold hotfix. rewrite H. now rewrite andb_false_r. Qed.

Lemma hotfix_unmarked (importPath replacement : string) :
  String.eqb importPath "." = false -> startsWith importPath "./" = false ->
  hotfix importPath replacement = replacement.
Proof. intros H1 H2. unfold hotfix. now rewrite H1, H2. Qed.

(** Left alone, a specifier only changes when it is ".". *)
Lemma hotfix_same (importPath : string) :
  hotfix importPath importPath = if String.eqb importPath "." then "./." else importPath.
Proof.
  unfold hotfix. destruct (String.eqb importPath ".") eqn:E.
  - apply String.eqb_eq in E. now subst.
  - destruct (startsWith importPath "./"); reflexivity.
Qed.

Section ResolverFacts.

Variable cwd : string.
Variable pathExistsSync : string -> bool.
Variable getAbsPathInfoSync : string -> option AbsPathInfo.
Variable findFileSync : list string -> string -> option string.

Local Abbreviation resolver :=
  (updatePath cwd pathExistsSync getAbsPathInfoSync findFileSync).
Local Abbreviation replacement :=
  (replacementOf cwd pathExistsSync getAbsPathInfoSync findFileSync).


(** C9.  A specifier that is "." or starts with "./" is rewritten to a
    string that starts with "./": the replacement itself when it still has
    the marker, the replacement with "./" put in front when joining the
    paths took it away. *)
Theorem relative_marker_kept (importPath base : string) :
  importPath = "." \/ startsWith importPath "./" = true ->
  startsWith (resolver importPath base) "./" = true
  /\ (startsWith (replacement importPath base) "./" = true ->
      resolver importPath base = replacement importPath base)
  /\ (startsWith (replacement importPath base) "./" = false ->
      resolver importPath base = "./" +:+ replacement importPath base).
Proof.
  intros H. unfold updatePath, hotfix.
  assert (Hm : String.eqb importPath "." || startsWith importPath "./" = true).
  { destruct H as [-> | ->]; [reflexivity | apply orb_true_r]. }
  rewrite Hm. cbn [andb].
  destruct (startsWith (replacement importPath base) "./") eqn:E; cbn [negb].
  - split; [exact E | split; [reflexivity | discriminate]].
  - split; [apply startsWith_app | split; [discriminate | reflexivity]].
Qed.

(** C4, as amended.  For a specifier that resolves to a directory holding a
    [package.json], the resolver returns the specifier without its final
    slash: unchanged when it has none.  (The specifiers ".", "./" and "/"
    are set apart.) *)
Theorem folder_with_manifest (importPath base : string) (info : AbsPathInfo) :
  getAbsPathInfoSync (absPathOf cwd importPath base) = Some info ->
  isFile info = false ->
  pathExistsSync (path_join [absPathOf cwd importPath base; "package.json"]) = true ->
  importPath <> "." -> importPath <> "./" -> importPath <> "/" ->
  resolver importPath base = dropTrailingSlash importPath.
Proof.
  intros Hinfo Hdir Hpkg Hdot Hdotslash Hslash.
  unfold updatePath, replacementOf, createReplacementForFolder.
  rewrite Hinfo, Hdir, Hpkg, replace_trailing_slash.
  assert (Hor : or_string (Some (dropTrailingSlash importPath)) importPath
                = dropTrailingSlash importPath).
  { destruct (dropTrailingSlash importPath) as [|c d] eqn:E; [| reflexivity].
    apply dropTrailingSlash_empty in E as [-> | ->]; [reflexivity | contradiction]. }
  rewrite Hor.
  destruct (startsWith importPath "./") eqn:Es.
  - apply hotfix_marked. apply startsWith_inv in Es as [t ->].
    apply dropTrailingSlash_keeps_marker. intros ->. now apply Hdotslash.
  - apply hotfix_unmarked; [| exact Es].
    destruct (String.eqb importPath ".") eqn:E; [| reflexivity].
    apply String.eqb_eq in E. contradiction.
Qed.

(** The three specifiers set apart in [folder_with_manifest]. *)
Lemma folder_with_manifest_dot (importPath base : string) (info : AbsPathInfo) :
  getAbsPathInfoSync (absPathOf cwd importPath base) = Some info ->
  isFile info = false ->
  pathExistsSync (path_join [absPathOf cwd importPath base; "package.json"]) = true ->
  (importPath = "." \/ importPath = "./" -> resolver importPath base = "./.")
  /\ (importPath = "/" -> resolver importPath base = "/").
Proof.
  intros Hinfo Hdir Hpkg.
  unfold updatePath, replacementOf, createReplacementForFolder.
  rewrite Hinfo, Hdir, Hpkg, replace_trailing_slash.
  split; [intros [-> | ->] | intros ->]; reflexivity.
Qed.

End ResolverFacts.

(** Where the hotfix has something to do, it puts "./" in front. *)
Lemma hotfix_join (importPath directory name : string) :
  regular_segment (chars name) ->
  hotfix importPath (path_join [directory; name]) =
    (if marked importPath then "./" else "") +:+ path_join [directory; name].
Proof.
  intros Hreg. unfold hotfix, marked.
  rewrite (path_join_not_marked _ _ Hreg). cbn [negb]. rewrite andb_true_r.
  now destruct (String.eqb importPath "." || startsWith importPath "./").
Qed.

(** A specifier that resolves to a directory without a [package.json]: the
    resolver looks for [index.mjs] first and [index.js] second, and joins
    the name of the one it finds to the specifier with [path.join], putting
    "./" back in front when the specifier is "." or starts with "./"; when
    neither exists the replacement is the specifier itself, and the hotfix
    at the end still runs on it. *)
Lemma folder_without_manifest
    (cwd : string) (pathExistsSync : string -> bool)
    (getAbsPathInfoSync : string -> option AbsPathInfo)
    (importPath base : string) (info : AbsPathInfo) :
  let absPath := absPathOf cwd importPath base in
  getAbsPathInfoSync absPath = Some info ->
  isFile info = false ->
  pathExistsSync (path_join [absPath; "package.json"]) = false ->
  updatePath cwd pathExistsSync getAbsPathInfoSync
      (findFileSync_model pathExistsSync) importPath base =
    if pathExistsSync (path_join [absPath; "index.mjs"])
    then (if marked importPath then "./" else "") +:+ path_join [importPath; "index.mjs"]
    else if pathExistsSync (path_join [absPath; "index.js"])
    then (if marked importPath then "./" else "") +:+ path_join [importPath; "index.js"]
    else if String.eqb importPath "." then "./." else importPath.
Proof.
  intros absPath Hinfo Hdir Hpkg.
  unfold updatePath, replacementOf, createReplacementForFolder.
  fold absPath. rewrite Hinfo, Hdir, Hpkg.
  unfold findFileSync_model. cbn [map List.find].
  assert (Hor : forall n, or_string (Some (path_join [importPath; n])) importPath
                          = path_join [importPath; n]).
  { intros n. pose proof (path_join_nonempty [importPath; n]) as Hne.
    now destruct (path_join [importPath; n]). }
  destruct (pathExistsSync (path_join [absPath; "index.mjs"])).
  - rewrite (basename_join _ _ regular_index_mjs), Hor.
    apply hotfix_join, regular_index_mjs.
  - destruct (pathExistsSync (path_join [absPath; "index.js"])).
    + rewrite (basename_join _ _ regular_index_js), Hor.
      apply hotfix_join, regular_index_js.
    + apply hotfix_same.
Qed.

(** ** The shebang pattern [/^#!.*?$/m] *)

Lemma at_line_end_here (p : option ascii) (s : list ascii) :
  line_ends_at s ->
  RegExp.at_line_end RegExp.flag_m
    {| RegExp.prev := p; RegExp.rest := s; RegExp.caps := [] |} = true.
Proof. destruct s as [|c s]; [reflexivity |]. cbn. now intros ->. Qed.

(** The lazy loop of [.*?] followed by [$] stops at the end of the line. *)
Lemma lazy_any_to_line_end (l s : list ascii) :
  no_line_terminator l -> line_ends_at s ->
  forall (n : nat) (p : option ascii),
    length l < n ->
    exists p',
      RegExp.repeat (RegExp.m RegExp.flag_m RegExp.Any) [] false
        (fun st => RegExp.m RegExp.flag_m RegExp.Eol st Some) n 0 None
        {| RegExp.prev := p; RegExp.rest := l ++ s; RegExp.caps := [] |}
      = Some {| RegExp.prev := p'; RegExp.rest := s; RegExp.caps := [] |}.
Proof.
  intros Hl Hs. induction l as [|c l IH]; intros n p Hn.
  - destruct n as [|n]; [lia |]. exists p.
    cbn [RegExp.repeat RegExp.m app RegExp.is_zero Nat.eqb negb].
    unfold RegExp.guard. now rewrite at_line_end_here.
  - destruct n as [|n]; [simpl in Hn; lia |].
    unfold no_line_terminator in Hl. simpl in Hl.
    apply andb_true_iff in Hl as [Hc Hl].
    destruct (IH Hl n (Some c)) as [p' Hp']; [simpl in Hn; lia |].
    exists p'.
    cbn [RegExp.repeat RegExp.m app RegExp.is_zero Nat.eqb negb].
    unfold RegExp.guard at 1.
    assert (Hend : RegExp.at_line_end RegExp.flag_m
              {| RegExp.prev := p; RegExp.rest := c :: l ++ s; RegExp.caps := [] |} = false).
    { cbn. now apply negb_true_iff in Hc. }
    rewrite Hend. cbn [RegExp.or_else].
    unfold RegExp.step, RegExp.forget. cbn [RegExp.rest RegExp.caps RegExp.prev filter].
    rewrite Hc. unfold RegExp.progressed. cbn [RegExp.rest length].
    assert (Hlt : (length (l ++ s) <? S (length (l ++ s))) = true)
      by (apply Nat.ltb_lt; lia).
    rewrite Hlt. cbn [andb negb pred option_map]. exact Hp'.
Qed.

Lemma firstn_app_exact {A} (a b : list A) (n : nat) :
  n = length a -> firstn n (a ++ b) = a.
Proof.
  intros ->. induction a as [|x a IH]; simpl; [now destruct b | now rewrite IH].
Qed.

(** A text that begins with a shebang line: the pattern finds that line, at
    the very start. *)
Lemma exec_shebang (l s : list ascii) :
  no_line_terminator l -> line_ends_at s ->
  RegExp.exec Literal.shebang ("#"%char :: "!"%char :: l ++ s) =
    Some {| RegExp.before := []; RegExp.matched := "#"%char :: "!"%char :: l;
            RegExp.after := s; RegExp.captures := [] |}.
Proof.
  intros Hl Hs. unfold RegExp.exec. rewrite search_unfold.
  unfold RegExp.attempt.
  cbn [Literal.shebang RegExp.source RegExp.fl RegExp.m].
  unfold RegExp.guard at 1. cbn [RegExp.at_line_start RegExp.prev].
  unfold RegExp.step at 1. cbn [RegExp.rest RegExp.caps].
  cbn [RegExp.canonicalize RegExp.ignoreCase RegExp.flag_m Char.eqb].
  rewrite Ascii.eqb_refl.
  unfold RegExp.step at 1. cbn [RegExp.rest RegExp.caps].
  rewrite Ascii.eqb_refl.
  cbn [RegExp.rest RegExp.groups_in Nat.add].
  destruct (lazy_any_to_line_end l s Hl Hs (S (length (l ++ s))) (Some "!"%char))
    as [p' Hp'].
  { rewrite length_app. lia. }
  match goal with
  | |- match ?x with Some _ => _ | None => _ end = _ =>
      replace x
        with (Some {| RegExp.prev := p'; RegExp.rest := s; RegExp.caps := [] |})
        by (symmetry; exact Hp')
  end.
  cbn [RegExp.rest RegExp.caps rev].
  f_equal. f_equal.
  change ("#"%char :: "!"%char :: l ++ s) with (("#"%char :: "!"%char :: l) ++ s).
  apply firstn_app_exact. rewrite length_app. cbn [length]. lia.
Qed.

(** ** The shebangs: removal and restoration *)

Lemma first_line_split (t : list ascii) : t = first_line t ++ after_first_line t.
Proof.
  induction t as [|c t IH]; [reflexivity |].
  simpl. destruct (Char.is_line_terminator c); [reflexivity |].
  simpl. now rewrite <- IH.
Qed.

Lemma first_line_no_terminator (t : list ascii) : no_line_terminator (first_line t).
Proof.
  unfold no_line_terminator. induction t as [|c t IH]; [reflexivity |].
  simpl. destruct (Char.is_line_terminator c) eqn:E; [reflexivity |].
  simpl. now rewrite E, IH.
Qed.

Lemma after_first_line_ends (t : list ascii) : line_ends_at (after_first_line t).
Proof.
  induction t as [|c t IH]; [exact I |].
  simpl. destruct (Char.is_line_terminator c) eqn:E; [exact E | exact IH].
Qed.

Lemma replace_first_unfold (pat by_ s : list ascii) :
  Js.replace_first pat by_ s =
    if Js.starts_with pat s then by_ ++ skipn (length pat) s
    else match s with
         | [] => []
         | c :: s' => c :: Js.replace_first pat by_ s'
         end.
Proof. destruct s; reflexivity. Qed.

Lemma replace_first_prefix (pat s : list ascii) :
  Js.replace_first pat [] (pat ++ s) = s.
Proof.
  rewrite replace_first_unfold, starts_with_app. cbn [app].
  rewrite skipn_app, skipn_all, Nat.sub_diag. reflexivity.
Qed.

Lemma strip_shebang (t : list ascii) :
  strip (str ("#"%char :: "!"%char :: t)) =
    Some (str ("#"%char :: "!"%char :: first_line t),
          str (Js.trim_left (after_first_line t))).
Proof.
  unfold strip. rewrite chars_str.
  assert (E : "#"%char :: "!"%char :: t
              = "#"%char :: "!"%char :: first_line t ++ after_first_line t)
    by now rewrite <- first_line_split.
  rewrite E.
  rewrite (exec_shebang _ _ (first_line_no_terminator t) (after_first_line_ends t)).
  cbn [RegExp.matched]. do 4 f_equal.
  change ("#"%char :: "!"%char :: first_line t ++ after_first_line t)
    with (("#"%char :: "!"%char :: first_line t) ++ after_first_line t).
  apply replace_first_prefix.
Qed.

Lemma removeShebang_run (file : CopiedFile) (w : World) (contents : string) :
  disk w !! to file = Some contents ->
  removeShebang file w =
    match strip contents with
    | Some (shebang, contents') =>
        (Ok (Some (shebang, file)), with_disk w (<[to file := contents']> (disk w)))
    | None => (Ok None, w)
    end.
Proof.
  intros H. unfold removeShebang, bind, readFile, strip. rewrite H.
  now destruct (RegExp.exec Literal.shebang (chars contents)).
Qed.


Lemma with_disk_same (w : World) : with_disk w (disk w) = w.
Proof. now destruct w. Qed.

Lemma removeShebang_effect (f : CopiedFile) (w : World) (c : string) :
  disk w !! to f = Some c ->
  exists d',
    removeShebang f w = (Ok (item_of (disk w) f), with_disk w d')
    /\ d' !! to f = Some (stripped c)
    /\ (forall p, p <> to f -> d' !! p = disk w !! p).
Proof.
  intros H. rewrite (removeShebang_run f w c H).
  unfold item_of, contents_at, stripped. rewrite H.
  change (default "" (Some c)) with c.
  destruct (strip c) as [[shebang c'] |].
  - exists (<[to f := c']> (disk w)). split; [reflexivity |]. split.
    + apply lookup_insert_eq.
    + intros p Hp. now apply lookup_insert_ne.
  - exists (disk w). rewrite with_disk_same. now repeat split.
Qed.

Lemma traverse_removeShebang (files : list CopiedFile) :
  forall w : World,
    NoDup (to <$> files) ->
    (forall f, f ∈ files -> is_Some (disk w !! to f)) ->
    exists d1,
      traverse removeShebang files w
        = (Ok (item_of (disk w) <$> files), with_disk w d1)
      /\ (forall f c, f ∈ files -> disk w !! to f = Some c ->
          d1 !! to f = Some (stripped c))
      /\ (forall p, p ∉ (to <$> files) -> d1 !! p = disk w !! p).
Proof.
  induction files as [|f fs IH]; intros w Hnd Hall.
  - exists (disk w). rewrite with_disk_same. split; [reflexivity | split].
    + intros f c Hf. now apply elem_of_nil in Hf.
    + reflexivity.
  - rewrite fmap_cons in Hnd. apply NoDup_cons in Hnd as [Hf Hnd].
    destruct (Hall f) as [c Hc]; [apply elem_of_cons; now left |].
    destruct (removeShebang_effect f w c Hc) as (d' & Hrun & Hd'f & Hd').
    assert (Hsame : forall g, g ∈ fs -> d' !! to g = disk w !! to g).
    { intros g Hg. apply Hd'. intros E. apply Hf. rewrite <- E.
      now apply list_elem_of_fmap_2. }
    destruct (IH (with_disk w d') Hnd) as (d1 & Htr & Hd1 & Hrest).
    { intros g Hg. cbn [disk with_disk]. rewrite (Hsame g Hg).
      apply Hall. apply elem_of_cons. now right. }
    exists d1. split; [| split].
    + cbn [traverse]. unfold bind at 1. rewrite Hrun.
      unfold bind at 1. rewrite Htr. cbn [ret with_disk disk runs console].
      rewrite fmap_cons. unfold ret.
      assert (E : item_of d' <$> fs = item_of (disk w) <$> fs).
      { apply list_fmap_ext. intros i g Hg. unfold item_of, contents_at.
        rewrite Hsame; [reflexivity |]. eapply list_elem_of_lookup_2, Hg. }
      now rewrite E.
    + intros g cg Hg Hcg. apply elem_of_cons in Hg as [-> | Hg].
      * rewrite Hrest; [| exact Hf]. cbn [disk with_disk].
        rewrite Hc in Hcg. injection Hcg as <-. exact Hd'f.
      * apply Hd1; [exact Hg |]. cbn [disk with_disk]. now rewrite (Hsame g Hg).
    + intros p Hp. rewrite fmap_cons in Hp. apply not_elem_of_cons in Hp as [Hpf Hp].
      rewrite (Hrest p Hp). cbn [disk with_disk]. now apply Hd'.
Qed.

Lemma dict_set_fresh (d : list (string * string)) (k v : string) :
  k ∉ d.*1 -> dict_set d k v = d ++ [(k, v)].
Proof.
  induction d as [|[k' v'] d IH]; intros H; [reflexivity |].
  rewrite fmap_cons in H. apply not_elem_of_cons in H as [Hk H].
  cbn [dict_set]. destruct (String.eqb k' k) eqn:E.
  - apply String.eqb_eq in E. now subst.
  - cbn [app]. now rewrite (IH H).
Qed.

Lemma entry_of_key (files : gmap string string) (f : CopiedFile) (e : string * string) :
  entry_of files f = Some e -> e.1 = to f.
Proof.
  unfold entry_of. destruct (strip _) as [[shebang c'] |]; [| discriminate].
  now intros [= <-].
Qed.

Lemma omap_entry_keys (files : gmap string string) (fs : list CopiedFile) (k : string) :
  k ∈ (omap (entry_of files) fs).*1 -> k ∈ to <$> fs.
Proof.
  intros H. apply list_elem_of_fmap in H as (e & -> & He).
  apply list_elem_of_omap in He as (f & Hf & He).
  rewrite (entry_of_key _ _ _ He). now apply list_elem_of_fmap_2.
Qed.

Lemma omap_entry_NoDup (files : gmap string string) (fs : list CopiedFile) :
  NoDup (to <$> fs) -> NoDup (omap (entry_of files) fs).*1.
Proof.
  induction fs as [|f fs IH]; intros H; [constructor |].
  rewrite fmap_cons in H. apply NoDup_cons in H as [Hf H].
  cbn [omap list_omap]. destruct (entry_of files f) as [e |] eqn:E; [| now apply IH].
  rewrite fmap_cons. apply NoDup_cons. split; [| now apply IH].
  rewrite (entry_of_key _ _ _ E). intros Hin. apply Hf.
  now apply omap_entry_keys in Hin.
Qed.

(** With distinct destinations the dictionary of [removeShebangs] lists the
    files that had a shebang, in order. *)
Lemma shebang_dictionary (files : gmap string string) (fs : list CopiedFile) :
  forall acc : list (string * string),
    NoDup (acc.*1 ++ (to <$> fs)) ->
    fold_left
      (fun acc item =>
         match item with
         | Some (shebang, file) => dict_set acc (to file) shebang
         | None => acc
         end)
      (item_of files <$> fs) acc
    = acc ++ omap (entry_of files) fs.
Proof.
  induction fs as [|f fs IH]; intros acc H.
  - cbn. now rewrite app_nil_r.
  - rewrite fmap_cons. cbn [fold_left omap list_omap].
    rewrite fmap_cons in H.
    apply NoDup_app in H as (Hacc & Hdisj & Hfs).
    apply NoDup_cons in Hfs as [Hf Hfs].
    destruct (strip (contents_at files f)) as [[shebang c'] |] eqn:E.
    + assert (Hi : item_of files f = Some (shebang, f))
        by (unfold item_of; now rewrite E).
      assert (He : entry_of files f = Some (to f, shebang))
        by (unfold entry_of; now rewrite E).
      rewrite Hi, He. rewrite dict_set_fresh.
      * rewrite IH; [now rewrite <- app_assoc |].
        rewrite fmap_app. cbn [fmap list_fmap fst].
        apply NoDup_app. repeat split.
        -- apply NoDup_app. repeat split; [exact Hacc | | apply NoDup_singleton].
           intros k Hk Hk'. apply list_elem_of_singleton in Hk'. subst k.
           apply (Hdisj _ Hk). apply elem_of_cons. now left.
        -- intros k Hk Hk'. apply elem_of_app in Hk as [Hk | Hk].
           ++ apply (Hdisj _ Hk). apply elem_of_cons. now right.
           ++ apply list_elem_of_singleton in Hk. subst k. contradiction.
        -- exact Hfs.
      * intros Hk. apply (Hdisj _ Hk). apply elem_of_cons. now left.
    + assert (Hi : item_of files f = None) by (unfold item_of; now rewrite E).
      assert (He : entry_of files f = None) by (unfold entry_of; now rewrite E).
      rewrite Hi, He.
      apply IH. apply NoDup_app. repeat split; [exact Hacc | | exact Hfs].
      intros k Hk Hk'. apply (Hdisj _ Hk). apply elem_of_cons. now right.
Qed.

Lemma traverse_restore (d : list (string * string)) :
  forall w : World,
    NoDup d.*1 ->
    (forall e, e ∈ d -> is_Some (disk w !! e.1)) ->
    exists (done : list unit) (d2 : gmap string string),
      traverse restoreOne d w = (Ok done, with_disk w d2)
      /\ (forall e c, e ∈ d -> disk w !! e.1 = Some c ->
          d2 !! e.1 = Some (e.2 +:+ newline +:+ newline +:+ c))
      /\ (forall p, p ∉ d.*1 -> d2 !! p = disk w !! p).
Proof.
  induction d as [|[k v] d IH]; intros w Hnd Hall.
  - exists [], (disk w). rewrite with_disk_same. split; [reflexivity | split].
    + intros e c He. now apply elem_of_nil in He.
    + reflexivity.
  - rewrite fmap_cons in Hnd. apply NoDup_cons in Hnd as [Hk Hnd]. cbn [fst] in Hk.
    destruct (Hall (k, v)) as [c Hc]; [apply elem_of_cons; now left |].
    cbn [fst] in Hc.
    set (d' := <[k := v +:+ newline +:+ newline +:+ c]> (disk w)).
    assert (Hone : restoreOne (k, v) w = (Ok tt, with_disk w d')).
    { unfold restoreOne, bind, readFile. now rewrite Hc. }
    assert (Hsame : forall e, e ∈ d -> d' !! e.1 = disk w !! e.1).
    { intros e He. apply lookup_insert_ne. intros E. apply Hk. rewrite E.
      now apply list_elem_of_fmap_2. }
    destruct (IH (with_disk w d') Hnd) as (done & d2 & Htr & Hd2 & Hrest).
    { intros e He. cbn [disk with_disk]. rewrite (Hsame e He).
      apply Hall. apply elem_of_cons. now right. }
    exists (tt :: done), d2. split; [| split].
    + cbn [traverse]. unfold bind at 1. rewrite Hone.
      unfold bind at 1. now rewrite Htr.
    + intros e ce He Hce. apply elem_of_cons in He as [-> | He].
      * cbn [fst snd] in *. rewrite (Hrest k Hk). cbn [disk with_disk].
        rewrite Hc in Hce. injection Hce as <-. apply lookup_insert_eq.
      * apply Hd2; [exact He |]. cbn [disk with_disk]. now rewrite (Hsame e He).
    + intros p Hp. rewrite fmap_cons in Hp. apply not_elem_of_cons in Hp as [Hpk Hp].
      rewrite (Hrest p Hp). cbn [disk with_disk]. now apply lookup_insert_ne.
Qed.

Lemma restoreShebangs_traverse (d : list (string * string)) (w : World) :
  restoreShebangs d w =
    match traverse restoreOne d w with
    | (Ok _, w') => (Ok tt, w')
    | (Throw e, w') => (Throw e, w')
    end.
Proof. reflexivity. Qed.

(** C2, as amended.  Among copied files with distinct destinations that are
    all on disk, take one whose contents begin with a shebang: "#!" and then
    [text].  Removing the shebangs and restoring them, with nothing done in
    between, leaves in that file the shebang line, then an empty line, then
    what followed the shebang line with its leading white space trimmed. *)
Theorem shebang_round_trip (files : list CopiedFile) (w : World)
    (file : CopiedFile) (text : string) :
  NoDup (to <$> files) ->
  (forall f, f ∈ files -> is_Some (disk w !! to f)) ->
  file ∈ files ->
  disk w !! to file = Some ("#!" +:+ text) ->
  exists shebangs w1 w2,
    removeShebangs files w = (Ok shebangs, w1)
    /\ restoreShebangs shebangs w1 = (Ok tt, w2)
    /\ disk w2 !! to file =
         Some ("#!" +:+ firstLine text +:+ newline +:+ newline
               +:+ trimLeft (afterFirstLine text)).
Proof.
  intros Hnd Hall Hin Hfile.
  destruct (traverse_removeShebang files w Hnd Hall) as (d1 & Htr & Hd1 & Hrest1).
  set (shebangs := omap (entry_of (disk w)) files).
  assert (Hrem : removeShebangs files w = (Ok shebangs, with_disk w d1)).
  { unfold removeShebangs, bind. rewrite Htr. unfold ret.
    rewrite (shebang_dictionary (disk w) files []); [reflexivity |].
    exact Hnd. }
  assert (Hstrip : strip ("#!" +:+ text)
                   = Some ("#!" +:+ firstLine text, trimLeft (afterFirstLine text))).
  { rewrite <- (str_chars text) at 1.
    change ("#!" +:+ str (chars text)) with (str ("#"%char :: "!"%char :: chars text)).
    rewrite strip_shebang. unfold firstLine, afterFirstLine, trimLeft.
    now rewrite chars_str. }
  assert (Hentry : (to file, "#!" +:+ firstLine text) ∈ shebangs).
  { apply list_elem_of_omap. exists file. split; [exact Hin |].
    unfold entry_of, contents_at. rewrite Hfile.
    change (default "" (Some ("#!" +:+ text))) with ("#!" +:+ text).
    now rewrite Hstrip. }
  assert (Hkeys : forall e, e ∈ shebangs -> is_Some (disk (with_disk w d1) !! e.1)).
  { intros e He. apply list_elem_of_omap in He as (f & Hf & He).
    rewrite (entry_of_key _ _ _ He). destruct (Hall f Hf) as [c Hc].
    cbn [disk with_disk]. rewrite (Hd1 f c Hf Hc). now eexists. }
  destruct (traverse_restore shebangs (with_disk w d1)
              (omap_entry_NoDup (disk w) files Hnd) Hkeys)
    as (done & d2 & Hres & Hd2 & _).
  exists shebangs, (with_disk w d1), (with_disk w d2).
  split; [exact Hrem | split].
  - rewrite restoreShebangs_traverse, Hres. reflexivity.
  - cbn [disk with_disk].
    pose proof (Hd2 _ (trimLeft (afterFirstLine text)) Hentry) as Hfinal.
    cbn [fst snd disk with_disk] in Hfinal. rewrite Hfinal.
    + reflexivity.
    + rewrite (Hd1 file _ Hin Hfile).
      unfold stripped. now rewrite Hstrip.
Qed.

(** ** The transformations: [transformOutput] *)

Lemma keeps_runs_ret {A} (a : A) : keeps_runs (ret a).
Proof. now intros w. Qed.

Lemma keeps_runs_throw {A} (e : Error) : keeps_runs (@throw A e).
Proof. now intros w. Qed.

Lemma keeps_runs_lift {A} (r : Result A) : keeps_runs (lift r).
Proof. now intros w. Qed.

Lemma keeps_runs_bind {A B} (c : M A) (f : A -> M B) :
  keeps_runs c -> (forall a, keeps_runs (f a)) -> keeps_runs (bind c f).
Proof.
  intros Hc Hf w. unfold bind. specialize (Hc w).
  destruct (c w) as [[a | e] w']; cbn [snd] in *; [| exact Hc].
  now rewrite Hf.
Qed.

Lemma keeps_runs_readFile (p : string) : keeps_runs (readFile p).
Proof. intros w. unfold readFile. now destruct (disk w !! p). Qed.

Lemma keeps_runs_writeFile (p contents : string) : keeps_runs (writeFile p contents).
Proof. now intros w. Qed.

Lemma keeps_runs_log (color text : string) : keeps_runs (log color text).
Proof. now intros w. Qed.

Lemma keeps_runs_traverse {A B} (f : A -> M B) (l : list A) :
  (forall a, keeps_runs (f a)) -> keeps_runs (traverse f l).
Proof.
  intros Hf. induction l as [|a l IH]; [apply keeps_runs_ret |].
  cbn [traverse]. apply keeps_runs_bind; [apply Hf | intros b].
  apply keeps_runs_bind; [exact IH | intros bs]. apply keeps_runs_ret.
Qed.

Create HintDb keeps_runs.
#[local] Hint Resolve keeps_runs_ret keeps_runs_throw keeps_runs_lift
  keeps_runs_readFile keeps_runs_writeFile keeps_runs_log : keeps_runs.

Lemma keeps_runs_removeShebangs (files : list CopiedFile) :
  keeps_runs (removeShebangs files).
Proof.
  unfold removeShebangs. apply keeps_runs_bind; [| auto with keeps_runs].
  apply keeps_runs_traverse. intros file. unfold removeShebang.
  apply keeps_runs_bind; [auto with keeps_runs | intros contents].
  destruct (RegExp.exec _ _); [| auto with keeps_runs].
  apply keeps_runs_bind; auto with keeps_runs.
Qed.

Lemma keeps_runs_restoreShebangs (shebangs : list (string * string)) :
  keeps_runs (restoreShebangs shebangs).
Proof.
  unfold restoreShebangs. apply keeps_runs_bind; [| auto with keeps_runs].
  apply keeps_runs_traverse. intros [filepath shebang]. unfold restoreOne.
  apply keeps_runs_bind; auto with keeps_runs.
Qed.

Lemma findIndex_first {A} (f : A -> bool) (l : list A) (i : nat) (x : A) :
  l !! i = Some x -> f x = true ->
  (forall j y, j < i -> l !! j = Some y -> f y = false) ->
  findIndex f l = Some i.
Proof.
  revert i. induction l as [|a l IH]; intros i Hi Hx Hbefore; [discriminate |].
  destruct i as [|i].
  - injection Hi as ->. cbn. now rewrite Hx.
  - cbn [findIndex]. rewrite (Hbefore 0 a); [| lia | reflexivity].
    rewrite (IH i); [reflexivity | exact Hi | exact Hx |].
    intros j y Hj Hy. apply (Hbefore (S j) y); [lia | exact Hy].
Qed.

Section TransformOutputFacts.

Variable cwd : string.
Variable fiveToSixCodeModPath : string.
Variable dirname : string.
Variable Runner_run :
  string -> list string -> RunnerOptions -> gmap string string ->
  Result Stats * gmap string string.
Variable totalTime : list Stats -> string.

Local Abbreviation passes := (transformations fiveToSixCodeModPath dirname).
Local Abbreviation pipeline :=
  (transformOutput cwd fiveToSixCodeModPath dirname Runner_run totalTime).

Lemma run_runs (transformation : string) (paths : list string)
    (options : RunnerOptions) (w : World) :
  runs (run Runner_run transformation paths options w).2 = runs w ++ [transformation].
Proof. unfold run. now destruct (Runner_run _ _ _ _). Qed.

(** When the chain of runs comes to its end, every transformation of the
    list was started, in order. *)
Lemma runAll_runs (todo : list string) (output : string) (options : RunnerOptions) :
  forall (prevStats results : list Stats) (w w' : World),
    runAll Runner_run todo output options prevStats w = (Ok results, w') ->
    runs w' = runs w ++ todo.
Proof.
  induction todo as [|t todo IH]; intros prevStats results w w' H.
  - injection H as _ <-. now rewrite app_nil_r.
  - cbn [runAll] in H. unfold bind in H.
    pose proof (run_runs t [output] options w) as Hrun.
    destruct (run Runner_run t [output] options w) as [[stats | e] w1];
      [| discriminate].
    cbn [snd] in Hrun. rewrite (IH _ _ _ _ H), Hrun. now rewrite <- app_assoc.
Qed.

Lemma shield_runs (files : list CopiedFile) (options : CJS2ESMOptions) :
  keeps_runs (shield files options).
Proof.
  unfold shield. apply keeps_runs_bind; [auto with keeps_runs | intros exprs].
  destruct (filter _ files); [auto with keeps_runs |].
  apply keeps_runs_bind; [apply keeps_runs_removeShebangs | auto with keeps_runs].
Qed.

Lemma unshield_runs (shebangs : option (list (string * string))) :
  keeps_runs (unshield shebangs).
Proof.
  destruct shebangs; [apply keeps_runs_restoreShebangs | apply keeps_runs_ret].
Qed.

(** C10.  With no copied file, [transformOutput] throws on reading
    [files[0].to], the first thing it does: the world is as it was, no
    shebang was touched and no transformation was started. *)
Theorem transformOutput_without_files (options : CJS2ESMOptions) (w : World) :
  pipeline [] options w
    = (Throw (TypeError "Cannot read properties of undefined (reading 'to')"), w).
Proof. reflexivity. Qed.

(** C1, as amended.  Take a run over the files [first :: others] in which
    the shebangs are removed, the four transformations report [results]
    and the shebangs are restored.  If the transformation number
    [errorIndex] is the first whose report has [ok + nochange] different
    from the number of files, the run ends with the error that names that
    transformation; by then all four transformations have been started,
    the ones after the failing one too, and the shebangs are back. *)
Theorem failing_pass_reported_after_all_passes
    (first : CopiedFile) (others : list CopiedFile) (options : CJS2ESMOptions)
    (w w1 w2 w3 : World) (shebangs : option (list (string * string)))
    (results : list Stats) (errorIndex : nat) (stats : Stats) :
  let files := first :: others in
  shield files options w = (Ok shebangs, w1) ->
  runAll Runner_run passes (output options) (runnerOptions first options) []
    (announce files w1).2 = (Ok results, w2) ->
  unshield shebangs w2 = (Ok tt, w3) ->
  results !! errorIndex = Some stats ->
  ok stats + nochange stats <> length files ->
  (forall j earlier, j < errorIndex -> results !! j = Some earlier ->
     ok earlier + nochange earlier = length files) ->
  pipeline files options w
    = (Throw (JsError (failureMessage
                         (path_parse_name (nth errorIndex passes "")))), w3)
  /\ runs w3 = runs w ++ passes.
Proof.
  intros files Hshield Hruns Hunshield Hstats Hbad Hbefore.
  assert (Hindex : findIndex (failed files) results = Some errorIndex).
  { apply (findIndex_first _ _ _ stats Hstats).
    - unfold failed. apply negb_true_iff, Nat.eqb_neq, Hbad.
    - intros j y Hj Hy. unfold failed. apply negb_false_iff, Nat.eqb_eq.
      now apply (Hbefore j). }
  split.
  - unfold transformOutput, files. cbv beta iota. fold files.
    unfold bind at 1. rewrite Hshield.
    unfold bind at 1. destruct (announce files w1) as [[[] | e] w1'] eqn:Ha.
    + cbn [snd] in Hruns. unfold bind at 1. rewrite Hruns.
      unfold bind at 1. rewrite Hunshield.
      unfold report. now rewrite Hindex.
    + discriminate.
  - pose proof (shield_runs files options w) as H1. rewrite Hshield in H1.
    pose proof (keeps_runs_log "yellow"
                  ("Transforming " +:+ pretty (length files) +:+ " files...") w1) as Ha.
    pose proof (runAll_runs _ _ _ _ _ _ _ Hruns) as H2.
    pose proof (unshield_runs shebangs w2) as H3. rewrite Hunshield in H3.
    cbn [snd] in *. unfold announce in H2. now rewrite H3, H2, Ha, H1.
Qed.

End TransformOutputFacts.

(** ** The transformation: [transform] *)

Lemma lookup_map {A B} (f : A -> B) (l : list A) (i : nat) :
  map f l !! i = option_map f (l !! i).
Proof.
  revert i. induction l as [|a l IH]; intros [|i]; try reflexivity. apply IH.
Qed.

Lemma mapResult_lookup {A B} (f : A -> Result B) (l : list A) (out : list B)
    (i : nat) (a : A) :
  mapResult f l = Ok out -> l !! i = Some a ->
  exists b, f a = Ok b /\ out !! i = Some b.
Proof.
  revert out i. induction l as [|x l IH]; intros out i H Hi; [discriminate |].
  cbn [mapResult] in H. unfold bind_result in H.
  destruct (f x) as [b |] eqn:Ex; [| discriminate].
  destruct (mapResult f l) as [bs |] eqn:El; [| discriminate].
  injection H as <-. destruct i as [|i].
  - injection Hi as <-. now exists b.
  - now apply (IH bs i).
Qed.

Lemma withRegex_rules (rules : list ModuleRule) (mods : list (ModuleRule * RegExp.t)) :
  withRegex rules = Ok mods ->
  forall md, md ∈ mods ->
    md.1 ∈ rules /\ RegExp_new ("^" +:+ name md.1 +:+ "(/|$)") = Ok md.2.
Proof.
  revert mods. induction rules as [|r rules IH]; intros mods H md Hmd.
  - injection H as <-. now apply elem_of_nil in Hmd.
  - cbn [withRegex] in H. unfold bind_result in H.
    destruct (RegExp_new _) as [x |] eqn:Ex; [| discriminate].
    destruct (withRegex rules) as [xs |] eqn:Er; [| discriminate].
    injection H as <-. apply elem_of_cons in Hmd as [-> | Hmd].
    + split; [apply elem_of_cons; now left | exact Ex].
    + destruct (IH xs eq_refl md Hmd) as [Hin Hre].
      split; [apply elem_of_cons; now right | exact Hre].
Qed.

Section TransformFacts.

Variable cwd : string.
Variable pathExistsSync : string -> bool.
Variable getAbsPathInfoSync : string -> option AbsPathInfo.
Variable findFileSync : list string -> string -> option string.

Local Abbreviation transformer :=
  (transform cwd pathExistsSync getAbsPathInfoSync findFileSync).
Local Abbreviation addExtensions :=
  (extensionPass cwd pathExistsSync getAbsPathInfoSync findFileSync).

Lemma needsPathUpdate_ignored (ignoreListForExt : list RegExp.t) (src : string) :
  existsb (matches src) ignoreListForExt = true ->
  needsPathUpdate ignoreListForExt (Some src) = false.
Proof. intros H. unfold needsPathUpdate. rewrite H. now destruct src. Qed.

(** A statement whose specifier is on the ignore list goes through the
    three chains of the extension pass untouched. *)
Lemma extensionPass_ignored (ignoreListForExt : list RegExp.t) (base : string)
    (root : list Statement) (i : nat) (s : Statement) (src : string) :
  root !! i = Some s -> sourceOf s = Some src ->
  existsb (matches src) ignoreListForExt = true ->
  addExtensions ignoreListForExt base root !! i = Some s.
Proof.
  intros Hi Hsrc Hig. unfold extensionPass.
  rewrite !lookup_map, Hi. cbn [option_map]. f_equal.
  pose proof (needsPathUpdate_ignored _ _ Hig) as Hno.
  destruct s as [sp src' | decl sp [src' |] | ex src' | code];
    cbn in Hsrc; try discriminate; injection Hsrc as ->;
    unfold updateExportAll, updateExportNamed, updateImport;
    now rewrite ?Hno.
Qed.

(** C3, as amended.  A specifier that matches an ignore pattern skips the
    pass that adds the extensions, and that pass only: the statement comes
    out of the transformation as the modules pass alone makes it.  So it
    comes out unchanged when it is a re-export, and when no rule of
    [options.modules] matches it. *)
Theorem ignored_specifier_keeps_extension (file_path : string)
    (root out : list Statement) (options : TransformerOptions)
    (ignoreListForExt : list RegExp.t) (i : nat) (s : Statement) (src : string) :
  RegExp_all (extension_ignore options) = Ok ignoreListForExt ->
  transformer file_path root options = Ok out ->
  root !! i = Some s ->
  sourceOf s = Some src ->
  existsb (matches src) ignoreListForExt = true ->
  exists s',
    modulesPass options [s] = Ok [s']
    /\ out !! i = Some s'
    /\ ((forall specifiers, s <> ImportDeclaration specifiers src) -> s' = s)
    /\ ((forall rule x, rule ∈ modules options ->
           RegExp_new ("^" +:+ name rule +:+ "(/|$)") = Ok x ->
           matches src x = false) -> s' = s).
Proof.
  intros Hre Htr Hi Hsrc Hig.
  unfold transform, bind_result in Htr. rewrite Hre in Htr.
  pose proof (extensionPass_ignored ignoreListForExt (path_dirname file_path)
                root i s src Hi Hsrc Hig) as Hext.
  unfold modulesPass in *.
  destruct (modules options) as [|r rules] eqn:Em.
  - injection Htr as <-. exists s. repeat split; [exact Hext | ..]; reflexivity.
  - unfold bind_result in *.
    destruct (withRegex (r :: rules)) as [mods |] eqn:Ew; [| discriminate].
    destruct (mapResult_lookup _ _ _ _ _ Htr Hext) as (s' & Hs' & Hout).
    exists s'. split; [| split; [exact Hout | split]].
    + cbn [mapResult]. unfold bind_result. now rewrite Hs'.
    + intros Hnot. destruct s as [sp src' | | |]; cbn in Hs';
        try (now injection Hs' as <-).
      cbn in Hsrc. injection Hsrc as ->. now destruct (Hnot sp).
    + intros Hnone.
      assert (Hex : existsb (fun md => matches src md.2) mods = false).
      { apply not_true_iff_false. intros Hex.
        apply existsb_exists in Hex as (md & Hmd & Hm).
        apply list_elem_of_In in Hmd.
        destruct (withRegex_rules _ _ Ew md Hmd) as [Hin Hx].
        rewrite (Hnone _ _ Hin Hx) in Hm. discriminate. }
      destruct s as [sp src' | | |]; cbn in Hs'; try (now injection Hs' as <-).
      cbn in Hsrc. injection Hsrc as ->. rewrite Hex in Hs'.
      now injection Hs' as <-.
Qed.

(** The modules pass never touches a re-export. *)
Lemma updateModule_reexport (mods : list (ModuleRule * RegExp.t)) (s : Statement) :
  (forall specifiers importPath, s <> ImportDeclaration specifiers importPath) ->
  updateModule mods s = Ok s.
Proof.
  intros H. destruct s as [sp src | | |]; try reflexivity. now destruct (H sp src).
Qed.

End TransformFacts.

(** ** The resolver on the sample disks *)


Lemma relative_marker_witness :
  startsWith
    (updatePath Fixture.cwd Fixture.lib_with_index_exists Fixture.lib_info
       (findFileSync_model Fixture.lib_with_index_exists) "./lib" "/proj/esm")
    "./" = true.
Proof.
  apply (relative_marker_kept Fixture.cwd Fixture.lib_with_index_exists
           Fixture.lib_info (findFileSync_model Fixture.lib_with_index_exists)
           "./lib" "/proj/esm").
  right. reflexivity.
Defined.

(** C4, the claim as stated fails on a specifier with a final slash: the
    directory [/proj/esm/lib/] holds a [package.json], and "./lib/" comes
    back as "./lib". *)
Lemma folder_with_manifest_counterexample :
  Fixture.lib_info (absPathOf Fixture.cwd "./lib/" "/proj/esm")
    = Some Fixture.directory
  /\ Fixture.lib_with_manifest_exists
       (path_join [absPathOf Fixture.cwd "./lib/" "/proj/esm"; "package.json"]) = true
  /\ updatePath Fixture.cwd Fixture.lib_with_manifest_exists Fixture.lib_info
       Fixture.no_file "./lib/" "/proj/esm" = "./lib"
  /\ "./lib" <> "./lib/".
Proof. repeat split. discriminate. Qed.

Lemma folder_with_manifest_witness :
  updatePath Fixture.cwd Fixture.lib_with_manifest_exists Fixture.lib_info
    Fixture.no_file "./lib" "/proj/esm" = "./lib".
Proof.
  apply (folder_with_manifest Fixture.cwd Fixture.lib_with_manifest_exists
           Fixture.lib_info Fixture.no_file "./lib" "/proj/esm" Fixture.directory);
    try reflexivity; discriminate.
Defined.

(** C8, the code at the failing input: the directory [/proj/esm/lib] holds
    no [package.json] and no entry file, and a file of that directory
    imports ".".  No entry file is found and the replacement is the
    specifier itself; the hotfix at the end of the resolver then puts "./"
    in front of it, and the specifier comes back as "./.", not as it was. *)
Theorem dot_specifier_comes_back_marked :
  Fixture.lib_info (absPathOf Fixture.cwd "." "/proj/esm/lib")
    = Some Fixture.directory
  /\ Fixture.lib_empty_exists
       (path_join [absPathOf Fixture.cwd "." "/proj/esm/lib"; "package.json"]) = false
  /\ findFileSync_model Fixture.lib_empty_exists ["index.mjs"; "index.js"]
       (absPathOf Fixture.cwd "." "/proj/esm/lib") = None
  /\ replacementOf Fixture.cwd Fixture.lib_empty_exists Fixture.lib_info
       (findFileSync_model Fixture.lib_empty_exists) "." "/proj/esm/lib" = "."
  /\ updatePath Fixture.cwd Fixture.lib_empty_exists Fixture.lib_info
       (findFileSync_model Fixture.lib_empty_exists) "." "/proj/esm/lib" = "./."
  /\ "./." <> ".".
Proof. repeat split. discriminate. Qed.

(** A directory that holds [index.js]: the entry file is joined to the
    specifier. *)
Lemma folder_with_index_sample :
  updatePath Fixture.cwd Fixture.lib_with_index_exists Fixture.lib_info
    (findFileSync_model Fixture.lib_with_index_exists) "./lib" "/proj/esm"
  = "./lib/index.js".
Proof.
  exact (folder_without_manifest Fixture.cwd Fixture.lib_with_index_exists
           Fixture.lib_info "./lib" "/proj/esm" Fixture.directory
           eq_refl eq_refl eq_refl).
Defined.

(** ** The transformation on sample statements *)

(** C3, the claim as stated fails when a rule of [options.modules] matches
    too: "utils/helpers" is on the ignore list, and the modules pass still
    rewrites it. *)
Lemma ignored_specifier_counterexample :
  (exists ignoreListForExt,
     RegExp_all (extension_ignore Fixture.utilsIgnored) = Ok ignoreListForExt
     /\ existsb (matches "utils/helpers") ignoreListForExt = true)
  /\ transform Fixture.cwd Fixture.nothing_exists Fixture.nothing_found
       Fixture.no_file "/proj/esm/a.mjs"
       [ImportDeclaration ["x"] "utils/helpers"] Fixture.utilsIgnored
     = Ok [ImportDeclaration ["x"] "./shared/utils/helpers"]
  /\ "./shared/utils/helpers" <> "utils/helpers".
Proof.
  split; [| split; [reflexivity | discriminate]].
  eexists. split; reflexivity.
Qed.

Lemma ignored_specifier_witness :
  transform Fixture.cwd Fixture.nothing_exists Fixture.nothing_found
    Fixture.no_file "/proj/esm/a.mjs"
    [ImportDeclaration ["x"] "./a.css"] Fixture.stylesIgnored
  = Ok [ImportDeclaration ["x"] "./a.css"].
Proof.
  destruct (ignored_specifier_keeps_extension Fixture.cwd Fixture.nothing_exists
              Fixture.nothing_found Fixture.no_file "/proj/esm/a.mjs"
              [ImportDeclaration ["x"] "./a.css"]
              [ImportDeclaration ["x"] "./a.css"]
              Fixture.stylesIgnored
              [ {| RegExp.source :=
                     RegExp.Seq (RegExp.Chr ".") (RegExp.Seq (RegExp.Chr "c")
                       (RegExp.Seq (RegExp.Chr "s") (RegExp.Seq (RegExp.Chr "s") RegExp.Eol)));
                   RegExp.fl := RegExp.no_flags |} ]
              0 (ImportDeclaration ["x"] "./a.css") "./a.css"
              eq_refl eq_refl eq_refl eq_refl eq_refl)
    as (s' & _ & Hout & _).
  injection Hout as <-. reflexivity.
Defined.

(** C5, the code at the failing input: the rules [react] and [react-dom], in
    that order, and an import of "react-dom".  The specifier passes the
    filter through the rule [react-dom], whose name it matches as a whole
    path segment; the rule applied is [react], the first whose name the
    specifier starts with, and the specifier becomes "preact/compat-dom". *)
Theorem modules_pass_picks_first_prefix :
  transform Fixture.cwd Fixture.nothing_exists Fixture.nothing_found
    Fixture.no_file "/proj/esm/a.mjs"
    [ImportDeclaration ["render"] "react-dom"] Fixture.preact
  = Ok [ImportDeclaration ["render"] "preact/compat-dom"].
Proof. reflexivity. Qed.

(** The scenario of the spec: the rule [utils] rewrites "utils/helpers", and
    leaves a re-export of the same specifier alone. *)
Example modules_pass_scenario :
  transform Fixture.cwd Fixture.nothing_exists Fixture.nothing_found
    Fixture.no_file "/proj/esm/a.mjs"
    [ImportDeclaration ["x"] "utils/helpers"; ExportAllDeclaration None "utils/helpers";
     ImportDeclaration ["y"] "utilsx/helpers"]
    {| extension_ignore := []; modules := [Fixture.utilsRule] |}
  = Ok [ImportDeclaration ["x"] "./shared/utils/helpers";
        ExportAllDeclaration None "utils/helpers";
        ImportDeclaration ["y"] "utilsx/helpers"].
Proof. reflexivity. Qed.

(** ** The pipeline on sample runs *)

(** C1, the claim as stated fails: the first transformation reports a file
    in error, the run ends with the error that names it, and the three
    transformations after it have been started all the same. *)
Lemma failing_pass_counterexample :
  let out :=
    transformOutput Run.cwd Run.codemods Run.here (Run.runner "cjs.js") Run.noTime
      Run.copied Run.options (Run.onDisk [("/proj/esm/a.mjs", "exports.a = 1;")]) in
  out.1 = Throw (JsError "At least one file couldn't be transformed with `cjs`")
  /\ runs out.2 =
       [ "/proj/node_modules/5to6-codemod/transforms/cjs.js";
         "/proj/node_modules/5to6-codemod/transforms/exports.js";
         "/proj/node_modules/5to6-codemod/transforms/named-export-generation.js";
         "/proj/node_modules/cjs2esm/src/transformer.js" ]
  /\ runs out.2 <> [ "/proj/node_modules/5to6-codemod/transforms/cjs.js" ].
Proof. vm_compute. repeat split. discriminate. Qed.

Lemma failing_pass_witness :
  let w := Run.onDisk [("/proj/esm/a.mjs", "exports.a = 1;")] in
  let out :=
    transformOutput Run.cwd Run.codemods Run.here (Run.runner "exports.js") Run.noTime
      Run.copied Run.options w in
  out.1 = Throw (JsError "At least one file couldn't be transformed with `exports`")
  /\ runs out.2 = transformations Run.codemods Run.here.
Proof.
  intros w out.
  set (first := {| from := "/proj/src/a.js"; to := "/proj/esm/a.mjs" |}).
  set (w1 := (shield [first] Run.options w).2).
  set (w2 := (runAll (Run.runner "exports.js") (transformations Run.codemods Run.here)
                (output Run.options) (runnerOptions first Run.options) []
                (announce [first] w1).2).2).
  set (w3 := (unshield None w2).2).
  destruct (failing_pass_reported_after_all_passes Run.cwd Run.codemods Run.here
              (Run.runner "exports.js") Run.noTime first [] Run.options
              w w1 w2 w3 None [Run.good; Run.bad; Run.good; Run.good] 1 Run.bad)
    as [Hout Hruns].
  - vm_compute. reflexivity.
  - vm_compute. reflexivity.
  - vm_compute. reflexivity.
  - reflexivity.
  - vm_compute. lia.
  - intros [|j] earlier Hj Hearlier; [| lia].
    injection Hearlier as <-. reflexivity.
  - subst out. unfold Run.copied. fold first. rewrite Hout. split; [reflexivity |].
    cbn [snd]. exact Hruns.
Defined.

(** C2, the claim as stated fails on a script with one line break after its
    shebang: the round trip leaves an empty line there. *)
Lemma shebang_round_trip_counterexample :
  let w := Run.onDisk [("/proj/esm/bin.js", Run.tight)] in
  exists shebangs w1 w2,
    removeShebangs [Run.script] w = (Ok shebangs, w1)
    /\ restoreShebangs shebangs w1 = (Ok tt, w2)
    /\ disk w !! to Run.script = Some Run.tight
    /\ disk w2 !! to Run.script = Some Run.spaced
    /\ Run.spaced <> Run.tight.
Proof.
  intros w.
  exists [("/proj/esm/bin.js", Run.shebangLine)],
    (Run.onDisk [("/proj/esm/bin.js", "main();" +:+ newline)]),
    (Run.onDisk [("/proj/esm/bin.js", Run.spaced)]).
  vm_compute. repeat split. discriminate.
Qed.

Lemma shebang_round_trip_witness :
  let w := Run.onDisk [("/proj/esm/bin.js", Run.spaced)] in
  exists shebangs w1 w2,
    removeShebangs [Run.script] w = (Ok shebangs, w1)
    /\ restoreShebangs shebangs w1 = (Ok tt, w2)
    /\ disk w2 !! to Run.script = Some Run.spaced.
Proof.
  intros w.
  apply (shebang_round_trip [Run.script] w Run.script
           ("/usr/bin/env node" +:+ newline +:+ newline +:+ "main();" +:+ newline)).
  - apply NoDup_singleton.
  - intros f Hf. apply list_elem_of_singleton in Hf as ->. vm_compute. now eexists.
  - apply list_elem_of_singleton. reflexivity.
  - vm_compute. reflexivity.
Defined.

(** C6, the code at the failing input: a source directory that holds [A.JS]
    and a file named [.js], copied with the extension [mjs].  [A.JS] goes to
    [A.mjs]; for [.js], [path.parse] finds no extension, the pattern built
    from it matches nothing, and the destination [/proj/esm/.js] has no
    extension at all. *)
Theorem dot_js_file_keeps_its_name :
  (copyDirectory Run.cwd "/proj/src" Run.sources "/proj/esm" ExtMjs false
     Run.sourceFiles).1
  = Ok [ {| from := "/proj/src/A.JS"; to := "/proj/esm/A.mjs" |};
         {| from := "/proj/src/.js"; to := "/proj/esm/.js" |} ]
  /\ findFiles "/proj/src" Run.sources = ["/proj/src/A.JS"; "/proj/src/.js"]
  /\ path_parse_ext "/proj/esm/A.mjs" = ".mjs"
  /\ path_parse_ext "/proj/esm/.js" = ""
  /\ "" <> "." +:+ extension_name ExtMjs.
Proof. vm_compute. repeat split. discriminate. Qed.

(** ** The change of extension in [copyDirectory] *)

Lemma attempt_literal_eol (text : list ascii) :
  forall (p : option ascii) (s : list ascii) (caps : list (nat * list ascii))
         (k : RegExp.state -> option RegExp.state),
    RegExp.m RegExp.no_flags (RegExp.source (literal_eol text))
      {| RegExp.prev := p; RegExp.rest := s; RegExp.caps := caps |} k =
    if Path.seg_eqb s text
    then k {| RegExp.prev := match rev text with c :: _ => Some c | [] => p end;
              RegExp.rest := []; RegExp.caps := caps |}
    else None.
Proof.
  induction text as [|c text IH]; intros p s caps k.
  - cbn. unfold RegExp.guard, RegExp.at_line_end. cbn.
    destruct s as [|d s]; [reflexivity |]. now rewrite seg_eqb_false.
  - cbn [literal_eol RegExp.source fold_right RegExp.m].
    unfold RegExp.step. cbn [RegExp.rest RegExp.caps RegExp.canonicalize
                              RegExp.ignoreCase RegExp.no_flags].
    destruct s as [|d s]; [now rewrite seg_eqb_false |].
    destruct (Char.eqb d c) eqn:E.
    + apply char_eqb_eq in E. subst d.
      change (fold_right _ RegExp.Eol text) with (RegExp.source (literal_eol text)).
      rewrite IH. destruct (Path.seg_eqb s text) eqn:Es.
      * apply seg_eqb_true in Es. subst s.
        assert (Hsame : Path.seg_eqb (c :: text) (c :: text) = true).
        { unfold Path.seg_eqb. now destruct (List.list_eq_dec ascii_dec _ _). }
        rewrite Hsame. do 2 f_equal. cbn [rev].
        destruct (rev text) as [|x r]; reflexivity.
      * rewrite seg_eqb_false; [reflexivity |].
        apply seg_eqb_neq in Es. intros [= ->]. contradiction.
    + rewrite seg_eqb_false; [reflexivity |].
      intros [= -> _]. now rewrite char_eqb_refl in E.
Qed.

Lemma search_literal_eol (text pre : list ascii) :
  text <> [] ->
  forall (p : option ascii) (seen : list ascii),
    RegExp.search (literal_eol text) p seen (pre ++ text) =
      Some {| RegExp.before := rev seen ++ pre; RegExp.matched := text;
              RegExp.after := []; RegExp.captures := [] |}.
Proof.
  intros Hne. induction pre as [|c pre IH]; intros p seen;
    rewrite search_unfold; unfold RegExp.attempt;
    change (RegExp.fl (literal_eol text)) with RegExp.no_flags;
    rewrite attempt_literal_eol.
  - cbn [app].
    assert (Hsame : Path.seg_eqb text text = true).
    { unfold Path.seg_eqb. now destruct (List.list_eq_dec ascii_dec _ _). }
    rewrite Hsame. cbn [RegExp.rest RegExp.caps length]. rewrite Nat.sub_0_r.
    now rewrite firstn_all, app_nil_r.
  - rewrite seg_eqb_false.
    + cbn [app]. rewrite IH. cbn [rev]. now rewrite <- app_assoc.
    + intros E. apply (f_equal (@length ascii)) in E.
      cbn [app length] in E. rewrite length_app in E. lia.
Qed.

Lemma replace_literal_eol (text pre template : list ascii) :
  text <> [] ->
  RegExp.replace (literal_eol text) (pre ++ text) template =
    pre ++ RegExp.substitution
             (length (RegExp.groups_in (RegExp.source (literal_eol text))))
             {| RegExp.before := pre; RegExp.matched := text;
                RegExp.after := []; RegExp.captures := [] |} template.
Proof.
  intros Hne. unfold RegExp.replace, RegExp.exec.
  rewrite (search_literal_eol text pre Hne). cbn [RegExp.before RegExp.after rev app].
  now rewrite app_nil_r.
Qed.

(** The extension that [path.parse] finds in a path that ends with a dot and
    some letters: that ending, unless the last segment starts with the dot. *)
Lemma parse_ext_ending (stem letters : list ascii) :
  letters <> [] ->
  forallb Path.not_slash letters = true ->
  forallb Path.not_dot letters = true ->
  Path.parse_ext (stem ++ Path.dot :: letters) =
    match last_segment stem with
    | [] => []
    | _ => Path.dot :: letters
    end.
Proof.
  intros Hne Hns Hnd. unfold Path.parse_ext, Path.basename, last_segment.
  change (stem ++ Path.dot :: letters) with (stem ++ [Path.dot] ++ letters).
  rewrite !rev_app_distr. cbn [rev app].
  assert (Hl : exists x r, rev letters = x :: r).
  { destruct (rev letters) as [|x r] eqn:E; [| now eexists _, _].
    apply (f_equal (@rev ascii)) in E. rewrite rev_involutive in E. contradiction. }
  destruct Hl as (x & r & Hl).
  assert (Hx : Path.is_slash x = false).
  { rewrite <- forallb_rev, Hl in Hns. simpl in Hns.
    apply andb_true_iff in Hns as [Hx _]. now apply negb_true_iff in Hx. }
  rewrite <- app_assoc. cbn [app]. rewrite Hl. cbn [app].
  rewrite (drop_while_head _ _ _ Hx).
  set (b := Path.take_while Path.not_slash (rev stem)).
  assert (Htake : Path.take_while Path.not_slash ((x :: r) ++ Path.dot :: rev stem)
                  = (x :: r) ++ Path.dot :: b).
  { rewrite <- Hl. clear Hl Hx.
    assert (Hrl : forallb Path.not_slash (rev letters) = true) by now rewrite forallb_rev.
    induction (rev letters) as [|y l IHl]; [reflexivity |].
    simpl in Hrl. apply andb_true_iff in Hrl as [Hy Hrl].
    cbn [app Path.take_while]. rewrite Hy. now rewrite (IHl Hrl). }
  cbn [app] in Htake. rewrite Htake.
  change (x :: r ++ Path.dot :: b) with ((x :: r) ++ [Path.dot] ++ b).
  rewrite <- Hl, !rev_app_distr, rev_involutive. cbn [rev app].
  rewrite <- app_assoc. cbn [app].
  unfold Path.split_ext.
  rewrite !rev_app_distr. cbn [rev app]. rewrite rev_involutive, <- app_assoc.
  cbn [app].
  assert (Hrd : forallb Path.not_dot (rev letters) = true) by now rewrite forallb_rev.
  assert (Hd : Path.drop_while Path.not_dot (rev letters ++ Path.dot :: b)
               = Path.dot :: b).
  { clear Hl Htake. induction (rev letters) as [|y l IHl]; [reflexivity |].
    simpl in Hrd. apply andb_true_iff in Hrd as [Hy Hrd].
    cbn [app Path.drop_while]. rewrite Hy. now apply IHl. }
  assert (Ht : Path.take_while Path.not_dot (rev letters ++ Path.dot :: b)
               = rev letters).
  { apply take_while_app_stop; [exact Hrd | reflexivity]. }
  rewrite Hd, Ht, rev_involutive.
  destruct b as [|b0 b'] eqn:Eb; [reflexivity |].
  rewrite seg_eqb_false.
  { cbn [snd]. destruct (rev (b0 :: b')) eqn:Er; [| reflexivity].
    now apply rev_cons_nonempty in Er. }
  intros E. apply (f_equal (@length ascii)) in E.
  autorewrite with list in E. cbn [length] in E.
  destruct letters; [contradiction | cbn [length] in E; lia].
Qed.

Lemma parse_ext_found (stem : string) (letters : list ascii) :
  letters <> [] ->
  forallb Path.not_slash letters = true ->
  forallb Path.not_dot letters = true ->
  path_parse_ext (stem +:+ str (Path.dot :: letters)) = str (Path.dot :: letters) ->
  forall letters',
    letters' <> [] ->
    forallb Path.not_slash letters' = true ->
    forallb Path.not_dot letters' = true ->
    path_parse_ext (stem +:+ str (Path.dot :: letters')) = str (Path.dot :: letters').
Proof.
  intros Hne Hns Hnd H letters' Hne' Hns' Hnd'.
  unfold path_parse_ext in *. rewrite chars_app, chars_str in *.
  rewrite (parse_ext_ending _ _ Hne' Hns' Hnd').
  rewrite (parse_ext_ending _ _ Hne Hns Hnd) in H.
  destruct (last_segment (chars stem)); [discriminate | reflexivity].
Qed.

Lemma replace_extension (stem : string) (e extension : list ascii) :
  e <> [] ->
  forallb (fun c => negb (Char.eqb c "$")) extension = true ->
  replace (stem +:+ str e) (literal_eol e) (str extension) = stem +:+ str extension.
Proof.
  intros Hne Hplain. unfold replace.
  rewrite chars_app, !chars_str, (replace_literal_eol _ _ _ Hne), str_app, str_chars.
  f_equal. f_equal.
  induction extension as [|c t IH]; [reflexivity |].
  simpl in Hplain. apply andb_true_iff in Hplain as [Hc Ht].
  cbn [RegExp.substitution]. rewrite Hc. now rewrite (IH Ht).
Qed.

(** What [copyDirectory] does for a file with a name before its extension:
    whatever the case of ".js", the destination is the path with the
    extension asked for in its place, and [path.parse] finds that extension
    in it. *)
Lemma withExtension_js (stem e : string) (useExtension : ModuleExtension) :
  In e js_spellings ->
  path_parse_ext (stem +:+ e) = e ->
  let extension := "." +:+ extension_name useExtension in
  withExtension (stem +:+ e) extension = Ok (stem +:+ extension)
  /\ path_parse_ext (stem +:+ extension) = extension.
Proof.
  intros He Hext extension. split.
  - unfold withExtension. rewrite Hext.
    destruct (String.eqb e extension) eqn:E.
    + apply String.eqb_eq in E. now subst e.
    + assert (Hre : RegExp_new ("\" +:+ e +:+ "$") = Ok (literal_eol (chars e))).
      { cbn in He. destruct He as [<- | [<- | [<- | [<- | []]]]]; reflexivity. }
      rewrite Hre. cbn [bind_result]. f_equal.
      rewrite <- (str_chars e) at 1. rewrite <- (str_chars extension).
      apply replace_extension.
      * cbn in He. destruct He as [<- | [<- | [<- | [<- | []]]]]; discriminate.
      * now destruct useExtension.
  - assert (Hshape : exists letters,
               e = str (Path.dot :: letters) /\ letters <> []
               /\ forallb Path.not_slash letters = true
               /\ forallb Path.not_dot letters = true).
    { cbn in He. destruct He as [<- | [<- | [<- | [<- | []]]]];
        eexists (_ :: _ :: []); repeat split; discriminate. }
    destruct Hshape as (letters & -> & Hne & Hns & Hnd).
    destruct useExtension.
    + apply (parse_ext_found stem letters Hne Hns Hnd Hext (chars "js"));
        [discriminate | reflexivity | reflexivity].
    + apply (parse_ext_found stem letters Hne Hns Hnd Hext (chars "mjs"));
        [discriminate | reflexivity | reflexivity].
Qed.

Example withExtension_upper_case :
  withExtension "/proj/esm/lib/A.JS" ".mjs" = Ok "/proj/esm/lib/A.mjs".
Proof.
  apply (withExtension_js "/proj/esm/lib/A" ".JS" ExtMjs); [| reflexivity].
  cbn. tauto.
Qed.

(** ** The patterns built from the name of a rule *)

Lemma term_plain (n : nat) (c : ascii) (s : list ascii) :
  plain c = true ->
  RegExp.term (S n) (c :: s) = RegExp.quantified (RegExp.Chr c) s.
Proof.
  intros H. destruct c as [[] [] [] [] [] [] [] []];
    try reflexivity; discriminate.
Qed.

Lemma quantified_plain (a : RegExp.re) (c : ascii) (s : list ascii) :
  plain c = true -> RegExp.quantified a (c :: s) = Some (a, c :: s).
Proof.
  intros H. destruct c as [[] [] [] [] [] [] [] []];
    try reflexivity; discriminate.
Qed.

Lemma alternative_plain (n : nat) (c : ascii) (s : list ascii) :
  plain c = true ->
  RegExp.alternative (S n) (c :: s) =
    match RegExp.term n (c :: s) with
    | Some (a, s') =>
        match RegExp.alternative n s' with
        | Some (b, s'') => Some (RegExp.seq a b, s'')
        | None => None
        end
    | None => None
    end.
Proof.
  intros H. destruct c as [[] [] [] [] [] [] [] []];
    try reflexivity; discriminate.
Qed.

(** Reading a plain text that is followed by [tail]: one literal for each
    character, then what [tail] reads as, provided no quantifier starts
    [tail]. *)
Lemma alternative_literal (text tail rest : list ascii) (r : RegExp.re) (n : nat) :
  forallb plain text = true ->
  (forall a, RegExp.quantified a tail = Some (a, tail)) ->
  RegExp.alternative n tail = Some (r, rest) ->
  forall fuel, fuel = length text + n ->
    RegExp.alternative fuel (text ++ tail) = Some (literal_then text r, rest).
Proof.
  intros Hplain Htail Hn. induction text as [|c text IH]; intros fuel ->.
  - exact Hn.
  - simpl in Hplain. apply andb_true_iff in Hplain as [Hc Hplain].
    cbn [length Nat.add app]. rewrite (alternative_plain _ _ _ Hc).
    assert (Hfuel : exists k, length text + n = S k).
    { destruct n as [|n]; [discriminate |]. exists (length text + n). lia. }
    destruct Hfuel as [k Hk]. rewrite Hk at 1. rewrite (term_plain _ _ _ Hc).
    assert (Hq : RegExp.quantified (RegExp.Chr c) (text ++ tail)
                 = Some (RegExp.Chr c, text ++ tail)).
    { destruct text as [|d text]; [apply Htail |].
      simpl in Hplain. apply andb_true_iff in Hplain as [Hd _].
      now apply quantified_plain. }
    rewrite Hq, (IH Hplain _ eq_refl). reflexivity.
Qed.

Lemma alternative_segment_end (k : nat) :
  RegExp.alternative (6 + k) (chars "(/|$)")
  = Some (RegExp.Group 0 (RegExp.Alt (RegExp.Chr "/") RegExp.Eol), []).
Proof. reflexivity. Qed.

Lemma alternative_end (k : nat) : RegExp.alternative (S k) [] = Some (RegExp.Empty, []).
Proof. reflexivity. Qed.

Lemma number_literal_then (text : list ascii) (r : RegExp.re) (next : nat) :
  r <> RegExp.Empty ->
  RegExp.number (literal_then text r) next =
    (literal_then text (RegExp.number r next).1, (RegExp.number r next).2).
Proof.
  intros Hr. induction text as [|c text IH].
  { cbn [literal_then fold_right]. now destruct (RegExp.number r next). }
  cbn [literal_then fold_right].
  change (fold_right _ r text) with (literal_then text r).
  change (fold_right _ (RegExp.number r next).1 text)
    with (literal_then text (RegExp.number r next).1).
  assert (Hne : forall r', r' <> RegExp.Empty -> literal_then text r' <> RegExp.Empty).
  { intros r' Hr'. destruct text as [|d text]; [exact Hr' |].
    cbn [literal_then fold_right]. unfold RegExp.seq.
    now destruct (fold_right _ r' text). }
  assert (Hseq : forall r', r' <> RegExp.Empty ->
            RegExp.seq (RegExp.Chr c) (literal_then text r')
            = RegExp.Seq (RegExp.Chr c) (literal_then text r')).
  { intros r' Hr'. specialize (Hne r' Hr'). unfold RegExp.seq.
    now destruct (literal_then text r'). }
  rewrite (Hseq r Hr). cbn [RegExp.number]. rewrite IH. cbn [fst snd].
  rewrite Hseq; [reflexivity |].
  destruct r; try contradiction; cbn; try discriminate;
    repeat (match goal with |- context [let '(_, _) := ?x in _] => destruct x end);
    discriminate.
Qed.

Lemma disjunction_unfold (n : nat) (s : list ascii) :
  RegExp.disjunction (S n) s =
    match RegExp.alternative n s with
    | Some (a, "|"%char :: s') =>
        match RegExp.disjunction n s' with
        | Some (b, s'') => Some (RegExp.Alt a b, s'')
        | None => None
        end
    | other => other
    end.
Proof. reflexivity. Qed.

Lemma alternative_caret (n : nat) (s : list ascii) :
  RegExp.alternative (S (S n)) ("^"%char :: s) =
    match RegExp.alternative (S n) s with
    | Some (b, s'') => Some (RegExp.seq RegExp.Bol b, s'')
    | None => None
    end.
Proof. reflexivity. Qed.

Lemma disjunction_anchored (text tail : list ascii) (r : RegExp.re) (n : nat) :
  forallb plain text = true ->
  (forall a, RegExp.quantified a tail = Some (a, tail)) ->
  RegExp.alternative (S n) tail = Some (r, []) ->
  forall fuel, fuel = S (S (S (length text + n))) ->
    RegExp.disjunction fuel ("^"%char :: text ++ tail)
    = Some (RegExp.seq RegExp.Bol (literal_then text r), []).
Proof.
  intros Hplain Htail Hn fuel ->.
  rewrite disjunction_unfold, alternative_caret.
  rewrite (alternative_literal text tail [] r (S n) Hplain Htail Hn);
    [reflexivity | lia].
Qed.

Lemma chars_length (s : string) : length (chars s) = String.length s.
Proof. induction s as [|c s IH]; [reflexivity | simpl; now rewrite IH]. Qed.

(** [new RegExp(`^${name}(/|$)`)] and [new RegExp(`^${name}`)] for a name of
    plain characters. *)
Lemma RegExp_new_wholeSegment (name : string) :
  plainName name -> RegExp_new ("^" +:+ name +:+ "(/|$)") = Ok (wholeSegment name).
Proof.
  intros Hplain. unfold RegExp_new, RegExp.make, RegExp.read.
  change (chars ("^" +:+ name +:+ "(/|$)"))
    with ("^"%char :: chars (name +:+ "(/|$)")).
  rewrite chars_app.
  rewrite (disjunction_anchored (chars name) (chars "(/|$)")
             (RegExp.Group 0 (RegExp.Alt (RegExp.Chr "/") RegExp.Eol))
             (5 + (2 * length (chars name) + 13)) Hplain).
  - unfold wholeSegment. do 2 f_equal.
    assert (Hseq : RegExp.seq RegExp.Bol
                     (literal_then (chars name)
                        (RegExp.Group 0 (RegExp.Alt (RegExp.Chr "/") RegExp.Eol)))
                   = RegExp.Seq RegExp.Bol
                       (literal_then (chars name)
                          (RegExp.Group 0 (RegExp.Alt (RegExp.Chr "/") RegExp.Eol)))).
    { unfold RegExp.seq. destruct (chars name) as [|c text]; [reflexivity |].
      cbn [literal_then fold_right]. unfold RegExp.seq at 1.
      now destruct (fold_right _ _ text). }
    rewrite Hseq. cbn [RegExp.number]. rewrite number_literal_then; [| discriminate].
    reflexivity.
  - reflexivity.
  - apply (alternative_segment_end (2 * length (chars name) + 13)).
  - cbn [length]. rewrite length_app.
    change (length (chars "(/|$)")) with 5. lia.
Qed.

Lemma groups_in_seq (a b : RegExp.re) :
  RegExp.groups_in (RegExp.seq a b) = RegExp.groups_in a ++ RegExp.groups_in b.
Proof. destruct b; cbn; try reflexivity. now rewrite app_nil_r. Qed.

Lemma groups_in_literal_then (text : list ascii) (r : RegExp.re) :
  RegExp.groups_in (literal_then text r) = RegExp.groups_in r.
Proof.
  induction text as [|c text IH]; [reflexivity |].
  cbn [literal_then fold_right]. rewrite groups_in_seq. exact IH.
Qed.

Lemma number_without_groups (r : RegExp.re) :
  RegExp.groups_in r = [] -> forall next, RegExp.number r next = (r, next).
Proof.
  induction r as [| | | | | | | a IHa b IHb | a IHa b IHb | lo hi g a IHa | i a IHa];
    intros H next; try reflexivity; cbn [RegExp.groups_in] in H.
  - apply app_eq_nil in H as [Ha Hb]. cbn [RegExp.number].
    now rewrite (IHa Ha), (IHb Hb).
  - apply app_eq_nil in H as [Ha Hb]. cbn [RegExp.number].
    now rewrite (IHa Ha), (IHb Hb).
  - cbn [RegExp.number]. now rewrite (IHa H).
  - discriminate.
Qed.

Lemma RegExp_new_leading (name : string) :
  plainName name -> RegExp_new ("^" +:+ name) = Ok (leading name).
Proof.
  intros Hplain. unfold RegExp_new, RegExp.make, RegExp.read.
  change (chars ("^" +:+ name)) with ("^"%char :: chars name).
  rewrite <- (app_nil_r (chars name)) at 2.
  rewrite (disjunction_anchored (chars name) [] RegExp.Empty
             (2 * length (chars name) + 3) Hplain).
  - unfold leading. do 2 f_equal.
    rewrite number_without_groups; [reflexivity |].
    now rewrite groups_in_seq, groups_in_literal_then.
  - reflexivity.
  - reflexivity.
  - cbn [length]. lia.
Qed.

(** *** Matching the patterns built from the name of a rule *)

Lemma m_seq (f : RegExp.flags) (a b : RegExp.re) (st : RegExp.state)
    (k : RegExp.state -> option RegExp.state) :
  RegExp.m f (RegExp.seq a b) st k
  = RegExp.m f a st (fun st' => RegExp.m f b st' k).
Proof. destruct b; reflexivity. Qed.

Lemma prev_after_cons (p : option ascii) (c : ascii) (text : list ascii) :
  prev_after p (c :: text) = prev_after (Some c) text.
Proof.
  unfold prev_after. cbn [rev]. destruct (rev text); reflexivity.
Qed.

Lemma m_literal_then (text : list ascii) (r : RegExp.re) :
  forall (p : option ascii) (s : list ascii) (caps : list (nat * list ascii))
         (k : RegExp.state -> option RegExp.state),
    RegExp.m RegExp.no_flags (literal_then text r)
      {| RegExp.prev := p; RegExp.rest := s; RegExp.caps := caps |} k =
    if Js.starts_with text s
    then RegExp.m RegExp.no_flags r
           {| RegExp.prev := prev_after p text;
              RegExp.rest := skipn (length text) s; RegExp.caps := caps |} k
    else None.
Proof.
  induction text as [|c text IH]; intros p s caps k; [reflexivity |].
  cbn [literal_then fold_right].
  change (fold_right _ r text) with (literal_then text r).
  rewrite m_seq. cbn [RegExp.m]. unfold RegExp.step.
  cbn [RegExp.rest RegExp.caps RegExp.canonicalize RegExp.ignoreCase RegExp.no_flags].
  destruct s as [|x s]; [reflexivity |].
  cbn [Js.starts_with length skipn]. unfold Char.eqb.
  rewrite (Ascii.eqb_sym c x). destruct (Ascii.eqb x c) eqn:E; [| reflexivity].
  apply Ascii.eqb_eq in E. subst x. cbn [andb].
  rewrite IH, prev_after_cons. reflexivity.
Qed.

(** A pattern that starts with [^] matches nowhere after the first
    position. *)
Lemma search_anchored (r : RegExp.re) (s : list ascii) :
  forall (c : ascii) (seen : list ascii),
    RegExp.search {| RegExp.source := RegExp.Seq RegExp.Bol r;
                     RegExp.fl := RegExp.no_flags |} (Some c) seen s = None.
Proof.
  induction s as [|x s IH]; intros c seen; rewrite search_unfold;
    unfold RegExp.attempt; cbn; [reflexivity | apply IH].
Qed.

Lemma attempt_seq_bol (r : RegExp.re) (p : option ascii) (s : list ascii) :
  RegExp.attempt {| RegExp.source := RegExp.seq RegExp.Bol r;
                    RegExp.fl := RegExp.no_flags |} p s
  = RegExp.attempt {| RegExp.source := RegExp.Seq RegExp.Bol r;
                      RegExp.fl := RegExp.no_flags |} p s.
Proof. unfold RegExp.attempt. cbn [RegExp.source RegExp.fl]. now rewrite m_seq. Qed.

Lemma seq_bol (r : RegExp.re) (s : list ascii) :
  forall (p : option ascii) (seen : list ascii),
    RegExp.search {| RegExp.source := RegExp.seq RegExp.Bol r;
                     RegExp.fl := RegExp.no_flags |} p seen s
    = RegExp.search {| RegExp.source := RegExp.Seq RegExp.Bol r;
                       RegExp.fl := RegExp.no_flags |} p seen s.
Proof.
  induction s as [|x s IH]; intros p seen;
    rewrite (search_unfold {| RegExp.source := RegExp.seq _ _; RegExp.fl := _ |}),
            (search_unfold {| RegExp.source := RegExp.Seq _ _; RegExp.fl := _ |}),
            attempt_seq_bol;
    destruct (RegExp.attempt _ p _); try reflexivity.
  apply IH.
Qed.

Lemma m_segment_end (p : option ascii) (t : list ascii) :
  RegExp.m RegExp.no_flags segment_end
    {| RegExp.prev := p; RegExp.rest := t; RegExp.caps := [] |} Some
  = None <-> segment_ends t = false.
Proof.
  unfold segment_end. cbn [RegExp.m]. unfold RegExp.step, RegExp.guard.
  cbn [RegExp.rest RegExp.canonicalize RegExp.ignoreCase RegExp.no_flags].
  destruct t as [|c t]; cbn; [split; discriminate |].
  destruct (Char.eqb c "/"); cbn; split; try discriminate; reflexivity.
Qed.

Lemma wholeSegment_test (name : string) (s : list ascii) :
  RegExp.test (wholeSegment name) s
  = Js.starts_with (chars name) s && segment_ends (skipn (length (chars name)) s).
Proof.
  unfold RegExp.test, RegExp.exec. rewrite search_unfold.
  unfold RegExp.attempt, wholeSegment. cbn [RegExp.source RegExp.fl RegExp.m].
  unfold RegExp.guard at 1. cbn [RegExp.at_line_start RegExp.prev].
  rewrite m_literal_then.
  destruct (Js.starts_with (chars name) s) eqn:Es; cbn [andb].
  - destruct (segment_ends (skipn (length (chars name)) s)) eqn:Ee.
    + destruct (RegExp.m RegExp.no_flags segment_end _ Some) as [st |] eqn:Em;
        [reflexivity |].
      apply (proj1 (m_segment_end _ _)) in Em. congruence.
    + rewrite (proj2 (m_segment_end _ _) Ee).
      destruct s as [|c s]; [reflexivity |]. now rewrite search_anchored.
  - destruct s as [|c s]; [reflexivity |]. now rewrite search_anchored.
Qed.

Lemma starts_with_segment (name s : list ascii) :
  Js.starts_with name s && segment_ends (skipn (length name) s)
  = Path.seg_eqb s name || Js.starts_with (name ++ ["/"%char]) s.
Proof.
  revert s. induction name as [|c name IH]; intros s.
  - cbn [Js.starts_with length skipn andb app].
    destruct s as [|x s]; [reflexivity |].
    cbn [segment_ends Js.starts_with]. rewrite seg_eqb_false; [| discriminate].
    cbn [orb]. now rewrite andb_true_r.
  - destruct s as [|x s]; [reflexivity |].
    cbn [Js.starts_with length skipn app]. destruct (Char.eqb c x) eqn:E.
    + apply char_eqb_eq in E. subst x. cbn [andb]. rewrite IH. f_equal.
      unfold Path.seg_eqb.
      destruct (List.list_eq_dec ascii_dec s name) as [-> | Hne];
        destruct (List.list_eq_dec ascii_dec _ _) as [He | He];
        try reflexivity; [contradiction | injection He as ->; contradiction].
    + cbn [andb]. rewrite seg_eqb_false; [reflexivity |].
      intros [= -> _]. now rewrite char_eqb_refl in E.
Qed.

Lemma string_eqb_seg (a b : string) : String.eqb a b = Path.seg_eqb (chars a) (chars b).
Proof.
  destruct (String.eqb a b) eqn:E.
  - apply String.eqb_eq in E. subst. unfold Path.seg_eqb.
    now destruct (List.list_eq_dec ascii_dec _ _).
  - symmetry. apply seg_eqb_false. intros H. apply chars_inj in H. subst.
    now rewrite String.eqb_refl in E.
Qed.

(** The filter of the modules pass, for a rule with a plain name: the name
    is the specifier, or the specifier goes on with a slash. *)
Lemma matches_wholeSegment (name s : string) :
  matches s (wholeSegment name) = isSegmentPrefix name s.
Proof.
  unfold matches, isSegmentPrefix, startsWith.
  rewrite wholeSegment_test, starts_with_segment, string_eqb_seg, chars_app.
  reflexivity.
Qed.

Lemma substitution_plain (groups : nat) (w : RegExp.found) (template : list ascii) :
  forallb (fun c => negb (Char.eqb c "$")) template = true ->
  RegExp.substitution groups w template = template.
Proof.
  induction template as [|c t IH]; intros H; [reflexivity |].
  simpl in H. apply andb_true_iff in H as [Hc Ht].
  cbn [RegExp.substitution]. rewrite Hc. now rewrite (IH Ht).
Qed.

(** The replacement of the modules pass, for a rule with a plain name and a
    path without dollar signs: the path takes the place of the name. *)
Lemma replace_leading (name s template : string) :
  startsWith s name = true ->
  dollarFree template ->
  replace s (leading name) template
  = template +:+ str (Js.substr (String.length name) (chars s)).
Proof.
  intros Hs Ht. unfold replace, RegExp.replace, RegExp.exec.
  unfold leading at 1. rewrite seq_bol, search_unfold.
  unfold RegExp.attempt. cbn [RegExp.source RegExp.fl RegExp.m].
  unfold RegExp.guard at 1. cbn [RegExp.at_line_start RegExp.prev].
  rewrite m_literal_then. unfold startsWith in Hs. rewrite Hs.
  cbn [RegExp.m RegExp.rest RegExp.caps RegExp.before RegExp.after rev app].
  rewrite (substitution_plain _ _ _ Ht), str_app, str_chars.
  unfold Js.substr. now rewrite chars_length.
Qed.

Lemma withRegex_plain (rules : list ModuleRule) :
  (forall r, In r rules -> plainName (name r)) ->
  withRegex rules = Ok (map (fun r => (r, wholeSegment (name r))) rules).
Proof.
  induction rules as [|r rules IH]; intros H; [reflexivity |].
  cbn [withRegex map]. rewrite RegExp_new_wholeSegment; [| apply H; now left].
  cbn [bind_result]. rewrite IH; [reflexivity |].
  intros r' Hr'. apply H. now right.
Qed.

Lemma find_with_regex (s : string) (rules : list ModuleRule) :
  List.find (fun md : ModuleRule * RegExp.t => startsWith s (name md.1))
    (map (fun r => (r, wholeSegment (name r))) rules)
  = option_map (fun r => (r, wholeSegment (name r)))
      (List.find (fun r => startsWith s (name r)) rules).
Proof.
  induction rules as [|r rules IH]; [reflexivity |].
  cbn [map List.find fst]. destruct (startsWith s (name r)); [reflexivity | exact IH].
Qed.

(** X24.  What the modules pass does with plain names and no pattern of
    the rule's own: when the first rule whose name the specifier starts with
    also has that name as a whole path segment of the specifier, the path of
    the rule takes the place of the name. *)
Theorem modules_pass_plain_rules (options : TransformerOptions)
    (specifiers : list string) (s : string) (r : ModuleRule) :
  (forall r', In r' (modules options) -> plainName (name r')) ->
  List.find (fun r' => startsWith s (name r')) (modules options) = Some r ->
  isSegmentPrefix (name r) s = true ->
  find r = None ->
  dollarFree (rule_path r) ->
  modulesPass options [ImportDeclaration specifiers s]
  = Ok [ImportDeclaration specifiers
          (rule_path r +:+ str (Js.substr (String.length (name r)) (chars s)))].
Proof.
  intros Hplain Hfind Hseg Hnone Hpath. unfold modulesPass.
  destruct (modules options) as [|r0 rules] eqn:Em; [discriminate |].
  rewrite (withRegex_plain _ Hplain). cbn [bind_result mapResult].
  unfold updateModule.
  destruct (find_some _ _ Hfind) as [Hin Hstarts].
  assert (Hex : existsb (fun md : ModuleRule * RegExp.t => matches s md.2)
                  (map (fun r => (r, wholeSegment (name r))) (r0 :: rules)) = true).
  { apply existsb_exists. exists (r, wholeSegment (name r)). split.
    - apply in_map_iff. now exists r.
    - cbn [snd]. now rewrite matches_wholeSegment. }
  rewrite Hex. unfold applyModule. rewrite find_with_regex, Hfind.
  cbn [option_map]. rewrite Hnone.
  rewrite (RegExp_new_leading _ (Hplain r Hin)). cbn [bind_result].
  now rewrite (replace_leading _ _ _ Hstarts Hpath).
Qed.

Example modules_pass_plain_rules_sample :
  modulesPass {| extension_ignore := []; modules := [Fixture.utilsRule] |}
    [ImportDeclaration ["x"] "utils/helpers"]
  = Ok [ImportDeclaration ["x"] "./shared/utils/helpers"].
Proof. vm_compute. reflexivity. Qed.

(** ** Further properties of [src/transformer.js] *)

(** *** Patterns that are not read *)

Lemma openAfter_app (a b : list ascii) (d : nat) :
  openAfter d (a ++ b) =
    match openAfter d a with Some d' => openAfter d' b | None => None end.
Proof.
  revert d. induction a as [|c a IH]; intros d; [reflexivity |].
  cbn [app openAfter].
  destruct (Char.eqb c "("); [apply IH |].
  destruct (Char.eqb c ")"); [| apply IH].
  destruct d; [reflexivity | apply IH].
Qed.

Lemma closed_nil : closed [].
Proof. intros d. reflexivity. Qed.

Lemma closed_app (a b : list ascii) : closed a -> closed b -> closed (a ++ b).
Proof. intros Ha Hb d. now rewrite openAfter_app, Ha. Qed.

Lemma closed_group (u : list ascii) :
  closed u -> closed ("("%char :: u ++ [")"%char]).
Proof.
  intros Hu d. change (openAfter d ("("%char :: u ++ [")"%char]))
    with (openAfter (S d) (u ++ [")"%char])).
  now rewrite openAfter_app, Hu.
Qed.

Lemma closed_other (c : ascii) :
  Char.eqb c "(" = false -> Char.eqb c ")" = false -> closed [c].
Proof. intros H1 H2 d. cbn [openAfter]. now rewrite H1, H2. Qed.

Lemma simple_cases (c : ascii) :
  simpleCharacter c = true ->
  plain c = true
  \/ In c ["("; ")"; "|"; "."; "^"; "$"]%char.
Proof.
  unfold simpleCharacter. intros H. apply orb_true_iff in H as [H | H]; [now left | right].
  apply existsb_exists in H as (x & Hin & Hx). apply char_eqb_eq in Hx as ->. exact Hin.
Qed.

Lemma plain_no_parenthesis (c : ascii) :
  plain c = true -> Char.eqb c "(" = false /\ Char.eqb c ")" = false /\ Char.eqb c "|" = false.
Proof.
  intros H. destruct c as [[] [] [] [] [] [] [] []]; try discriminate; repeat split.
Qed.

Lemma quantified_simple (a : RegExp.re) (s : list ascii) :
  forallb simpleCharacter s = true -> RegExp.quantified a s = Some (a, s).
Proof.
  destruct s as [|c s]; [reflexivity |]. cbn [forallb]. intros H.
  apply andb_true_iff in H as [H _].
  destruct c as [[] [] [] [] [] [] [] []]; try reflexivity; discriminate.
Qed.

Lemma disjunction_step (n : nat) (s : list ascii) :
  RegExp.disjunction (S n) s =
    match RegExp.alternative n s with
    | Some (a, c :: s') =>
        if Char.eqb c "|" then
          match RegExp.disjunction n s' with
          | Some (b, s'') => Some (RegExp.Alt a b, s'')
          | None => None
          end
        else Some (a, c :: s')
    | other => other
    end.
Proof.
  cbn [RegExp.disjunction].
  destruct (RegExp.alternative n s) as [[a [|c s']] |]; try reflexivity.
  destruct c as [[] [] [] [] [] [] [] []]; reflexivity.
Qed.

Lemma alternative_step (n : nat) (c : ascii) (s : list ascii) :
  RegExp.alternative (S n) (c :: s) =
    if Char.eqb c "|" || Char.eqb c ")" then Some (RegExp.Empty, c :: s)
    else
      match RegExp.term n (c :: s) with
      | Some (a, s') =>
          match RegExp.alternative n s' with
          | Some (b, s'') => Some (RegExp.seq a b, s'')
          | None => None
          end
      | None => None
      end.
Proof.
  cbn [RegExp.alternative].
  destruct c as [[] [] [] [] [] [] [] []]; reflexivity.
Qed.

Lemma term_group (n : nat) (s : list ascii) :
  forallb simpleCharacter s = true ->
  RegExp.term (S n) ("("%char :: s) =
    match RegExp.disjunction n s with
    | Some (a, c :: s') =>
        if Char.eqb c ")" then RegExp.quantified (RegExp.Group 0 a) s' else None
    | _ => None
    end.
Proof.
  intros H.
  assert (E : RegExp.term (S n) ("("%char :: s) =
              match RegExp.disjunction n s with
              | Some (a, ")"%char :: s') => RegExp.quantified (RegExp.Group 0 a) s'
              | _ => None
              end).
  { destruct s as [|c s]; [reflexivity |].
    cbn [forallb] in H. apply andb_true_iff in H as [H _].
    destruct c as [[] [] [] [] [] [] [] []]; try reflexivity; discriminate. }
  rewrite E. destruct (RegExp.disjunction n s) as [[a [|c s']] |]; try reflexivity.
  destruct c as [[] [] [] [] [] [] [] []]; reflexivity.
Qed.

Lemma forallb_rest {A} (f : A -> bool) (u s : list A) :
  forallb f (u ++ s) = true -> forallb f s = true.
Proof. rewrite forallb_app. intros H. now apply andb_true_iff in H as [_ H]. Qed.

(** What the reader of patterns takes from a pattern of simple characters
    closes each parenthesis it opens. *)
Lemma reader_closes (n : nat) :
  (forall s r s', forallb simpleCharacter s = true ->
     RegExp.disjunction n s = Some (r, s') -> exists u, s = u ++ s' /\ closed u)
  /\ (forall s r s', forallb simpleCharacter s = true ->
        RegExp.alternative n s = Some (r, s') -> exists u, s = u ++ s' /\ closed u)
  /\ (forall s r s', forallb simpleCharacter s = true ->
        RegExp.term n s = Some (r, s') -> exists u, s = u ++ s' /\ closed u).
Proof.
  induction n as [|n (IHd & IHa & IHt)]; [repeat split; discriminate |].
  split; [| split]; intros s r s' Hs H.
  - rewrite disjunction_step in H.
    destruct (RegExp.alternative n s) as [[a t] |] eqn:Ea; [| discriminate].
    destruct (IHa _ _ _ Hs Ea) as (u1 & -> & Hu1).
    destruct t as [|c t]; [injection H as <- <-; now exists u1 |].
    destruct (Char.eqb c "|") eqn:Ec; [| injection H as <- <-; now exists u1].
    apply char_eqb_eq in Ec as ->.
    destruct (RegExp.disjunction n t) as [[b t'] |] eqn:Ed; [| discriminate].
    injection H as <- <-.
    assert (Ht : forallb simpleCharacter t = true).
    { apply forallb_rest in Hs. cbn [forallb] in Hs.
      now apply andb_true_iff in Hs as [_ Hs]. }
    destruct (IHd _ _ _ Ht Ed) as (u2 & -> & Hu2).
    exists (u1 ++ "|"%char :: u2). split.
    + now rewrite <- app_assoc.
    + apply closed_app; [exact Hu1 |].
      change ("|"%char :: u2) with (["|"%char] ++ u2).
      apply closed_app; [now apply closed_other | exact Hu2].
  - destruct s as [|c s].
    + injection H as <- <-. exists (@nil ascii). split; [reflexivity | apply closed_nil].
    + rewrite alternative_step in H.
      destruct (Char.eqb c "|" || Char.eqb c ")").
      * injection H as <- <-. exists (@nil ascii). split; [reflexivity | apply closed_nil].
      * destruct (RegExp.term n (c :: s)) as [[a t] |] eqn:Et; [| discriminate].
        destruct (RegExp.alternative n t) as [[b t'] |] eqn:Ea; [| discriminate].
        injection H as <- <-.
        destruct (IHt _ _ _ Hs Et) as (u1 & E1 & Hu1).
        assert (Ht : forallb simpleCharacter t = true).
        { rewrite E1 in Hs. now apply forallb_rest in Hs. }
        destruct (IHa _ _ _ Ht Ea) as (u2 & -> & Hu2).
        exists (u1 ++ u2). split; [now rewrite <- app_assoc | now apply closed_app].
  - destruct s as [|c s]; [discriminate |].
    cbn [forallb] in Hs. apply andb_true_iff in Hs as [Hc Hs].
    destruct (simple_cases _ Hc) as [Hp | Hin].
    + rewrite (term_plain _ _ _ Hp), (quantified_simple _ _ Hs) in H.
      injection H as <- <-. exists [c]. split; [reflexivity |].
      apply plain_no_parenthesis in Hp as (H1 & H2 & _). now apply closed_other.
    + cbn [In] in Hin.
      destruct Hin as [<- | [<- | [<- | [<- | [<- | [<- | Hf]]]]]];
        try discriminate; try contradiction.
      * rewrite (term_group _ _ Hs) in H.
        destruct (RegExp.disjunction n s) as [[a [|c t]] |] eqn:Ed; try discriminate.
        destruct (Char.eqb c ")") eqn:Ec; [| discriminate].
        apply char_eqb_eq in Ec as ->.
        destruct (IHd _ _ _ Hs Ed) as (u & -> & Hu).
        apply forallb_rest in Hs. cbn [forallb] in Hs.
        apply andb_true_iff in Hs as [_ Hs].
        rewrite (quantified_simple _ _ Hs) in H. injection H as <- <-.
        exists ("("%char :: u ++ [")"%char]). split.
        -- cbn [app]. now rewrite <- app_assoc.
        -- now apply closed_group.
      * change (RegExp.term (S n) ("."%char :: s)) with (RegExp.quantified RegExp.Any s) in H.
        rewrite (quantified_simple _ _ Hs) in H. injection H as <- <-.
        exists ["."%char]. split; [reflexivity | now apply closed_other].
      * injection H as <- <-.
        exists ["^"%char]. split; [reflexivity | now apply closed_other].
      * injection H as <- <-.
        exists ["$"%char]. split; [reflexivity | now apply closed_other].
Qed.

(** A pattern of simple characters whose parentheses do not match is not
    read. *)
Lemma unmatched_parentheses_unread (pattern : string) :
  simplePattern pattern = true ->
  parenthesesMatch pattern = false ->
  RegExp_new pattern = Throw (SyntaxError pattern).
Proof.
  intros Hs Hm. unfold RegExp_new, RegExp.make, RegExp.read.
  destruct (RegExp.disjunction _ (chars pattern)) as [[r [|c t]] |] eqn:E; try reflexivity.
  exfalso. destruct (reader_closes (3 * S (length (chars pattern)))) as (Hd & _).
  destruct (Hd _ _ _ Hs E) as (u & Eu & Hu).
  unfold parenthesesMatch in Hm. rewrite Eu, app_nil_r, Hu in Hm. discriminate.
Qed.

Lemma segment_end_closed : closed (chars "(/|$)").
Proof. intros d. reflexivity. Qed.

(** The pattern built from a rule name of simple characters whose
    parentheses do not match is not read. *)
Lemma rule_pattern_unread (n : string) :
  simplePattern n = true ->
  parenthesesMatch n = false ->
  RegExp_new ("^" +:+ n +:+ "(/|$)") = Throw (SyntaxError ("^" +:+ n +:+ "(/|$)")).
Proof.
  intros Hs Hm. apply unmatched_parentheses_unread.
  - unfold simplePattern in *. rewrite !chars_app, !forallb_app, Hs. reflexivity.
  - unfold parenthesesMatch in *. rewrite !chars_app.
    change (chars "^" ++ chars n ++ chars "(/|$)")
      with ("^"%char :: chars n ++ chars "(/|$)").
    change (openAfter 0 ("^"%char :: chars n ++ chars "(/|$)"))
      with (openAfter 0 (chars n ++ chars "(/|$)")).
    rewrite openAfter_app.
    destruct (openAfter 0 (chars n)) as [[|d] |];
      [discriminate | now rewrite segment_end_closed | reflexivity].
Qed.

Lemma RegExp_all_throws (patterns : list string) (p : string) (e : Error) :
  In p patterns -> RegExp_new p = Throw e -> exists e', RegExp_all patterns = Throw e'.
Proof.
  intros Hin Hp. induction patterns as [|x patterns IH]; [destruct Hin |].
  cbn [RegExp_all]. unfold bind_result.
  destruct Hin as [-> | Hin].
  - rewrite Hp. now exists e.
  - destruct (RegExp_new x); [| eexists; reflexivity].
    destruct (IH Hin) as [e' ->]. now exists e'.
Qed.

Lemma matches_leading_word (s : string) :
  matches s Literal.leading_word =
    match chars s with c :: _ => Char.is_word c | [] => false end.
Proof.
  unfold matches, RegExp.test, RegExp.exec. rewrite search_unfold.
  unfold RegExp.attempt, Literal.leading_word.
  cbn [RegExp.source RegExp.fl RegExp.m].
  unfold RegExp.guard at 1. cbn [RegExp.at_line_start RegExp.prev].
  unfold RegExp.step. cbn [RegExp.rest].
  destruct (chars s) as [|c s']; [reflexivity |].
  unfold RegExp.class_has. cbn [existsb RegExp.item_has RegExp.ignoreCase
    RegExp.no_flags andb orb xorb].
  rewrite !orb_false_r.
  destruct (Char.is_word c); [reflexivity |].
  now rewrite search_anchored.
Qed.

Lemma startsWith_dot (s : string) :
  startsWith s "." = match chars s with c :: _ => Char.eqb c "." | [] => false end.
Proof.
  unfold startsWith. cbn [chars Js.starts_with].
  destruct (chars s) as [|c s']; [reflexivity |].
  cbn [Js.starts_with]. rewrite andb_true_r.
  unfold Char.eqb. apply Ascii.eqb_sym.
Qed.

(** The filter of the extension pass, read on the first character. *)
Lemma needsPathUpdate_first_character (ignoreListForExt : list RegExp.t) (src : string) :
  needsPathUpdate ignoreListForExt (Some src)
  = negb (existsb (matches src) ignoreListForExt) && startsWithDotOrWord src.
Proof.
  unfold needsPathUpdate, startsWithDotOrWord.
  rewrite matches_leading_word, startsWith_dot.
  destruct src as [|c src]; [now rewrite andb_false_r |].
  reflexivity.
Qed.

Lemma mapResult_length {A B} (f : A -> Result B) (l : list A) (out : list B) :
  mapResult f l = Ok out -> length out = length l.
Proof.
  revert out. induction l as [|a l IH]; intros out H.
  - now injection H as <-.
  - cbn [mapResult] in H. unfold bind_result in H.
    destruct (f a) as [b |]; [| discriminate].
    destruct (mapResult f l) as [bs |]; [| discriminate].
    injection H as <-. cbn [length]. now rewrite (IH bs eq_refl).
Qed.

Lemma mapResult_map {A B C} (f : A -> Result B) (g : B -> C) (h : A -> C)
    (l : list A) (out : list B) :
  (forall a b, f a = Ok b -> g b = h a) ->
  mapResult f l = Ok out -> map g out = map h l.
Proof.
  intros Hf. revert out. induction l as [|a l IH]; intros out H.
  - now injection H as <-.
  - cbn [mapResult] in H. unfold bind_result in H.
    destruct (f a) as [b |] eqn:Ea; [| discriminate].
    destruct (mapResult f l) as [bs |]; [| discriminate].
    injection H as <-. cbn [map]. now rewrite (Hf a b Ea), (IH bs eq_refl).
Qed.

Lemma mapResult_throws {A B} (f : A -> Result B) (l : list A) (a : A) (e : Error) :
  In a l -> f a = Throw e -> exists e', mapResult f l = Throw e'.
Proof.
  intros Hin Ha. induction l as [|x l IH]; [destruct Hin |].
  cbn [mapResult]. unfold bind_result.
  destruct Hin as [-> | Hin].
  - rewrite Ha. now exists e.
  - destruct (f x); [| now eexists].
    destruct (IH Hin) as [e' ->]. now exists e'.
Qed.

Lemma withRegex_fst (rules : list ModuleRule) (mods : list (ModuleRule * RegExp.t)) :
  withRegex rules = Ok mods -> map fst mods = rules.
Proof.
  revert mods. induction rules as [|r rules IH]; intros mods H.
  - now injection H as <-.
  - cbn [withRegex] in H. unfold bind_result in H.
    destruct (RegExp_new _) as [x |]; [| discriminate].
    destruct (withRegex rules) as [xs |]; [| discriminate].
    injection H as <-. cbn [map fst]. now rewrite (IH xs eq_refl).
Qed.

Lemma withRegex_throws (rules : list ModuleRule) (r : ModuleRule) (e : Error) :
  In r rules -> RegExp_new ("^" +:+ name r +:+ "(/|$)") = Throw e ->
  exists e', withRegex rules = Throw e'.
Proof.
  intros Hin Hr. induction rules as [|x rules IH]; [destruct Hin |].
  cbn [withRegex]. unfold bind_result.
  destruct Hin as [-> | Hin].
  - rewrite Hr. now exists e.
  - destruct (RegExp_new ("^" +:+ name x +:+ "(/|$)")); [| eexists; reflexivity].
    destruct (IH Hin) as [e' ->]. now exists e'.
Qed.

Lemma find_fst (f : ModuleRule -> bool) (mods : list (ModuleRule * RegExp.t)) :
  List.find f (map fst mods) = None ->
  List.find (fun md : ModuleRule * RegExp.t => f md.1) mods = None.
Proof.
  induction mods as [|md mods IH]; [reflexivity |].
  cbn [map List.find]. destruct (f md.1); [discriminate | exact IH].
Qed.

Lemma dirname_of_sibling (n : list ascii) :
  n <> [] -> forallb Path.not_slash n = true ->
  Path.dirname (Path.dot :: Path.slash :: n) = [Path.dot].
Proof.
  intros Hn Hs. unfold Path.dirname.
  change (Path.dot :: Path.slash :: n) with ([Path.dot; Path.slash] ++ n).
  rewrite rev_app_distr.
  assert (Hd : Path.drop_while Path.is_slash (rev n ++ rev [Path.dot; Path.slash])
               = rev n ++ rev [Path.dot; Path.slash]).
  { destruct (rev n) as [|c r] eqn:Er.
    - destruct n; [now destruct Hn | now apply rev_cons_nonempty in Er].
    - cbn [app]. apply drop_while_head.
      assert (Hc : forallb Path.not_slash (c :: r) = true)
        by (rewrite <- Er, forallb_rev; exact Hs).
      cbn [forallb] in Hc. apply andb_true_iff in Hc as [Hc _].
      unfold Path.not_slash in Hc. now apply negb_true_iff in Hc. }
  rewrite Hd.
  assert (Hw : Path.drop_while Path.not_slash (rev n ++ rev [Path.dot; Path.slash])
               = [Path.slash; Path.dot]).
  { assert (Hr : forallb Path.not_slash (rev n) = true)
      by (rewrite forallb_rev; exact Hs).
    clear Hd. induction (rev n) as [|c r IH]; [reflexivity |].
    cbn [forallb] in Hr. apply andb_true_iff in Hr as [Hc Hr].
    cbn [app Path.drop_while]. rewrite Hc. now apply IH. }
  rewrite Hw. reflexivity.
Qed.

Lemma last_not_slash (n : list ascii) :
  n <> [] -> forallb Path.not_slash n = true ->
  forall pre, Path.ends_with_slash (pre ++ n) = false.
Proof.
  intros Hn Hs pre. unfold Path.ends_with_slash. rewrite rev_app_distr.
  destruct (rev n) as [|x r] eqn:Er.
  - destruct n; [now destruct Hn | now apply rev_cons_nonempty in Er].
  - cbn [app]. assert (Hx : forallb Path.not_slash (x :: r) = true)
      by (rewrite <- Er, forallb_rev; exact Hs).
    cbn [forallb] in Hx. apply andb_true_iff in Hx as [Hx _].
    unfold Path.not_slash in Hx. now apply negb_true_iff in Hx.
Qed.

Lemma join_dot_segment (n : list ascii) :
  regular_segment n -> Path.join [[Path.dot]; n] = n.
Proof.
  intros Hn. pose proof Hn as (Hne & Hs & Hd1 & Hd2).
  assert (Hf : filter Path.nonempty [[Path.dot]; n] = [[Path.dot]; n]).
  { destruct n; [now destruct Hne | reflexivity]. }
  unfold Path.join. rewrite Hf. cbn [Js.join].
  unfold Path.normalize. cbn [app].
  change (Path.is_absolute (Path.dot :: Path.slash :: n)) with false.
  cbn [negb app]. unfold Path.normalize_string.
  change (Path.dot :: Path.slash :: n) with ([Path.dot] ++ Path.slash :: n).
  rewrite (split_snoc [Path.dot] n Hs).
  change (Js.split Path.slash [Path.dot]) with [[Path.dot]].
  cbn [app fold_left].
  change (Path.normalize_step true [] [Path.dot]) with (@nil (list ascii)).
  rewrite (normalize_step_regular _ _ _ Hn). cbn [rev app Js.join].
  change (Path.dot :: Path.slash :: n) with ([Path.dot; Path.slash] ++ n).
  rewrite (last_not_slash n Hne Hs). rewrite app_nil_r.
  destruct n; [now destruct Hne | reflexivity].
Qed.

Lemma join_dot_regular (n : string) :
  regular_segment (chars n) -> path_join ["."; n] = n.
Proof.
  intros Hn. unfold path_join. cbn [map].
  change (chars ".") with [Path.dot].
  rewrite (join_dot_segment _ Hn). apply str_chars.
Qed.

Section MoreTransformFacts.

Variable cwd : string.
Variable pathExistsSync : string -> bool.
Variable getAbsPathInfoSync : string -> option AbsPathInfo.
Variable findFileSync : list string -> string -> option string.

Local Abbreviation resolver :=
  (updatePath cwd pathExistsSync getAbsPathInfoSync findFileSync).
Local Abbreviation transformer :=
  (transform cwd pathExistsSync getAbsPathInfoSync findFileSync).
Local Abbreviation addExtensions :=
  (extensionPass cwd pathExistsSync getAbsPathInfoSync findFileSync).

(** X1.  A specifier that resolves to a file is rewritten to the directory
    part of the specifier joined with the name the file has on disk, with
    "./" put back in front of a specifier that had it; so [./name] becomes
    "./" followed by the real file name. *)
Theorem file_target_takes_real_name (importPath base : string) (info : AbsPathInfo) :
  getAbsPathInfoSync (absPathOf cwd importPath base) = Some info ->
  isFile info = true ->
  regular_segment (chars (path_basename (path info))) ->
  resolver importPath base =
    (if marked importPath then "./" else "")
      +:+ path_join [path_dirname importPath; path_basename (path info)]
  /\ (forall n, n <> "" -> forallb Path.not_slash (chars n) = true ->
        importPath = "./" +:+ n ->
        resolver importPath base = "./" +:+ path_basename (path info)).
Proof.
  intros Hinfo Hfile Hreg.
  assert (Hgen : resolver importPath base =
            (if marked importPath then "./" else "")
              +:+ path_join [path_dirname importPath; path_basename (path info)]).
  { unfold updatePath, replacementOf. rewrite Hinfo, Hfile. now apply hotfix_join. }
  split; [exact Hgen |].
  intros n Hn Hs ->. rewrite Hgen.
  assert (Hm : marked ("./" +:+ n) = true).
  { unfold marked. rewrite (startsWith_app "./" n). apply orb_true_r. }
  rewrite Hm. f_equal.
  assert (Hd : path_dirname ("./" +:+ n) = ".").
  { unfold path_dirname. rewrite chars_app.
    change (chars "./" ++ chars n) with (Path.dot :: Path.slash :: chars n).
    rewrite dirname_of_sibling; [reflexivity | | exact Hs].
    intros E. apply Hn. apply chars_inj. now rewrite E. }
  rewrite Hd. now apply join_dot_regular.
Qed.

Lemma extensionPass_unchanged (ignoreListForExt : list RegExp.t) (base : string)
    (root : list Statement) (i : nat) (s : Statement) :
  root !! i = Some s ->
  needsPathUpdate ignoreListForExt (sourceOf s) = false ->
  addExtensions ignoreListForExt base root !! i = Some s.
Proof.
  intros Hi Hno. unfold extensionPass.
  rewrite !lookup_map, Hi. cbn [option_map]. f_equal.
  destruct s as [sp src' | decl sp [src' |] | ex src' | code];
    cbn [sourceOf] in Hno;
    unfold updateExportAll, updateExportNamed, updateImport;
    now rewrite ?Hno.
Qed.

(** X2.  The pass that adds the extensions only looks at specifiers that
    start with a dot or with a word character: a statement whose specifier
    is empty or starts with anything else (a scoped package, an absolute
    path) goes through it untouched, whatever is on disk. *)
Theorem other_specifiers_skip_extension_pass (ignoreListForExt : list RegExp.t)
    (base : string) (root : list Statement) (i : nat) (s : Statement) (src : string) :
  root !! i = Some s ->
  sourceOf s = Some src ->
  startsWithDotOrWord src = false ->
  addExtensions ignoreListForExt base root !! i = Some s.
Proof.
  intros Hi Hsrc Hno. apply extensionPass_unchanged; [exact Hi |].
  rewrite Hsrc, needsPathUpdate_first_character, Hno. apply andb_false_r.
Qed.

Lemma extension_updates_shape (ignoreListForExt : list RegExp.t) (base : string)
    (s : Statement) :
  shape (updateExportAll cwd pathExistsSync getAbsPathInfoSync findFileSync
           ignoreListForExt base
           (updateExportNamed cwd pathExistsSync getAbsPathInfoSync findFileSync
              ignoreListForExt base
              (updateImport cwd pathExistsSync getAbsPathInfoSync findFileSync
                 ignoreListForExt base s)))
  = shape s.
Proof.
  destruct s as [sp src | decl sp [src |] | ex src | code];
    unfold updateExportAll, updateExportNamed, updateImport;
    repeat match goal with |- context [if ?b then _ else _] => destruct b end;
    reflexivity.
Qed.

Lemma extensionPass_shape (ignoreListForExt : list RegExp.t) (base : string)
    (root : list Statement) :
  map shape (addExtensions ignoreListForExt base root) = map shape root.
Proof.
  unfold extensionPass. rewrite !map_map. apply map_ext.
  intros s. apply extension_updates_shape.
Qed.

Lemma updateModule_shape (mods : list (ModuleRule * RegExp.t)) (s s' : Statement) :
  updateModule mods s = Ok s' -> shape s' = shape s.
Proof.
  destruct s as [sp src | | |]; cbn [updateModule]; try (now intros [= <-]).
  destruct (existsb _ mods); [| now intros [= <-]].
  unfold bind_result. destruct (applyModule mods src); [| discriminate].
  now intros [= <-].
Qed.

Lemma modulesPass_shape (options : TransformerOptions) (root out : list Statement) :
  modulesPass options root = Ok out -> map shape out = map shape root.
Proof.
  unfold modulesPass. destruct (modules options) as [|r rules].
  - now intros [= <-].
  - unfold bind_result. destruct (withRegex (r :: rules)) as [mods |]; [| discriminate].
    apply mapResult_map. apply updateModule_shape.
Qed.

(** X3.  The transformation changes specifiers and nothing else: it gives
    back as many statements as it was given, each of the kind it had and
    with the names, declaration and code it had. *)
Theorem transform_changes_specifiers_only (file_path : string)
    (root out : list Statement) (options : TransformerOptions) :
  transformer file_path root options = Ok out ->
  map shape out = map shape root /\ length out = length root.
Proof.
  intros H. unfold transform, bind_result in H.
  destruct (RegExp_all (extension_ignore options)) as [ig |]; [| discriminate].
  apply modulesPass_shape in H. rewrite extensionPass_shape in H.
  split; [exact H |].
  rewrite <- (length_map shape out), <- (length_map shape root). now rewrite H.
Qed.

Lemma extensionPass_isImport (ignoreListForExt : list RegExp.t) (base : string)
    (root : list Statement) (i : nat) (s s' : Statement) :
  root !! i = Some s ->
  addExtensions ignoreListForExt base root !! i = Some s' ->
  isImport s' = isImport s.
Proof.
  intros Hi Hi'.
  pose proof (extensionPass_shape ignoreListForExt base root) as Hsh.
  apply (f_equal (fun l => l !! i)) in Hsh.
  rewrite !lookup_map, Hi, Hi' in Hsh. cbn [option_map] in Hsh.
  injection Hsh as Hsh. now destruct s, s'.
Qed.

(** X4.  The alias rules are applied to import declarations only: a
    re-export (or any other statement) comes out of the transformation as
    the pass that adds the extensions made it, whatever the rules of
    [options.modules] are. *)
Theorem reexports_are_never_remapped (file_path : string)
    (root out : list Statement) (options : TransformerOptions)
    (ignoreListForExt : list RegExp.t) (i : nat) (s : Statement) :
  RegExp_all (extension_ignore options) = Ok ignoreListForExt ->
  transformer file_path root options = Ok out ->
  root !! i = Some s ->
  isImport s = false ->
  out !! i = addExtensions ignoreListForExt (path_dirname file_path) root !! i.
Proof.
  intros Hre Htr Hi Hs. unfold transform, bind_result in Htr. rewrite Hre in Htr.
  set (mid := addExtensions ignoreListForExt (path_dirname file_path) root) in *.
  assert (Hmid : exists s', mid !! i = Some s').
  { unfold mid, extensionPass. rewrite !lookup_map, Hi. now eexists. }
  destruct Hmid as [s' Hs'].
  pose proof (extensionPass_isImport _ _ _ _ _ _ Hi Hs') as Hkind.
  rewrite Hs in Hkind. rewrite Hs'.
  unfold modulesPass in Htr. destruct (modules options) as [|r rules].
  - injection Htr as <-. exact Hs'.
  - unfold bind_result in Htr.
    destruct (withRegex (r :: rules)) as [mods |]; [| discriminate].
    destruct (mapResult_lookup _ _ _ _ _ Htr Hs') as (b & Hb & Hout).
    rewrite Hout. f_equal. destruct s'; cbn in Hkind; try discriminate;
      cbn [updateModule] in Hb; now injection Hb as <-.
Qed.

End MoreTransformFacts.

(** X5.  The rules are tried with a pattern built from their names but the
    rule to apply is looked up as a plain prefix: when a pattern accepts an
    import that starts with no rule name (a name with a "." in it does that),
    the transformation of the file throws. *)
Theorem accepted_import_without_prefix_throws (options : TransformerOptions)
    (mods : list (ModuleRule * RegExp.t)) (root : list Statement)
    (specifiers : list string) (importPath : string) :
  withRegex (modules options) = Ok mods ->
  existsb (fun md : ModuleRule * RegExp.t => matches importPath md.2) mods = true ->
  List.find (fun r => startsWith importPath (name r)) (modules options) = None ->
  In (ImportDeclaration specifiers importPath) root ->
  (exists e, modulesPass options root = Throw e)
  /\ modulesPass options [ImportDeclaration specifiers importPath]
     = Throw (TypeError "Cannot read properties of undefined (reading 'find')").
Proof.
  intros Hw Hex Hfind Hin.
  assert (Hone : updateModule mods (ImportDeclaration specifiers importPath)
                 = Throw (TypeError "Cannot read properties of undefined (reading 'find')")).
  { cbn [updateModule]. rewrite Hex. unfold applyModule.
    rewrite (find_fst (fun r => startsWith importPath (name r)));
      [reflexivity |]. now rewrite (withRegex_fst _ _ Hw). }
  unfold modulesPass. destruct (modules options) as [|r rules] eqn:Em.
  - injection Hw as <-. discriminate.
  - rewrite Hw. cbn [bind_result]. split.
    + exact (mapResult_throws _ _ _ _ Hin Hone).
    + cbn [mapResult]. now rewrite Hone.
Qed.

(** X6.  A rule name is made into a pattern as it is: when the name of one
    rule has a parenthesis without its partner (and no escape, class or
    quantifier that would give the parenthesis another reading), the
    transformation throws for every file, also for a file that has no import
    at all. *)
Theorem rule_name_with_unmatched_parenthesis_throws (options : TransformerOptions)
    (root : list Statement) (r : ModuleRule) :
  In r (modules options) ->
  simplePattern (name r) = true ->
  parenthesesMatch (name r) = false ->
  exists e, modulesPass options root = Throw e.
Proof.
  intros Hin Hs Hm. unfold modulesPass.
  destruct (modules options) as [|r0 rules] eqn:Em; [destruct Hin |].
  destruct (withRegex_throws _ _ _ Hin (rule_pattern_unread _ Hs Hm)) as [e ->].
  now exists e.
Qed.

(** ** Further properties of the pipeline: the files that are found and copied *)

Lemma Entry_induction (P : Entry -> Prop) :
  (forall item, P (FileEntry item)) ->
  (forall item children, Forall P children -> P (DirEntry item children)) ->
  forall e, P e.
Proof.
  intros Hf Hd. fix IH 1. intros [item | item children].
  - apply Hf.
  - apply Hd. induction children as [|c cs IHc]; constructor; [apply IH | exact IHc].
Qed.

Lemma chars_below (directory : string) (segs : list string) :
  chars (below directory segs) = chars directory ++ flat (map chars segs).
Proof.
  revert directory. induction segs as [|s segs IH]; intros directory.
  - unfold flat. cbn. now rewrite app_nil_r.
  - cbn [below fold_left]. fold (below (directory +:+ "/" +:+ s) segs).
    rewrite IH, !chars_app. unfold flat. cbn [map concat].
    change (chars "/") with [Path.slash]. now rewrite <- !app_assoc.
Qed.

Lemma below_app (directory : string) (a b : list string) :
  below directory (a ++ b) = below (below directory a) b.
Proof. unfold below. apply fold_left_app. Qed.

Lemma flat_app (a b : list (list ascii)) : flat (a ++ b) = flat a ++ flat b.
Proof. unfold flat. now rewrite map_app, concat_app. Qed.

Lemma flat_join (s : list ascii) (more : list (list ascii)) :
  flat (s :: more) = Path.slash :: Js.join [Path.slash] (s :: more).
Proof.
  revert s. induction more as [|t more IH]; intros s.
  - unfold flat. cbn. now rewrite app_nil_r.
  - change (flat (s :: t :: more)) with (Path.slash :: s ++ flat (t :: more)).
    rewrite IH. reflexivity.
Qed.

Lemma split_cons_slash (s : list ascii) :
  Js.split Path.slash (Path.slash :: s) = [] :: Js.split Path.slash s.
Proof. reflexivity. Qed.

Lemma split_app_segment (s t : list ascii) :
  forallb Path.not_slash s = true ->
  Js.split Path.slash (s ++ t) =
    match Js.split Path.slash t with
    | h :: tl => (s ++ h) :: tl
    | [] => [s]
    end.
Proof.
  intros Hs. induction s as [|c s IH].
  - cbn [app]. destruct (Js.split Path.slash t) eqn:E; [| reflexivity].
    now apply split_nonempty in E.
  - cbn [forallb] in Hs. apply andb_true_iff in Hs as [Hc Hs].
    cbn [app Js.split]. unfold Path.not_slash, Path.is_slash in Hc.
    apply negb_true_iff in Hc. rewrite Hc, (IH Hs).
    destruct (Js.split Path.slash t); reflexivity.
Qed.

Lemma split_flat (segs : list (list ascii)) :
  Forall (fun s => forallb Path.not_slash s = true) segs ->
  Js.split Path.slash (flat segs) = [] :: segs.
Proof.
  induction 1 as [|s segs Hs _ IH]; [reflexivity |].
  change (flat (s :: segs)) with (Path.slash :: s ++ flat segs).
  rewrite split_cons_slash, (split_app_segment _ _ Hs), IH.
  now rewrite app_nil_r.
Qed.

Lemma split_join (segs : list (list ascii)) :
  segs <> [] ->
  Forall (fun s => forallb Path.not_slash s = true) segs ->
  Js.split Path.slash (Js.join [Path.slash] segs) = segs.
Proof.
  intros Hne H. destruct segs as [|s more]; [now destruct Hne |].
  pose proof (split_flat (s :: more) H) as E.
  rewrite flat_join, split_cons_slash in E. now injection E.
Qed.

Lemma fold_regular (above : bool) (segs kept : list (list ascii)) :
  Forall regular_segment segs ->
  fold_left (Path.normalize_step above) segs kept = rev segs ++ kept.
Proof.
  intros H. revert kept. induction H as [|s segs Hs _ IH]; intros kept; [reflexivity |].
  cbn [fold_left rev]. rewrite (normalize_step_regular _ _ _ Hs), IH.
  now rewrite <- app_assoc.
Qed.

Lemma regular_no_slash (segs : list (list ascii)) :
  Forall regular_segment segs ->
  Forall (fun s => forallb Path.not_slash s = true) segs.
Proof.
  intros H. eapply Forall_impl; [exact H |]. now intros s (_ & Hs & _).
Qed.

Lemma join_starts_nonempty (s : list ascii) (more : list (list ascii)) :
  s <> [] -> Js.join [Path.slash] (s :: more) <> [].
Proof.
  intros Hs E. destruct more; cbn [Js.join] in E; [now destruct Hs |].
  apply app_eq_nil in E as [E _]. now destruct Hs.
Qed.

Lemma flat_ends (segs : list (list ascii)) :
  segs <> [] -> Forall regular_segment segs ->
  Path.ends_with_slash (flat segs) = false.
Proof.
  intros Hne H. destruct (exists_last Hne) as (init & l & ->).
  apply Forall_app in H as [_ Hl]. apply Forall_inv in Hl.
  destruct Hl as (Hl & Hs & _).
  rewrite flat_app. unfold flat at 2. cbn [map concat]. rewrite app_nil_r.
  change (Path.slash :: l) with ([Path.slash] ++ l). rewrite app_assoc.
  now apply last_not_slash.
Qed.

Lemma normalize_flat (segs : list (list ascii)) :
  segs <> [] -> Forall regular_segment segs ->
  Path.normalize (flat segs) = flat segs.
Proof.
  intros Hne H.
  assert (Hq : flat segs = Path.slash :: Js.join [Path.slash] segs).
  { destruct segs; [now destruct Hne | apply flat_join]. }
  assert (Hb : Path.normalize_string (flat segs) false = Js.join [Path.slash] segs).
  { unfold Path.normalize_string.
    rewrite (split_flat _ (regular_no_slash _ H)). cbn [fold_left].
    change (Path.normalize_step false [] []) with (@nil (list ascii)).
    now rewrite (fold_regular _ _ _ H), app_nil_r, rev_involutive. }
  assert (Ha : Path.is_absolute (flat segs) = true) by now rewrite Hq.
  unfold Path.normalize. rewrite Ha. cbn [negb]. rewrite Hb.
  rewrite (flat_ends _ Hne H), app_nil_r.
  assert (Hj : Js.join [Path.slash] segs <> []).
  { destruct segs as [|s more]; [now destruct Hne |].
    apply join_starts_nonempty. apply Forall_inv in H. now destruct H. }
  rewrite Hq at 1. destruct (Js.join [Path.slash] segs) eqn:E; [now destruct Hj |].
  now rewrite Hq.
Qed.

Lemma absolutePath_flat (p : string) :
  absolutePath p <->
  exists segs, segs <> [] /\ Forall regular_segment segs /\ chars p = flat segs.
Proof.
  split.
  - intros (segs & Hne & H & ->). exists (map chars segs). split; [| split].
    + destruct segs; [now destruct Hne | discriminate].
    + now apply Forall_map.
    + now rewrite chars_below.
  - intros (segs & Hne & H & E). exists (map str segs). split; [| split].
    + destruct segs; [now destruct Hne | discriminate].
    + apply Forall_map. eapply Forall_impl; [exact H |].
      intros s Hs. cbn. now rewrite chars_str.
    + apply chars_inj. rewrite chars_below, E, map_map. cbn [chars app].
      f_equal. rewrite <- (map_id segs) at 1. apply map_ext.
      intros s. now rewrite chars_str.
Qed.

(** Joining a segment to an absolute path in normal form puts it behind a
    slash. *)
Lemma path_join_below (p a : string) :
  absolutePath p -> regular_segment (chars a) ->
  path_join [p; a] = p +:+ "/" +:+ a /\ absolutePath (p +:+ "/" +:+ a).
Proof.
  intros Hp Ha. apply absolutePath_flat in Hp as (segs & Hne & H & E).
  assert (Hall : Forall regular_segment (segs ++ [chars a])).
  { apply Forall_app. split; [exact H | now constructor]. }
  assert (Hne' : segs ++ [chars a] <> []) by (now destruct segs).
  assert (Ec : chars (p +:+ "/" +:+ a) = flat (segs ++ [chars a])).
  { rewrite !chars_app, E, flat_app. unfold flat at 3. cbn [map concat].
    now rewrite app_nil_r. }
  split.
  - unfold path_join, Path.join. cbn [map].
    assert (Hf : filter Path.nonempty [chars p; chars a] = [chars p; chars a]).
    { destruct Ha as (Hn & _). rewrite E.
      destruct segs; [now destruct Hne |].
      destruct (chars a); [now destruct Hn | reflexivity]. }
    rewrite Hf. cbn [Js.join].
    replace (chars p ++ [Path.slash] ++ chars a) with (flat (segs ++ [chars a])).
    + rewrite (normalize_flat _ Hne' Hall), <- Ec. apply str_chars.
    + rewrite flat_app, E. unfold flat at 2. cbn [map concat]. now rewrite app_nil_r.
  - apply absolutePath_flat. now exists (segs ++ [chars a]).
Qed.
Lemma upper_cases (a : ascii) :
  (Char.eqb (Char.upper a) "." = true -> a = "."%char)
  /\ (Char.eqb (Char.upper a) "J" = true -> a = "j"%char \/ a = "J"%char)
  /\ (Char.eqb (Char.upper a) "S" = true -> a = "s"%char \/ a = "S"%char).
Proof.
  destruct a as [[] [] [] [] [] [] [] []]; vm_compute;
    repeat split; intros; try discriminate; auto.
Qed.

Lemma attempt_js_extension (p : option ascii) (s : list ascii) :
  RegExp.attempt Literal.js_extension p s <> None ->
  exists e, In e js_spellings /\ s = chars e.
Proof.
  unfold RegExp.attempt, Literal.js_extension.
  cbn [RegExp.source RegExp.fl RegExp.m]. unfold RegExp.step, RegExp.guard.
  cbn [RegExp.rest RegExp.caps RegExp.prev].
  unfold RegExp.canonicalize. cbn [RegExp.ignoreCase RegExp.flag_i].
  change (Char.upper ".") with "."%char.
  change (Char.upper "j") with "J"%char.
  change (Char.upper "s") with "S"%char.
  destruct s as [|a s]; [now intros [] |].
  destruct (upper_cases a) as (Ha & _). destruct (Char.eqb (Char.upper a) "."); [| now intros []].
  rewrite (Ha eq_refl). clear Ha.
  destruct s as [|b s]; [now intros [] |].
  destruct (upper_cases b) as (_ & Hb & _).
  destruct (Char.eqb (Char.upper b) "J"); [| now intros []].
  destruct s as [|c s]; [now intros [] |].
  destruct (upper_cases c) as (_ & _ & Hc).
  destruct (Char.eqb (Char.upper c) "S"); [| now intros []].
  unfold RegExp.at_line_end. cbn [RegExp.rest RegExp.multiline andb].
  destruct s as [|d s]; [| now intros []]. intros _.
  destruct (Hb eq_refl) as [-> | ->], (Hc eq_refl) as [-> | ->];
    [exists ".js" | exists ".jS" | exists ".Js" | exists ".JS"];
    (split; [cbn; tauto | reflexivity]).
Qed.

Lemma search_js_extension (s : list ascii) :
  forall (p : option ascii) (seen : list ascii),
    RegExp.search Literal.js_extension p seen s <> None ->
    exists stem e, In e js_spellings /\ s = stem ++ chars e.
Proof.
  induction s as [|c s IH]; intros p seen; rewrite search_unfold;
    destruct (RegExp.attempt Literal.js_extension p _) eqn:Ea.
  - intros _. destruct (attempt_js_extension p []) as (e & He & E); [now rewrite Ea |].
    now exists [], e.
  - now intros [].
  - intros _. destruct (attempt_js_extension p (c :: s)) as (e & He & E); [now rewrite Ea |].
    now exists [], e.
  - intros H. destruct (IH _ _ H) as (stem & e & He & ->).
    now exists (c :: stem), e.
Qed.

(** What [/\.js$/i] accepts. *)
Lemma matches_js_extension (item : string) :
  matches item Literal.js_extension = true -> endsWithJs item.
Proof.
  unfold matches, RegExp.test, RegExp.exec. intros H.
  destruct (search_js_extension (chars item) None []) as (stem & e & He & E).
  - now destruct (RegExp.search _ _ _ _).
  - exists (str stem), e. split; [exact He |].
    apply chars_inj. now rewrite chars_app, chars_str.
Qed.

Lemma entryName_regular (item : string) :
  entryName item = true -> skipped item = false -> regular_segment (chars item).
Proof.
  unfold entryName, skipped. intros Hn Hs.
  apply andb_true_iff in Hn as [Hne Hsl].
  apply orb_false_iff in Hs as [Hs _]. apply orb_false_iff in Hs as [Hd1 Hd2].
  repeat split.
  - intros E. apply negb_true_iff in Hne. apply String.eqb_neq in Hne.
    apply Hne. apply chars_inj. now rewrite E.
  - exact Hsl.
  - intros E. apply String.eqb_neq in Hd1. apply Hd1. apply chars_inj. now rewrite E.
  - intros E. apply String.eqb_neq in Hd2. apply Hd2. apply chars_inj. now rewrite E.
Qed.

Lemma findFilesAt_below (ok : string -> bool) (e : Entry) :
  (forall s, ok s = true -> entryName s = true) ->
  forall (directory p : string),
    absolutePath directory ->
    wellNamed ok e = true ->
    In p (findFilesAt directory e) ->
    exists dirs item,
      p = below directory (dirs ++ [item])
      /\ Forall (fun s => ok s = true /\ skipped s = false) (dirs ++ [item])
      /\ matches item Literal.js_extension = true.
Proof.
  intros Hok.
  induction e as [item | item children IH] using Entry_induction;
    intros directory p Hd Hw Hp; cbn [findFilesAt wellNamed] in *.
  - destruct (skipped item) eqn:Es; [destruct Hp |].
    destruct (matches item Literal.js_extension) eqn:Em; [| destruct Hp].
    destruct Hp as [<- | []]. exists [], item. split; [| split].
    + cbn [app below fold_left].
      apply path_join_below; [exact Hd |]. apply entryName_regular; auto.
    + now repeat constructor.
    + exact Em.
  - destruct (skipped item) eqn:Es; [destruct Hp |].
    apply andb_true_iff in Hw as [Hitem Hch].
    apply in_flat_map in Hp as (child & Hin & Hp).
    pose proof (entryName_regular _ (Hok _ Hitem) Es) as Hreg.
    destruct (path_join_below directory item Hd Hreg) as [Ej Habs].
    rewrite Ej in Hp.
    rewrite Forall_forall in IH.
    destruct (IH child (proj2 (list_elem_of_In _ _) Hin) (directory +:+ "/" +:+ item) p Habs)
      as (dirs & name & -> & Hall & Hm); [| exact Hp |].
    + rewrite forallb_forall in Hch. now apply Hch.
    + exists (item :: dirs), name. split; [reflexivity | split; [| exact Hm]].
      cbn [app]. constructor; [now split | exact Hall].
Qed.

(** X7.  In a directory given by an absolute path in normal form,
    [findFiles] only returns paths below that directory: the directory, then
    any number of folder names, then a file name that ends with ".js" in
    some letter case.  None of the names on the way is "node_modules" (or
    "." or ".."). *)
Theorem found_files_are_js_files_below (directory : string) (entries : list Entry)
    (p : string) :
  absolutePath directory ->
  forallb (wellNamed entryName) entries = true ->
  In p (findFiles directory entries) ->
  exists dirs item,
    p = below directory (dirs ++ [item])
    /\ Forall (fun s => skipped s = false) (dirs ++ [item])
    /\ ~ In "node_modules" (dirs ++ [item])
    /\ endsWithJs item.
Proof.
  intros Hd Hw Hp. unfold findFiles in Hp.
  apply in_flat_map in Hp as (e & He & Hp).
  rewrite forallb_forall in Hw.
  destruct (findFilesAt_below entryName e (fun s H => H) directory p Hd (Hw e He) Hp)
    as (dirs & item & -> & Hall & Hm).
  exists dirs, item. split; [reflexivity | split; [| split]].
  - eapply Forall_impl; [exact Hall |]. now intros s [_ Hs].
  - intros Hin. rewrite Forall_forall in Hall.
    destruct (Hall _ (proj2 (list_elem_of_In _ _) Hin)) as [_ Hs]. discriminate.
  - now apply matches_js_extension.
Qed.
Lemma substr_after (cwd rel : string) :
  Js.substr (String.length cwd + 1) (chars (cwd +:+ "/" +:+ rel)) = chars rel.
Proof.
  unfold Js.substr. rewrite !chars_app, app_assoc.
  rewrite skipn_app.
  assert (Hl : length (chars cwd ++ chars "/") = String.length cwd + 1).
  { rewrite length_app, chars_length. reflexivity. }
  rewrite <- Hl, skipn_all, Nat.sub_diag. reflexivity.
Qed.

Lemma join_split (s : list ascii) :
  Js.join [Path.slash] (Js.split Path.slash s) = s.
Proof.
  induction s as [|c s IH]; [reflexivity |].
  cbn [Js.split]. destruct (Char.eqb c Path.slash) eqn:Ec.
  - apply char_eqb_eq in Ec as ->.
    destruct (Js.split Path.slash s) as [|h t] eqn:E; [now apply split_nonempty in E |].
    change (Js.join [Path.slash] ([] :: h :: t))
      with (Path.slash :: Js.join [Path.slash] (h :: t)).
    now rewrite IH.
  - destruct (Js.split Path.slash s) as [|h t] eqn:E; [now apply split_nonempty in E |].
    rewrite <- IH. destruct t; reflexivity.
Qed.

Lemma withoutFirstSegment_folder (first rest : string) :
  forallb Path.not_slash (chars first) = true ->
  withoutFirstSegment (first +:+ "/" +:+ rest) = rest.
Proof.
  intros Hf. unfold withoutFirstSegment. rewrite !chars_app.
  rewrite (split_app_segment _ _ Hf).
  change (chars "/" ++ chars rest) with (Path.slash :: chars rest).
  rewrite split_cons_slash. cbn [tl]. rewrite join_split. apply str_chars.
Qed.


Lemma copyOne_from (cwd output extension : string) (forceDirectory : bool)
    (item : string) (w w' : World) (file : CopiedFile) :
  copyOne cwd output extension forceDirectory item w = (Ok file, w') ->
  from file = item
  /\ withExtension
       (path_join [output;
          if forceDirectory then str (Js.substr (String.length cwd + 1) (chars item))
          else withoutFirstSegment (str (Js.substr (String.length cwd + 1) (chars item)))])
       extension = Ok (to file).
Proof.
  unfold copyOne, bind, lift. intros H.
  destruct (withExtension _ extension) as [newPath |] eqn:He; [| discriminate].
  destruct (copyFile item newPath w) as [[[] |] w1]; [| discriminate].
  injection H as <- _. now split.
Qed.

Lemma copyOne_effect (cwd output extension : string) (forceDirectory : bool)
    (item : string) (w w' : World) (file : CopiedFile) :
  copyOne cwd output extension forceDirectory item w = (Ok file, w') ->
  from file = item
  /\ exists contents,
       disk w !! item = Some contents
       /\ w' = with_disk w (<[to file := contents]> (disk w)).
Proof.
  unfold copyOne, bind, lift. intros H.
  destruct (withExtension _ extension) as [newPath |]; [| discriminate].
  unfold copyFile, bind, readFile in H.
  destruct (disk w !! item) as [contents |] eqn:Ed; [| discriminate].
  cbn in H. injection H as <- <-. split; [reflexivity |]. now exists contents.
Qed.

(** X8.  Where a file is copied to.  When the copy of a file that lies in a
    folder of the working directory succeeds, its record names that file as
    the source; the destination is the path of the file after the working
    directory, put under the output directory, without its first folder
    unless the directory itself is to be copied, and with the extension
    changed; and the content of the file is what the destination holds
    afterwards, every other file being as before. *)
Theorem copied_file_destination (cwd output extension : string)
    (forceDirectory : bool) (first rest : string) (w w' : World) (file : CopiedFile) :
  let item := cwd +:+ "/" +:+ first +:+ "/" +:+ rest in
  forallb Path.not_slash (chars first) = true ->
  copyOne cwd output extension forceDirectory item w = (Ok file, w') ->
  from file = item
  /\ withExtension
       (path_join [output; if forceDirectory then first +:+ "/" +:+ rest else rest])
       extension = Ok (to file)
  /\ exists contents,
       disk w !! item = Some contents
       /\ disk w' = <[to file := contents]> (disk w).
Proof.
  intros item Hf H.
  pose proof (copyOne_from _ _ _ _ _ _ _ _ H) as [Hfrom Hto].
  pose proof (copyOne_effect _ _ _ _ _ _ _ _ H) as [_ (contents & Hd & ->)].
  split; [exact Hfrom | split; [| now exists contents]].
  unfold item in Hto. rewrite substr_after, str_chars in Hto.
  destruct forceDirectory; [exact Hto |].
  now rewrite (withoutFirstSegment_folder _ _ Hf) in Hto.
Qed.


Lemma traverse_each {A B} (f : A -> M B) (l : list A) :
  forall (w w' : World) (out : list B),
    traverse f l w = (Ok out, w') ->
    Forall2 (fun a b => exists w1 w2, f a w1 = (Ok b, w2)) l out.
Proof.
  induction l as [|a l IH]; intros w w' out H.
  - injection H as <- _. constructor.
  - cbn [traverse] in H. unfold bind in H.
    destruct (f a w) as [[b |] w1] eqn:Ea; [| discriminate].
    destruct (traverse f l w1) as [[bs |] w2] eqn:El; [| discriminate].
    injection H as <- _. constructor; [now exists w, w1 | now apply (IH w1 w2)].
Qed.

(** X10.  When [copyDirectory] succeeds it gives one record for each file
    that [findFiles] found, in the same order, with the path of the file as
    its [from]. *)
Theorem copyDirectory_lists_found_files (cwd directory : string)
    (entries : list Entry) (output : string) (useExtension : ModuleExtension)
    (forceDirectory : bool) (w w' : World) (files : list CopiedFile) :
  copyDirectory cwd directory entries output useExtension forceDirectory w
    = (Ok files, w') ->
  map from files = findFiles directory entries.
Proof.
  unfold copyDirectory. intros H. apply traverse_each in H.
  induction H as [|item file items files (w1 & w2 & Hc) _ IH]; [reflexivity |].
  cbn [map]. apply copyOne_from in Hc as [-> _]. now rewrite IH.
Qed.
Lemma absolutePath_below (p : string) (segs : list string) :
  absolutePath p -> Forall (fun s => regular_segment (chars s)) segs ->
  absolutePath (below p segs).
Proof.
  intros Hp H. revert p Hp. induction H as [|s segs Hs _ IH]; intros p Hp; [exact Hp |].
  cbn [below fold_left]. apply IH. now apply path_join_below.
Qed.

Lemma substr_flat (cwd : list ascii) (s : list ascii) (more : list (list ascii)) :
  Js.substr (length cwd + 1) (cwd ++ flat (s :: more))
  = Js.join [Path.slash] (s :: more).
Proof.
  unfold Js.substr. rewrite flat_join.
  change (Path.slash :: Js.join [Path.slash] (s :: more))
    with ([Path.slash] ++ Js.join [Path.slash] (s :: more)).
  rewrite app_assoc, skipn_app.
  assert (Hl : length (cwd ++ [Path.slash]) = length cwd + 1)
    by (rewrite length_app; reflexivity).
  now rewrite <- Hl, skipn_all, Nat.sub_diag.
Qed.

Lemma last_segment_after (x stem : list ascii) :
  forallb Path.not_slash stem = true ->
  x = [] \/ (exists y, x = y ++ [Path.slash]) ->
  last_segment (x ++ stem) = stem.
Proof.
  intros Hs Hx. unfold last_segment. rewrite rev_app_distr.
  rewrite take_while_app_stop; [apply rev_involutive | now rewrite forallb_rev |].
  destruct Hx as [-> | (y & ->)]; [exact I |].
  rewrite rev_app_distr. reflexivity.
Qed.

Lemma js_spelling_letters (e : string) :
  In e js_spellings ->
  exists letters,
    chars e = Path.dot :: letters /\ letters <> []
    /\ forallb Path.not_slash letters = true
    /\ forallb Path.not_dot letters = true.
Proof.
  intros He. cbn in He. destruct He as [<- | [<- | [<- | [<- | []]]]];
    eexists (_ :: _ :: []); repeat split; discriminate.
Qed.

Lemma forallb_app_l {A} (f : A -> bool) (a b : list A) :
  forallb f (a ++ b) = true -> forallb f a = true.
Proof. rewrite forallb_app. intros H. now apply andb_true_iff in H as [H _]. Qed.

(** The change of extension on a path that ends with a file name of the
    source kind. *)
Lemma withExtension_of_js_name (x : list ascii) (item : string)
    (useExtension : ModuleExtension) :
  x = [] \/ (exists y, x = y ++ [Path.slash]) ->
  entryName item = true -> hasStem item = true -> endsWithJs item ->
  exists stem,
    withExtension (str x +:+ item) ("." +:+ extension_name useExtension)
      = Ok (stem +:+ "." +:+ extension_name useExtension)
    /\ path_parse_ext (stem +:+ "." +:+ extension_name useExtension)
       = "." +:+ extension_name useExtension.
Proof.
  intros Hx Hname Hstem (stem & e & He & ->).
  apply andb_true_iff in Hname as [_ Hsl]. rewrite chars_app in Hsl.
  pose proof (forallb_app_l _ _ _ Hsl) as Hss.
  assert (Hne : chars stem <> []).
  { intros E. unfold hasStem in Hstem. apply negb_true_iff in Hstem.
    assert (Es : stem = "") by (apply chars_inj; now rewrite E). subst stem.
    change ("" +:+ e) with e in Hstem.
    assert (Hin : existsb (String.eqb e) js_spellings = true).
    { apply existsb_exists. exists e. split; [exact He | apply String.eqb_refl]. }
    rewrite Hin in Hstem. discriminate. }
  destruct (js_spelling_letters e He) as (letters & El & Hl & Hls & Hld).
  assert (Hext : path_parse_ext ((str x +:+ stem) +:+ e) = e).
  { unfold path_parse_ext. rewrite !chars_app, chars_str, El.
    rewrite (parse_ext_ending _ letters Hl Hls Hld).
    rewrite (last_segment_after x (chars stem) Hss Hx).
    destruct (chars stem); [now destruct Hne |]. rewrite <- El. apply str_chars. }
  exists (str x +:+ stem).
  replace (str x +:+ stem +:+ e) with ((str x +:+ stem) +:+ e)
    by (apply chars_inj; rewrite !chars_app; now rewrite app_assoc).
  exact (withExtension_js (str x +:+ stem) e useExtension He Hext).
Qed.

Lemma path_join_ends_with (output : string) (segs : list (list ascii)) (item : string) :
  regular_segment (chars item) ->
  exists x,
    (x = [] \/ (exists y, x = y ++ [Path.slash]))
    /\ path_join [output; str (Js.join [Path.slash] (segs ++ [chars item]))]
       = str x +:+ item.
Proof.
  intros Hreg.
  set (cp := Js.join [Path.slash] (segs ++ [chars item])).
  assert (Hcp : cp = chars item \/ exists pre, cp = pre ++ Path.slash :: chars item).
  { unfold cp. rewrite join_snoc. destruct segs; [now left | right; now eexists]. }
  assert (Hq : exists q,
             Path.join [chars output; cp] = Path.normalize q
             /\ (q = chars item \/ exists pre, q = pre ++ Path.slash :: chars item)).
  { unfold Path.join.
    assert (Hn : cp <> []).
    { destruct Hreg as (Hn & _). destruct Hcp as [-> | (pre & ->)]; [exact Hn |].
      now destruct pre. }
    destruct (chars output) as [|o os] eqn:Eo.
    - exists cp. split; [| exact Hcp].
      destruct cp; [now destruct Hn | reflexivity].
    - exists ((o :: os) ++ [Path.slash] ++ cp). split.
      + destruct cp; [now destruct Hn | reflexivity].
      + right. destruct Hcp as [-> | (pre & ->)].
        * now exists (o :: os).
        * exists ((o :: os) ++ [Path.slash] ++ pre). now rewrite <- !app_assoc. }
  destruct Hq as (q & Ej & Hq).
  unfold path_join. cbn [map]. rewrite chars_str. fold cp. rewrite Ej.
  destruct Hq as [Hq | (pre & Hq)].
  - destruct (normalize_ends_with q [] (chars item) Hreg (or_introl Hq)) as [-> | (x & ->)].
    + exists []. split; [now left |]. cbn [str String.append]. apply str_chars.
    + exists (x ++ [Path.slash]). split; [right; now exists x |].
      rewrite <- (str_chars item) at 2. rewrite <- str_app, <- app_assoc. reflexivity.
  - destruct (normalize_ends_with q pre (chars item) Hreg (or_intror Hq)) as [-> | (x & ->)].
    + exists []. split; [now left |]. cbn [str String.append]. apply str_chars.
    + exists (x ++ [Path.slash]). split; [right; now exists x |].
      rewrite <- (str_chars item) at 2. rewrite <- str_app, <- app_assoc. reflexivity.
Qed.
Lemma entryName_no_slash (s : string) :
  entryName s = true -> forallb Path.not_slash (chars s) = true.
Proof. unfold entryName. intros H. now apply andb_true_iff in H as [_ H]. Qed.

(** The copy of a file that [findFiles] found in a directory below the
    working directory ends with the extension asked for, and [path.parse]
    finds that extension in it. *)
Lemma copy_of_a_found_file (cwd : string) (rel : list string)
    (entries : list Entry) (output : string) (useExtension : ModuleExtension)
    (forceDirectory : bool) (item : string) (file : CopiedFile) (w1 w2 : World) :
  absolutePath cwd ->
  rel <> [] ->
  Forall (fun s => regular_segment (chars s)) rel ->
  forallb (wellNamed (fun item => entryName item && hasStem item)) entries = true ->
  In item (findFiles (below cwd rel) entries) ->
  copyOne cwd output ("." +:+ extension_name useExtension) forceDirectory item w1
    = (Ok file, w2) ->
  exists stem,
    to file = stem +:+ "." +:+ extension_name useExtension
    /\ path_parse_ext (to file) = "." +:+ extension_name useExtension.
Proof.
  intros Hcwd Hrel Hreg Hnames Hin Hc.
  pose proof (absolutePath_below cwd rel Hcwd Hreg) as Hdir.
  unfold findFiles in Hin. apply in_flat_map in Hin as (e & He & Hin).
  rewrite forallb_forall in Hnames.
  destruct (findFilesAt_below (fun item => entryName item && hasStem item) e
              (fun s H => proj1 (proj1 (andb_true_iff _ _) H))
              (below cwd rel) item Hdir (Hnames e He) Hin)
    as (dirs & name & -> & Hall & Hm).
  apply copyOne_from in Hc as [_ Hc].
  rewrite <- below_app, chars_below in Hc.
  destruct rel as [|r rel']; [now destruct Hrel |].
  cbn [app map] in Hc. rewrite <- chars_length, substr_flat in Hc.
  assert (Hns : Forall (fun s => forallb Path.not_slash s = true)
                  (chars r :: map chars (rel' ++ dirs ++ [name]))).
  { constructor.
    - apply Forall_inv in Hreg. now destruct Hreg as (_ & H & _).
    - rewrite map_app. apply Forall_app. split.
      + apply Forall_inv_tail in Hreg. apply Forall_map.
        eapply Forall_impl; [exact Hreg |]. now intros s (_ & H & _).
      + apply Forall_map. eapply Forall_impl; [exact Hall |].
        intros s [Hs _]. apply andb_true_iff in Hs as [Hs _].
        now apply entryName_no_slash. }
  apply Forall_app in Hall as [_ Hname]. apply Forall_inv in Hname.
  destruct Hname as [Hname Hskip]. apply andb_true_iff in Hname as [Hname Hstem].
  pose proof (entryName_regular _ Hname Hskip) as Hregular.
  assert (Hcp : exists segs',
            (if forceDirectory
             then str (Js.join [Path.slash]
                         (chars r :: map chars (rel' ++ dirs ++ [name])))
             else withoutFirstSegment
                    (str (Js.join [Path.slash]
                            (chars r :: map chars (rel' ++ dirs ++ [name])))))
            = str (Js.join [Path.slash] (segs' ++ [chars name]))).
  { destruct forceDirectory.
    - exists (chars r :: map chars (rel' ++ dirs)).
      now rewrite (app_assoc rel' dirs [name]), map_app.
    - exists (map chars (rel' ++ dirs)).
      unfold withoutFirstSegment.
      assert (Hne : chars r :: map chars (rel' ++ dirs ++ [name]) <> [])
        by discriminate.
      rewrite chars_str, (split_join _ Hne Hns).
      cbn [tl]. now rewrite (app_assoc rel' dirs [name]), map_app. }
  destruct Hcp as (segs' & Hcp). rewrite Hcp in Hc.
  destruct (path_join_ends_with output segs' name Hregular) as (x & Hx & Ej).
  rewrite Ej in Hc.
  destruct (withExtension_of_js_name x name useExtension Hx Hname Hstem
              (matches_js_extension _ Hm)) as (stem & Hw & Hext).
  rewrite Hw in Hc. injection Hc as <-. now exists stem.
Qed.

(** X11.  The extension of the copies.  For a source directory below the
    working directory, whose names are as [fs.readdir] gives them and none of
    them is ".js" with nothing before the dot, every file that
    [copyDirectory] reports has the extension that was asked for, whatever
    the letter case of the extension it had. *)
Theorem copies_have_the_extension (cwd : string) (rel : list string)
    (entries : list Entry) (output : string) (useExtension : ModuleExtension)
    (forceDirectory : bool) (w w' : World) (files : list CopiedFile) :
  absolutePath cwd ->
  rel <> [] ->
  Forall (fun s => regular_segment (chars s)) rel ->
  forallb (wellNamed (fun item => entryName item && hasStem item)) entries = true ->
  copyDirectory cwd (below cwd rel) entries output useExtension forceDirectory w
    = (Ok files, w') ->
  Forall (fun file => path_parse_ext (to file) = "." +:+ extension_name useExtension)
    files.
Proof.
  intros Hcwd Hrel Hreg Hnames Hcopy.
  unfold copyDirectory in Hcopy. apply traverse_each in Hcopy.
  assert (Hfound : forall item, In item (findFiles (below cwd rel) entries) ->
            forall file w1 w2,
              copyOne cwd output ("." +:+ extension_name useExtension) forceDirectory
                item w1 = (Ok file, w2) ->
              path_parse_ext (to file) = "." +:+ extension_name useExtension).
  { intros item Hin file w1 w2 Hc.
    now destruct (copy_of_a_found_file cwd rel entries output useExtension
                    forceDirectory item file w1 w2 Hcwd Hrel Hreg Hnames Hin Hc)
      as (stem & _ & Hext). }
  clear Hnames.
  induction Hcopy as [|item file items files (w1 & w2 & Hc) _ IH]; constructor.
  - apply (Hfound item (or_introl eq_refl) file w1 w2 Hc).
  - apply IH. intros item' Hin. apply Hfound. now right.
Qed.
(** X25.  No source file is missed: a file of the tree whose name matches
    [/\.js$/i] is found, with its path below the directory, unless its name
    or the name of a folder on the way is ".", ".." or "node_modules". *)
Theorem files_of_the_tree_are_found (dirs : list string) (item : string) :
  forall (directory : string) (entries : list Entry),
    absolutePath directory ->
    Forall (fun s => entryName s = true /\ skipped s = false) (dirs ++ [item]) ->
    matches item Literal.js_extension = true ->
    inTree dirs item entries ->
    In (below directory (dirs ++ [item])) (findFiles directory entries).
Proof.
  induction dirs as [|d dirs IH]; intros directory entries Hd Hnames Hm Hin;
    cbn [inTree app] in *.
  - apply Forall_inv in Hnames. destruct Hnames as [Hname Hskip].
    unfold findFiles. apply in_flat_map. exists (FileEntry item). split; [exact Hin |].
    cbn [findFilesAt]. rewrite Hskip, Hm. left.
    now apply path_join_below, entryName_regular.
  - destruct Hin as (children & Hin & Hrest).
    pose proof (Forall_inv Hnames) as [Hname Hskip].
    apply Forall_inv_tail in Hnames.
    destruct (path_join_below directory d Hd (entryName_regular _ Hname Hskip))
      as [Ej Habs].
    unfold findFiles. apply in_flat_map. exists (DirEntry d children).
    split; [exact Hin |]. cbn [findFilesAt]. rewrite Hskip, Ej.
    exact (IH _ children Habs Hnames Hm Hrest).
Qed.

Lemma traverse_copyOne (cwd output extension : string) (forceDirectory : bool)
    (items : list string) :
  forall (w w' : World) (files : list CopiedFile),
    traverse (copyOne cwd output extension forceDirectory) items w = (Ok files, w') ->
    map from files = items
    /\ (forall p, ~ In p (map to files) -> disk w' !! p = disk w !! p)
    /\ (List.NoDup (map to files) ->
        (forall f, In f files -> ~ In (to f) items) ->
        forall f, In f files -> disk w' !! to f = disk w !! from f)
    /\ runs w' = runs w /\ console w' = console w.
Proof.
  induction items as [|item items IH]; intros w w' files H.
  - injection H as <- <-. repeat split; intros; try reflexivity. contradiction.
  - cbn [traverse] in H. unfold bind in H.
    destruct (copyOne cwd output extension forceDirectory item w)
      as [[file |] w1] eqn:Ec; [| discriminate].
    destruct (traverse _ items w1) as [[fs |] w2] eqn:Et; [| discriminate].
    injection H as <- <-.
    apply copyOne_effect in Ec as (Hfrom & contents & Hread & ->).
    destruct (IH _ _ _ Et) as (Hfroms & Hother & Hcopies & Hruns & Hconsole).
    cbn [disk runs console with_disk] in *.
    split; [cbn [map]; now rewrite Hfrom, Hfroms |].
    split; [| split; [| now split]].
    + intros p Hp. cbn [map] in Hp.
      rewrite Hother by (intros Hin; apply Hp; now right).
      apply lookup_insert_ne. intros E. apply Hp. now left.
    + intros Hnd Hapart f [<- | Hf].
      * cbn [map] in Hnd. apply List.NoDup_cons_iff in Hnd as [Hfresh _].
        rewrite (Hother _ Hfresh), lookup_insert_eq. now rewrite Hfrom.
      * cbn [map] in Hnd. apply List.NoDup_cons_iff in Hnd as [Hfresh Hnd].
        rewrite Hcopies; [| exact Hnd | | exact Hf].
        -- apply lookup_insert_ne. intros E.
           apply (Hapart file (or_introl eq_refl)). right.
           rewrite <- Hfroms, E. now apply in_map.
        -- intros f' Hf' Hin. apply (Hapart f' (or_intror Hf')). now right.
Qed.

(** X26.  [copyDirectory] copies and does not move: on success every path
    that is no destination holds what it held, the sources too; and when the
    destinations are all different and none of them is a source, each
    destination holds what its source holds.  Nothing is logged and no
    transformation is started. *)
Theorem copyDirectory_copies_the_contents (cwd directory : string)
    (entries : list Entry) (output : string) (useExtension : ModuleExtension)
    (forceDirectory : bool) (w w' : World) (files : list CopiedFile) :
  copyDirectory cwd directory entries output useExtension forceDirectory w
    = (Ok files, w') ->
  (forall p, ~ In p (map to files) -> disk w' !! p = disk w !! p)
  /\ (List.NoDup (map to files) ->
      (forall f, In f files -> ~ In (to f) (map from files)) ->
      forall f, In f files -> disk w' !! to f = disk w !! from f)
  /\ runs w' = runs w /\ console w' = console w.
Proof.
  unfold copyDirectory. intros H.
  destruct (traverse_copyOne _ _ _ _ _ _ _ _ H) as (Hfrom & Hother & Hcopies & Hrest).
  split; [exact Hother | split; [| exact Hrest]].
  intros Hnd Hapart. apply Hcopies; [exact Hnd |]. now rewrite <- Hfrom.
Qed.

(** ** Further properties of the pipeline: the shebangs *)

Lemma attempt_shebang_none (p : option ascii) (s : list ascii) :
  lineStartsAfter p && Js.starts_with ["#"%char; "!"%char] s = false ->
  RegExp.attempt Literal.shebang p s = None.
Proof.
  intros H. unfold RegExp.attempt.
  cbn [Literal.shebang RegExp.source RegExp.fl RegExp.m].
  unfold RegExp.guard at 1. unfold RegExp.at_line_start.
  cbn [RegExp.prev RegExp.multiline RegExp.flag_m andb].
  assert (Hp : match p with
               | Some p0 => Char.is_line_terminator p0
               | None => true
               end = lineStartsAfter p) by now destruct p.
  rewrite Hp. destruct (lineStartsAfter p); [| reflexivity].
  cbn [andb] in H. unfold RegExp.step at 1. cbn [RegExp.rest RegExp.caps].
  destruct s as [|c s]; [reflexivity |].
  cbn [RegExp.canonicalize RegExp.ignoreCase RegExp.flag_m].
  assert (Hc : Char.eqb c "#" = Char.eqb "#" c) by apply Ascii.eqb_sym.
  rewrite Hc. cbn [Js.starts_with] in H.
  destruct (Char.eqb "#" c); [| reflexivity].
  unfold RegExp.step at 1. cbn [RegExp.rest RegExp.caps].
  destruct s as [|d s]; [reflexivity |].
  assert (Hd : Char.eqb d "!" = Char.eqb "!" d) by apply Ascii.eqb_sym.
  rewrite Hd. cbn [andb Js.starts_with] in H. rewrite andb_true_r in H.
  now rewrite H.
Qed.

Lemma search_shebang_none (s : list ascii) :
  forall (p : option ascii) (seen : list ascii),
    hasShebangLine p s = false ->
    RegExp.search Literal.shebang p seen s = None.
Proof.
  induction s as [|c s IH]; intros p seen H; rewrite search_unfold.
  - rewrite attempt_shebang_none; [reflexivity |]. apply andb_false_r.
  - cbn [hasShebangLine] in H. apply orb_false_iff in H as [Ha Hs].
    rewrite (attempt_shebang_none _ _ Ha). now apply IH.
Qed.

Lemma strip_shebangFree (contents : string) :
  shebangFree contents = true -> strip contents = None.
Proof.
  unfold shebangFree, strip, RegExp.exec. intros H. apply negb_true_iff in H.
  now rewrite (search_shebang_none _ _ _ H).
Qed.

Lemma traverse_unchanged {A B} (f : A -> M B) (b : B) (l : list A) (w : World) :
  (forall a, In a l -> f a w = (Ok b, w)) ->
  traverse f l w = (Ok (map (fun _ => b) l), w).
Proof.
  induction l as [|a l IH]; intros H; [reflexivity |].
  cbn [traverse map]. unfold bind. rewrite (H a (or_introl eq_refl)).
  rewrite IH; [reflexivity |]. intros a' Ha'. apply H. now right.
Qed.

(** X12.  Files without a line that starts with "#!" are left as they are:
    [removeShebangs] writes nothing and gives back an empty dictionary. *)
Theorem files_without_shebang_are_left_alone (files : list CopiedFile) (w : World) :
  (forall file, In file files ->
     exists contents,
       disk w !! to file = Some contents /\ shebangFree contents = true) ->
  removeShebangs files w = (Ok [], w).
Proof.
  intros H. unfold removeShebangs, bind.
  rewrite (traverse_unchanged removeShebang None files w).
  - unfold ret. do 2 f_equal. induction files as [|f fs IH]; [reflexivity |].
    cbn [map fold_left]. apply IH. intros file Hin. apply H. now right.
  - intros file Hin. destruct (H file Hin) as (contents & Hc & Hfree).
    now rewrite (removeShebang_run file w contents Hc), (strip_shebangFree _ Hfree).
Qed.
Lemma attempt_shebang_line (p : option ascii) (l s : list ascii) :
  lineStartsAfter p = true ->
  no_line_terminator l -> line_ends_at s ->
  exists p',
    RegExp.attempt Literal.shebang p ("#"%char :: "!"%char :: l ++ s)
    = Some {| RegExp.prev := p'; RegExp.rest := s; RegExp.caps := [] |}.
Proof.
  intros Hp Hl Hs. unfold RegExp.attempt.
  cbn [Literal.shebang RegExp.source RegExp.fl RegExp.m].
  unfold RegExp.guard at 1. unfold RegExp.at_line_start.
  cbn [RegExp.prev RegExp.multiline RegExp.flag_m andb].
  assert (Hp' : match p with
                | Some p0 => Char.is_line_terminator p0
                | None => true
                end = true) by (now destruct p).
  rewrite Hp'.
  unfold RegExp.step at 1. cbn [RegExp.rest RegExp.caps].
  cbn [RegExp.canonicalize RegExp.ignoreCase RegExp.flag_m Char.eqb].
  rewrite Ascii.eqb_refl.
  unfold RegExp.step at 1. cbn [RegExp.rest RegExp.caps].
  rewrite Ascii.eqb_refl.
  cbn [RegExp.rest RegExp.groups_in Nat.add].
  destruct (lazy_any_to_line_end l s Hl Hs (S (length (l ++ s))) (Some "!"%char))
    as [p' Hq].
  { rewrite length_app. lia. }
  exists p'. exact Hq.
Qed.

Lemma attempt_shebang_here (p : option ascii) (t : list ascii) :
  lineStartsAfter p = true ->
  exists p',
    RegExp.attempt Literal.shebang p ("#"%char :: "!"%char :: t)
    = Some {| RegExp.prev := p'; RegExp.rest := after_first_line t; RegExp.caps := [] |}.
Proof.
  intros Hp.
  destruct (attempt_shebang_line p (first_line t) (after_first_line t) Hp
              (first_line_no_terminator t) (after_first_line_ends t)) as [p' H].
  exists p'. now rewrite <- first_line_split in H.
Qed.

Lemma search_shebang_after (t pre : list ascii) :
  forall (p : option ascii) (seen : list ascii),
    noHash pre = true ->
    lineStartsAfter (last_before p pre) = true ->
    RegExp.search Literal.shebang p seen (pre ++ "#"%char :: "!"%char :: t)
    = Some {| RegExp.before := rev seen ++ pre;
              RegExp.matched := "#"%char :: "!"%char :: first_line t;
              RegExp.after := after_first_line t;
              RegExp.captures := [] |}.
Proof.
  induction pre as [|c pre IH]; intros p seen Hh Hl; rewrite search_unfold.
  - cbn [last_before] in Hl. cbn [app].
    destruct (attempt_shebang_here p t Hl) as [p' ->].
    cbn [RegExp.rest RegExp.caps]. rewrite app_nil_r. do 2 f_equal.
    pose proof (first_line_split t) as E.
    assert (E' : "#"%char :: "!"%char :: t
                 = ("#"%char :: "!"%char :: first_line t) ++ after_first_line t)
      by (cbn [app]; now rewrite <- E).
    rewrite E'. apply firstn_app_exact. rewrite length_app. lia.
  - cbn [noHash forallb] in Hh. apply andb_true_iff in Hh as [Hc Hh].
    cbn [app]. rewrite attempt_shebang_none.
    + cbn [last_before] in Hl. rewrite (IH (Some c) (c :: seen) Hh Hl).
      cbn [rev]. now rewrite <- app_assoc.
    + cbn [Js.starts_with]. apply negb_true_iff in Hc.
      assert (Hs : Char.eqb "#" c = Char.eqb c "#") by apply Ascii.eqb_sym.
      rewrite Hs, Hc. apply andb_false_r.
Qed.

Lemma replace_first_after (pat pre rest : list ascii) (c : ascii) :
  forallb (fun x => negb (Char.eqb x c)) pre = true ->
  Js.replace_first (c :: pat) [] (pre ++ (c :: pat) ++ rest) = pre ++ rest.
Proof.
  intros H. induction pre as [|x pre IH].
  - cbn [app]. apply (replace_first_prefix (c :: pat)).
  - cbn [forallb] in H. apply andb_true_iff in H as [Hx H].
    rewrite replace_first_unfold. cbn [app Js.starts_with].
    apply negb_true_iff in Hx.
    assert (Hs : Char.eqb c x = Char.eqb x c) by apply Ascii.eqb_sym.
    rewrite Hs, Hx. cbn [andb]. f_equal. now apply IH.
Qed.

Lemma strip_shebang_after (pre t : list ascii) :
  noHash pre = true ->
  lineStartsAfter (last_before None pre) = true ->
  strip (str (pre ++ "#"%char :: "!"%char :: t)) =
    Some (str ("#"%char :: "!"%char :: first_line t),
          str (Js.trim_left (pre ++ after_first_line t))).
Proof.
  intros Hh Hl. unfold strip, RegExp.exec. rewrite chars_str.
  rewrite (search_shebang_after t pre None [] Hh Hl).
  cbn [RegExp.matched]. do 4 f_equal.
  assert (E' : "#"%char :: "!"%char :: t
               = ("#"%char :: "!"%char :: first_line t) ++ after_first_line t)
    by (cbn [app]; now rewrite <- first_line_split).
  rewrite E'. now apply replace_first_after.
Qed.

(** What a file holds after its shebang was removed and restored, from what
    [removeShebangs] found in it. *)
Lemma round_trip_of_strip (files : list CopiedFile) (w : World)
    (file : CopiedFile) (contents shebang body : string) :
  NoDup (to <$> files) ->
  (forall f, f ∈ files -> is_Some (disk w !! to f)) ->
  file ∈ files ->
  disk w !! to file = Some contents ->
  strip contents = Some (shebang, body) ->
  exists shebangs w1 w2,
    removeShebangs files w = (Ok shebangs, w1)
    /\ restoreShebangs shebangs w1 = (Ok tt, w2)
    /\ disk w2 !! to file = Some (shebang +:+ newline +:+ newline +:+ body).
Proof.
  intros Hnd Hall Hin Hfile Hstrip.
  destruct (traverse_removeShebang files w Hnd Hall) as (d1 & Htr & Hd1 & Hrest1).
  set (shebangs := omap (entry_of (disk w)) files).
  assert (Hrem : removeShebangs files w = (Ok shebangs, with_disk w d1)).
  { unfold removeShebangs, bind. rewrite Htr. unfold ret.
    rewrite (shebang_dictionary (disk w) files []); [reflexivity |].
    exact Hnd. }
  assert (Hentry : (to file, shebang) ∈ shebangs).
  { apply list_elem_of_omap. exists file. split; [exact Hin |].
    unfold entry_of, contents_at. rewrite Hfile.
    change (default "" (Some contents)) with contents.
    now rewrite Hstrip. }
  assert (Hkeys : forall e, e ∈ shebangs -> is_Some (disk (with_disk w d1) !! e.1)).
  { intros e He. apply list_elem_of_omap in He as (f & Hf & He).
    rewrite (entry_of_key _ _ _ He). destruct (Hall f Hf) as [c Hc].
    cbn [disk with_disk]. rewrite (Hd1 f c Hf Hc). now eexists. }
  destruct (traverse_restore shebangs (with_disk w d1)
              (omap_entry_NoDup (disk w) files Hnd) Hkeys)
    as (done & d2 & Hres & Hd2 & _).
  exists shebangs, (with_disk w d1), (with_disk w d2).
  split; [exact Hrem | split].
  - rewrite restoreShebangs_traverse, Hres. reflexivity.
  - cbn [disk with_disk].
    pose proof (Hd2 _ body Hentry) as Hfinal.
    cbn [fst snd disk with_disk] in Hfinal. rewrite Hfinal.
    + reflexivity.
    + rewrite (Hd1 file _ Hin Hfile).
      unfold stripped. now rewrite Hstrip.
Qed.

(** X13.  The shebang is looked for at the start of every line, not only
    of the first: a line that starts with "#!" further down the file (here
    after a text without "#") is cut out of its place, and put at the top of
    the file when the shebangs are restored. *)
Theorem shebang_line_is_moved_to_the_top (files : list CopiedFile) (w : World)
    (file : CopiedFile) (before text : string) :
  NoDup (to <$> files) ->
  (forall f, f ∈ files -> is_Some (disk w !! to f)) ->
  file ∈ files ->
  noHash (chars before) = true ->
  disk w !! to file = Some (before +:+ newline +:+ "#!" +:+ text) ->
  exists shebangs w1 w2,
    removeShebangs files w = (Ok shebangs, w1)
    /\ restoreShebangs shebangs w1 = (Ok tt, w2)
    /\ disk w2 !! to file =
         Some ("#!" +:+ firstLine text +:+ newline +:+ newline
               +:+ trimLeft (before +:+ newline +:+ afterFirstLine text)).
Proof.
  intros Hnd Hall Hin Hh Hfile.
  assert (Hstrip : strip (before +:+ newline +:+ "#!" +:+ text)
                   = Some ("#!" +:+ firstLine text,
                           trimLeft (before +:+ newline +:+ afterFirstLine text))).
  { assert (E : before +:+ newline +:+ "#!" +:+ text
                = str ((chars before ++ chars newline)
                         ++ "#"%char :: "!"%char :: chars text)).
    { apply chars_inj. rewrite chars_str, !chars_app, <- app_assoc. reflexivity. }
    rewrite E, strip_shebang_after.
    - unfold firstLine, afterFirstLine, trimLeft. do 2 f_equal.
      rewrite !chars_app, chars_str, <- app_assoc. reflexivity.
    - unfold noHash in *. rewrite forallb_app, Hh. reflexivity.
    - clear. generalize (@None ascii). induction (chars before) as [|c l IH]; intros p.
      + reflexivity.
      + cbn [app last_before]. apply IH. }
  exact (round_trip_of_strip files w file _ _ _ Hnd Hall Hin Hfile Hstrip).
Qed.

(** ** Further properties of the pipeline: the run of the transformations *)

Lemma findIndex_none {A} (f : A -> bool) (l : list A) :
  Forall (fun a => f a = false) l -> findIndex f l = None.
Proof.
  induction 1 as [|a l Ha _ IH]; [reflexivity |].
  cbn [findIndex]. now rewrite Ha, IH.
Qed.

Lemma traverse_log (A : Type) (color : string) (text : A -> string) (l : list A) :
  forall w : World,
    traverse (fun a => log color (text a)) l w
    = (Ok (map (fun _ => tt) l),
       {| disk := disk w; runs := runs w;
          console := console w ++ map (fun a => (color, text a)) l |}).
Proof.
  induction l as [|a l IH]; intros w.
  - cbn [traverse map]. unfold ret. rewrite app_nil_r. now destruct w.
  - cbn [traverse map]. unfold bind. unfold log at 1. rewrite IH.
    unfold ret. cbn [disk runs console]. now rewrite <- app_assoc.
Qed.

Lemma traverse_nothing {A B} (f : A -> M (list B)) (l : list A) (w : World) :
  (forall a, In a l -> f a w = (Ok [], w)) ->
  exists out, traverse f l w = (Ok out, w) /\ concat out = [].
Proof.
  intros H. exists (map (fun _ => []) l). split.
  - now apply traverse_unchanged.
  - induction l as [|a l IH]; [reflexivity |]. cbn [map concat app].
    apply IH. intros a' Ha'. apply H. now right.
Qed.

Section MoreTransformOutputFacts.

Variable cwd : string.
Variable fiveToSixCodeModPath : string.
Variable dirname : string.
Variable Runner_run :
  string -> list string -> RunnerOptions -> gmap string string ->
  Result Stats * gmap string string.
Variable totalTime : list Stats -> string.

Local Abbreviation passes := (transformations fiveToSixCodeModPath dirname).
Local Abbreviation pipeline :=
  (transformOutput cwd fiveToSixCodeModPath dirname Runner_run totalTime).

Lemma runAll_rejected (todo : list string) (output : string) (options : RunnerOptions) :
  forall (prevStats : list Stats) (w w' : World) (e : Error),
    runAll Runner_run todo output options prevStats w = (Throw e, w') ->
    exists n, n < length todo /\ runs w' = runs w ++ firstn (S n) todo.
Proof.
  induction todo as [|t more IH]; intros prevStats w w' e H; [discriminate |].
  cbn [runAll] in H. unfold bind in H.
  pose proof (run_runs Runner_run t [output] options w) as Hr.
  destruct (run Runner_run t [output] options w) as [[stats | e1] w1] eqn:Er;
    cbn [snd] in Hr.
  - destruct (IH _ _ _ _ H) as (n & Hn & Hruns). exists (S n). split.
    + cbn [length]. lia.
    + rewrite Hruns, Hr, <- app_assoc. reflexivity.
  - injection H as <- <-. exists 0. split; [cbn [length]; lia |].
    rewrite Hr. reflexivity.
Qed.

(** X14.  When every transformation reports all the files as done, the run
    succeeds: the four transformations were started in their order, the disk
    is as the restoration of the shebangs left it, and the log ends with one
    gray line for each file, its destination without the working directory in
    front, and the green line with the total time. *)
Theorem transformOutput_reports_success
    (first : CopiedFile) (others : list CopiedFile) (options : CJS2ESMOptions)
    (w w1 w2 w3 : World) (shebangs : option (list (string * string)))
    (results : list Stats) :
  let files := first :: others in
  shield files options w = (Ok shebangs, w1) ->
  runAll Runner_run passes (output options) (runnerOptions first options) []
    (announce files w1).2 = (Ok results, w2) ->
  unshield shebangs w2 = (Ok tt, w3) ->
  Forall (fun stats => ok stats + nochange stats = length files) results ->
  exists w4,
    pipeline files options w = (Ok tt, w4)
    /\ disk w4 = disk w3
    /\ runs w4 = runs w ++ passes
    /\ console w4 =
         console w3
           ++ map (fun file =>
                     ("gray",
                      "> " +:+ str (Js.substr (String.length cwd + 1) (chars (to file)))))
                files
           ++ [("green", "All files were successfully transformed ("
                         +:+ totalTime results +:+ "s)!")].
Proof.
  intros files Hshield Hruns Hunshield Hall.
  assert (Hindex : findIndex (failed files) results = None).
  { apply findIndex_none. eapply Forall_impl; [exact Hall |].
    intros stats Hs. unfold failed. now apply negb_false_iff, Nat.eqb_eq. }
  assert (Hr3 : runs w3 = runs w ++ passes).
  { pose proof (shield_runs files options w) as H1. rewrite Hshield in H1.
    pose proof (keeps_runs_log "yellow"
                  ("Transforming " +:+ pretty (length files) +:+ " files...") w1) as Ha.
    pose proof (runAll_runs _ _ _ _ _ _ _ _ Hruns) as H2.
    pose proof (unshield_runs shebangs w2) as H3. rewrite Hunshield in H3.
    cbn [snd] in *. unfold announce in H2. now rewrite H3, H2, Ha, H1. }
  eexists. split.
  - unfold transformOutput, files. cbv beta iota. fold files.
    unfold bind at 1. rewrite Hshield.
    unfold bind at 1. destruct (announce files w1) as [[[] | e] w1'] eqn:Ha;
      [| discriminate].
    cbn [snd] in Hruns. unfold bind at 1. rewrite Hruns.
    unfold bind at 1. rewrite Hunshield.
    unfold report. rewrite Hindex. unfold bind.
    rewrite (traverse_log CopiedFile "gray"
               (fun file => "> " +:+ str (Js.substr (String.length cwd + 1)
                                            (chars (to file))))).
    unfold log. reflexivity.
  - cbn [disk runs console]. repeat split; [exact Hr3 |].
    now rewrite <- app_assoc.
Qed.

(** X15.  When the runner itself rejects for a transformation, the run ends
    there with that error: the transformations after it are not started, and
    the shebangs that were removed are not put back. *)
Theorem rejected_pass_ends_the_run
    (first : CopiedFile) (others : list CopiedFile) (options : CJS2ESMOptions)
    (w w1 w2 : World) (shebangs : option (list (string * string))) (e : Error) :
  let files := first :: others in
  shield files options w = (Ok shebangs, w1) ->
  runAll Runner_run passes (output options) (runnerOptions first options) []
    (announce files w1).2 = (Throw e, w2) ->
  pipeline files options w = (Throw e, w2)
  /\ exists n, n < 4 /\ runs w2 = runs w ++ firstn (S n) passes.
Proof.
  intros files Hshield Hruns. split.
  - unfold transformOutput, files. cbv beta iota. fold files.
    unfold bind at 1. rewrite Hshield.
    unfold bind at 1. destruct (announce files w1) as [[[] | e1] w1'] eqn:Ha;
      [| discriminate].
    cbn [snd] in Hruns. unfold bind at 1. now rewrite Hruns.
  - destruct (runAll_rejected _ _ _ _ _ _ _ Hruns) as (n & Hn & Hr).
    exists n. split; [exact Hn |].
    pose proof (shield_runs files options w) as H1. rewrite Hshield in H1.
    pose proof (keeps_runs_log "yellow"
                  ("Transforming " +:+ pretty (length files) +:+ " files...") w1) as Ha.
    cbn [snd] in *. unfold announce in Hr. now rewrite Hr, Ha, H1.
Qed.

(** X16.  An expression of [filesWithShebang] with a parenthesis that has
    no partner (and no escape, class or quantifier that would give the
    parenthesis another reading) makes the run throw before anything is
    done: no file is read or written, no transformation is started and
    nothing is logged. *)
Theorem shebang_expression_with_unmatched_parenthesis_stops_the_run
    (first : CopiedFile) (others : list CopiedFile) (options : CJS2ESMOptions)
    (w : World) (expression : string) :
  In expression (filesWithShebang options) ->
  simplePattern expression = true ->
  parenthesesMatch expression = false ->
  exists e, pipeline (first :: others) options w = (Throw e, w).
Proof.
  intros Hin Hs Hm.
  destruct (RegExp_all_throws _ _ _ Hin (unmatched_parentheses_unread _ Hs Hm))
    as [e H].
  exists e. unfold transformOutput, shield, bind, lift. now rewrite H.
Qed.

(** X17.  With no file to collect in any of the input directories,
    [copyFiles] gives an empty list and leaves the disk alone, and the
    transformation of that list throws a [TypeError]: a project without a
    ".js" file does not end as a run with nothing to do. *)
Theorem nothing_to_copy_fails_the_run (input : list (string * list Entry))
    (output : string) (useExtension : ModuleExtension) (forceDirectory : option bool)
    (options : CJS2ESMOptions) (w : World) :
  (forall item, In item input -> findFiles (fst item) (snd item) = []) ->
  copyFiles cwd input output useExtension forceDirectory w = (Ok [], w)
  /\ (files <- copyFiles cwd input output useExtension forceDirectory ;;
      pipeline files options) w
     = (Throw (TypeError "Cannot read properties of undefined (reading 'to')"), w).
Proof.
  intros H.
  assert (Hdir : forall item force, In item input ->
            copyDirectory cwd (fst item) (snd item) output useExtension force w
            = (Ok [], w)).
  { intros item force Hin. unfold copyDirectory. now rewrite (H item Hin). }
  assert (Hcopy : copyFiles cwd input output useExtension forceDirectory w = (Ok [], w)).
  { unfold copyFiles.
    destruct (traverse_nothing
                (fun item => copyDirectory cwd (fst item) (snd item) output useExtension true)
                input w (fun item Hin => Hdir item true Hin)) as (out & Ht & Hc).
    destruct input as [|[firstInput entries] [|second more]].
    - reflexivity.
    - apply (Hdir (firstInput, entries)). now left.
    - unfold bind. rewrite Ht. unfold ret. now rewrite Hc. }
  split; [exact Hcopy |]. unfold bind at 1. now rewrite Hcopy.
Qed.

End MoreTransformOutputFacts.

(** ** The manifest of the project: [updatePackageJSON] *)

Lemma replace_first_word (s : string) :
  replace s first_word_character "./$1"
  = (if startsWithWord s then "./" else "") +:+ s.
Proof.
  unfold replace, RegExp.replace, RegExp.exec, startsWithWord.
  rewrite search_unfold. unfold RegExp.attempt, first_word_character.
  cbn [RegExp.source RegExp.fl RegExp.m].
  unfold RegExp.guard at 1. cbn [RegExp.at_line_start RegExp.prev].
  unfold RegExp.step. cbn [RegExp.rest].
  destruct (chars s) as [|c s'] eqn:Es.
  - assert (E : s = "") by (apply chars_inj; exact Es). now subst s.
  - unfold RegExp.class_has. cbn [existsb RegExp.item_has RegExp.ignoreCase
      RegExp.no_flags andb orb xorb].
    rewrite !orb_false_r.
    destruct (Char.is_word c).
    + cbn [RegExp.capture RegExp.consumed RegExp.rest RegExp.prev RegExp.caps
           RegExp.before RegExp.after RegExp.captures RegExp.matched filter rev app].
      replace (length (c :: s') - length s') with 1 by (cbn [length]; lia).
      cbn [firstn RegExp.groups_in length app].
      unfold RegExp.consumed. cbn [RegExp.rest].
      replace (length (c :: s') - length s') with 1 by (cbn [length]; lia).
      cbn. rewrite <- (str_chars s), Es. reflexivity.
    + rewrite search_anchored. rewrite <- Es. cbn. now rewrite str_chars.
Qed.

Lemma seg_eqb_refl (a : list ascii) : Path.seg_eqb a a = true.
Proof. unfold Path.seg_eqb. now destruct (List.list_eq_dec ascii_dec a a). Qed.

Lemma regular_nonempty (segs : list (list ascii)) :
  Forall regular_segment segs -> filter Path.nonempty segs = segs.
Proof.
  induction 1 as [|s segs Hs _ IH]; [reflexivity |].
  destruct Hs as (Hn & _). destruct s as [|c s]; [now destruct Hn |].
  change (filter Path.nonempty ((c :: s) :: segs))
    with ((c :: s) :: filter Path.nonempty segs).
  now rewrite IH.
Qed.

Lemma resolve_absolute (cwd p : list ascii) :
  Path.is_absolute p = true ->
  Path.resolve cwd [p] = Path.slash :: Path.normalize_string (p ++ [Path.slash]) false.
Proof.
  intros Ha. destruct p as [|c p]; [discriminate |].
  unfold Path.resolve. cbn [rev app Path.resolve_parts]. now rewrite Ha.
Qed.

Lemma resolve_flat (cwd : list ascii) (segs : list (list ascii)) :
  segs <> [] -> Forall regular_segment segs ->
  Path.resolve cwd [flat segs] = flat segs.
Proof.
  intros Hne H.
  assert (Hq : flat segs = Path.slash :: Js.join [Path.slash] segs).
  { destruct segs; [now destruct Hne | apply flat_join]. }
  rewrite resolve_absolute by (now rewrite Hq).
  unfold Path.normalize_string.
  replace (flat segs ++ [Path.slash]) with (flat (segs ++ [[]]))
    by (rewrite flat_app; reflexivity).
  rewrite split_flat.
  - cbn [fold_left].
    change (Path.normalize_step false [] []) with (@nil (list ascii)).
    rewrite fold_left_app, (fold_regular _ _ _ H), app_nil_r. cbn [fold_left].
    assert (Hs : forall kept, Path.normalize_step false kept [] = kept) by reflexivity.
    rewrite Hs, rev_involutive. now rewrite Hq.
  - apply Forall_app. split; [now apply regular_no_slash | now repeat constructor].
Qed.

Lemma drop_common_prefix (a b : list (list ascii)) :
  drop_common a (a ++ b) = ([], b).
Proof.
  induction a as [|x a IH]; [now destruct b |].
  cbn [app drop_common]. now rewrite seg_eqb_refl.
Qed.

Lemma flat_longer (a b : list (list ascii)) :
  b <> [] -> flat a <> flat (a ++ b).
Proof.
  intros Hb E. rewrite flat_app in E.
  rewrite <- (app_nil_r (flat a)) in E at 1. apply app_inv_head in E.
  destruct b; [now destruct Hb | discriminate].
Qed.

(** [path.relative] from a directory to a path below it. *)
Lemma relative_below (cwd : string) (segs : list string) :
  absolutePath cwd -> segs <> [] ->
  Forall (fun s => regular_segment (chars s)) segs ->
  path_relative cwd cwd (below cwd segs)
  = str (Js.join [Path.slash] (map chars segs)).
Proof.
  intros Hcwd Hne Hreg.
  apply absolutePath_flat in Hcwd as (cs & Hcs & Hc & E).
  assert (Hss : Forall regular_segment (map chars segs)) by now apply Forall_map.
  assert (Hne' : map chars segs <> []) by (destruct segs; [now destruct Hne | discriminate]).
  unfold path_relative, relative. rewrite chars_below, E, <- flat_app.
  rewrite (seg_eqb_false _ _ (flat_longer cs _ Hne')).
  rewrite (resolve_flat _ cs Hcs Hc).
  rewrite (resolve_flat _ (cs ++ map chars segs)).
  - rewrite (seg_eqb_false _ _ (flat_longer cs _ Hne')).
    unfold path_segments.
    rewrite (split_flat _ (regular_no_slash _ Hc)).
    rewrite (split_flat (cs ++ map chars segs)).
    + change (filter Path.nonempty ([] :: cs)) with (filter Path.nonempty cs).
      change (filter Path.nonempty ([] :: cs ++ map chars segs))
        with (filter Path.nonempty (cs ++ map chars segs)).
      rewrite (regular_nonempty _ Hc), regular_nonempty.
      * now rewrite drop_common_prefix.
      * apply Forall_app. now split.
    + apply regular_no_slash, Forall_app. now split.
  - now destruct cs.
  - apply Forall_app. now split.
Qed.
Section UpdatePackageJSONFacts.

Variable cwd : string.
Variable requireModule : string -> Result Json.
Variable getAbsPathInfo : string -> option AbsPathInfo.
Variable findFile : list string -> string -> option string.
Variable stringify : Json -> string.

Local Abbreviation update :=
  (updatePackageJSON cwd requireModule getAbsPathInfo findFile stringify).
Local Abbreviation pkgJsonPath := (path_join [cwd; "package.json"]).

Lemma mainFile_world (info : AbsPathInfo) (w : World) :
  (mainFile findFile info w).2 = w.
Proof.
  unfold mainFile. destruct (isFile info); [reflexivity |].
  now destruct (findFolderEntryPath findFile (path info)) as [[|c s] |].
Qed.

(** X18.  [updatePackageJSON] writes one file at most, the [package.json]
    of the working directory, and it writes it only when it gives back the
    new [module] path; it starts no transformation. *)
Theorem updatePackageJSON_writes_the_manifest_only (files : list CopiedFile)
    (w : World) :
  let out := update files w in
  (forall p, p <> pkgJsonPath -> disk out.2 !! p = disk w !! p)
  /\ ((forall result, out.1 <> Ok (Some result)) -> disk out.2 = disk w)
  /\ runs out.2 = runs w.
Proof.
  intros out. assert (Hout : out = update files w) by reflexivity.
  clearbody out. revert Hout.
  assert (Hsame : forall r, out = (r, w) ->
            (forall result, r <> Ok (Some result)) ->
            (forall p, p <> pkgJsonPath -> disk out.2 !! p = disk w !! p)
            /\ ((forall result, out.1 <> Ok (Some result)) -> disk out.2 = disk w)
            /\ runs out.2 = runs w).
  { intros r -> _. now repeat split. }
  assert (Hlog : forall (r : option string) color text,
            out = (Ok r, {| disk := disk w; runs := runs w;
                            console := console w ++ [(color, text)] |}) ->
            (forall p, p <> pkgJsonPath -> disk out.2 !! p = disk w !! p)
            /\ ((forall result, out.1 <> Ok (Some result)) -> disk out.2 = disk w)
            /\ runs out.2 = runs w).
  { intros r color text ->. now repeat split. }
  unfold updatePackageJSON, bind, lift.
  destruct (requireModule pkgJsonPath) as [pkgJson | e];
    [| intros E; now apply (Hsame _ E)].
  assert (Hmain :
    out =
      (if truthy (property "main" pkgJson)
       then
         match property "main" pkgJson with
         | Some (JString main) =>
             match getAbsPathInfo (path_join [cwd; main]) with
             | None =>
                 throw (TypeError "Cannot read properties of null (reading 'isFile')")
             | Some info =>
                 bind (mainFile findFile info) (fun mainPath =>
                 match List.find (fun item => String.eqb (from item) mainPath) files with
                 | Some file =>
                     let result :=
                       replace (path_relative cwd cwd (to file))
                         first_word_character "./$1" in
                     bind (writeJSON stringify pkgJsonPath (withModule pkgJson result))
                       (fun _ =>
                     bind (log "green"
                             "The module property was successfully added to the package.json!")
                       (fun _ => ret (Some result)))
                 | None =>
                     bind (log "yellow"
                             "It doesnt seem like the main file was transformed, package.json update aborted")
                       (fun _ => ret None)
                 end)
             end
         | _ => throw (TypeError "The path argument must be of type string")
         end
       else
         bind (log "yellow" "There's no main property, package.json update aborted")
           (fun _ => ret None)) w ->
    (forall p, p <> pkgJsonPath -> disk out.2 !! p = disk w !! p)
    /\ ((forall result, out.1 <> Ok (Some result)) -> disk out.2 = disk w)
    /\ runs out.2 = runs w).
  { destruct (truthy (property "main" pkgJson));
      [| intros E; now apply (Hlog _ _ _ E)].
    destruct (property "main" pkgJson) as [[| | | main | |] |];
      try (intros E; now apply (Hsame _ E)).
    destruct (getAbsPathInfo (path_join [cwd; main])) as [info |];
      [| intros E; now apply (Hsame _ E)].
    unfold bind at 1. pose proof (mainFile_world info w) as Hw.
    destruct (mainFile findFile info w) as [[mainPath | e] w1]; cbn [snd] in Hw;
      subst w1; [| intros E; now apply (Hsame _ E)].
    destruct (List.find _ files) as [file |];
      [| intros E; now apply (Hlog _ _ _ E)].
    intros ->. cbn [fst snd disk runs with_disk]. repeat split.
    - intros p Hp. apply lookup_insert_ne. congruence.
    - intros H. now destruct (H _ eq_refl). }
  destruct pkgJson; try exact Hmain. intros E. now apply (Hsame _ E).
Qed.

Lemma truthy_string (main : string) :
  main <> "" -> truthy (Some (JString main)) = true.
Proof. now destruct main. Qed.

(** X19.  When [main] names a file that was copied, the [module] property
    is the path of the copy relative to the working directory, with "./" in
    front when that path starts with a word character; the manifest is
    written with it and the path is given back.  For a copy that lies below
    the working directory the relative path is what comes after it. *)
Theorem module_path_of_the_main_file (files : list CopiedFile) (w : World)
    (pkgJson : Json) (main : string) (info : AbsPathInfo) (file : CopiedFile) :
  requireModule pkgJsonPath = Ok pkgJson ->
  property "main" pkgJson = Some (JString main) ->
  main <> "" ->
  getAbsPathInfo (path_join [cwd; main]) = Some info ->
  isFile info = true ->
  List.find (fun item => String.eqb (from item) (path info)) files = Some file ->
  let rel := path_relative cwd cwd (to file) in
  let result := (if startsWithWord rel then "./" else "") +:+ rel in
  update files w
  = (Ok (Some result),
     {| disk := <[pkgJsonPath := stringify (withModule pkgJson result)]> (disk w);
        runs := runs w;
        console := console w
          ++ [("green", "The module property was successfully added to the package.json!")] |})
  /\ (forall segs,
        absolutePath cwd -> segs <> [] ->
        Forall (fun s => regular_segment (chars s)) segs ->
        to file = below cwd segs ->
        rel = str (Js.join [Path.slash] (map chars segs))).
Proof.
  intros Hpkg Hmain Hne Hinfo Hfile Hfind rel result. split.
  - unfold updatePackageJSON, bind, lift. rewrite Hpkg.
    assert (Hobj : exists properties, pkgJson = JObject properties).
    { destruct pkgJson; try discriminate. now eexists. }
    destruct Hobj as [properties ->].
    rewrite Hmain, (truthy_string _ Hne), Hinfo.
    unfold mainFile. rewrite Hfile. unfold ret at 1. rewrite Hfind.
    rewrite replace_first_word. reflexivity.
  - intros segs Hcwd Hsegs Hreg Hto. unfold rel. rewrite Hto.
    now apply relative_below.
Qed.

(** X20.  The ways [updatePackageJSON] fails on a [main] it cannot follow:
    a path that is not on disk makes it throw a [TypeError], and a folder
    without an entry file the error that names the folder.  The manifest is
    not written. *)
Theorem main_that_cannot_be_followed (files : list CopiedFile) (w : World)
    (pkgJson : Json) (main : string) :
  requireModule pkgJsonPath = Ok pkgJson ->
  property "main" pkgJson = Some (JString main) ->
  main <> "" ->
  (getAbsPathInfo (path_join [cwd; main]) = None ->
   update files w
   = (Throw (TypeError "Cannot read properties of null (reading 'isFile')"), w))
  /\ (forall info,
        getAbsPathInfo (path_join [cwd; main]) = Some info ->
        isFile info = false ->
        findFile ["index.mjs"; "index.js"] (path info) = None ->
        update files w
        = (Throw (JsError ("The entry file can't be found: `" +:+ path info +:+ "`")),
           w)).
Proof.
  intros Hpkg Hmain Hne.
  assert (Hobj : exists properties, pkgJson = JObject properties).
  { destruct pkgJson; try discriminate. now eexists. }
  destruct Hobj as [properties ->].
  split.
  - intros Hinfo. unfold updatePackageJSON, bind, lift.
    now rewrite Hpkg, Hmain, (truthy_string _ Hne), Hinfo.
  - intros info Hinfo Hfile Hnone. unfold updatePackageJSON, bind, lift.
    rewrite Hpkg, Hmain, (truthy_string _ Hne), Hinfo.
    unfold mainFile, findFolderEntryPath. now rewrite Hfile, Hnone.
Qed.

End UpdatePackageJSONFacts.
Lemma lookup_assign_same (properties : list (string * Json)) (k : string) (v : Json) :
  lookup_property k (assign properties k v) = Some v.
Proof.
  induction properties as [|[k' v'] more IH]; cbn [assign lookup_property].
  - now rewrite String.eqb_refl.
  - destruct (String.eqb k' k) eqn:E; cbn [lookup_property]; rewrite E;
      [reflexivity | exact IH].
Qed.

Lemma lookup_assign_other (properties : list (string * Json)) (k k' : string) (v : Json) :
  k <> k' ->
  lookup_property k (assign properties k' v) = lookup_property k properties.
Proof.
  intros Hk. induction properties as [|[k0 v0] more IH]; cbn [assign lookup_property].
  - apply String.eqb_neq in Hk. rewrite String.eqb_sym in Hk. now rewrite Hk.
  - destruct (String.eqb k0 k') eqn:E; cbn [lookup_property].
    + apply String.eqb_eq in E as ->.
      apply String.eqb_neq in Hk. rewrite String.eqb_sym in Hk. now rewrite Hk.
    + now rewrite IH.
Qed.

Lemma lookup_absent (properties : list (string * Json)) (k : string) :
  ~ In k (map fst properties) -> lookup_property k properties = None.
Proof.
  induction properties as [|[k' v'] more IH]; intros H; [reflexivity |].
  cbn [lookup_property]. destruct (String.eqb k' k) eqn:E.
  - apply String.eqb_eq in E as ->. destruct H. now left.
  - apply IH. intros Hin. apply H. now right.
Qed.

(** What a key reads in [{ ...target, ...given }]. *)
Lemma lookup_spread (given : list (string * Json)) (k : string) :
  List.NoDup (map fst given) ->
  forall target,
    lookup_property k (spread target (JObject given))
    = match lookup_property k given with
      | Some v => Some v
      | None => lookup_property k target
      end.
Proof.
  unfold spread. cbn [ownProperties].
  induction given as [|[k' v'] more IH]; intros Hnd target; [reflexivity |].
  cbn [fold_left fst snd map] in *. apply List.NoDup_cons_iff in Hnd as [Hk Hnd].
  rewrite (IH Hnd). cbn [lookup_property].
  destruct (String.eqb k' k) eqn:E.
  - apply String.eqb_eq in E as ->.
    now rewrite (lookup_absent _ _ Hk), lookup_assign_same.
  - destruct (lookup_property k more); [reflexivity |].
    apply lookup_assign_other. intros ->. now rewrite String.eqb_refl in E.
Qed.



Section GetConfigurationFacts.

Variable cwd : string.
Variable findFile : list string -> string -> option string.
Variable requireModule : string -> Result Json.
Variable readJSON : string -> Result Json.

Local Abbreviation configuration :=
  (getConfiguration cwd findFile requireModule readJSON).
Local Abbreviation loaded :=
  (loadConfiguration cwd findFile requireModule readJSON).


Lemma getConfiguration_run (w : World) :
  configuration w =
    match loaded (log "yellow" "Loading configuration..." w).2 with
    | (Ok config, w1) => (withDefaults cwd config, w1)
    | (Throw e, w1) => (Throw e, w1)
    end.
Proof. reflexivity. Qed.


(** X22.  An [input] that is not a list is refused: when the configuration
    that was loaded is an object whose [input] is anything but an array (a
    single string, say), [getConfiguration] throws a [TypeError]. *)
Theorem input_must_be_a_list (w w1 : World) (given : list (string * Json))
    (input : Json) :
  loaded (log "yellow" "Loading configuration..." w).2 = (Ok (JObject given), w1) ->
  List.NoDup (map fst given) ->
  lookup_property "input" given = Some input ->
  (forall items, input <> JArray items) ->
  exists message, configuration w = (Throw (TypeError message), w1).
Proof.
  intros Hload Hnd Hin Hno. rewrite getConfiguration_run, Hload.
  unfold withDefaults.
  rewrite lookup_assign_other by discriminate.
  rewrite (lookup_spread given "input" Hnd), Hin.
  destruct input as [| | | | items |]; try (eexists; reflexivity).
  now destruct (Hno items).
Qed.

(** X23.  The keys of the configuration win over the defaults, and the
    keys it does not have take them: apart from [input], [output] and
    [extension], which are worked on, every key of the result reads as the
    configuration has it, or else as the defaults have it. *)
Theorem given_keys_win_over_defaults (w w1 w' : World) (given : list (string * Json))
    (result : Json) (k : string) :
  loaded (log "yellow" "Loading configuration..." w).2 = (Ok (JObject given), w1) ->
  List.NoDup (map fst given) ->
  configuration w = (Ok result, w') ->
  k <> "input" -> k <> "output" -> k <> "extension" ->
  property k result
  = match lookup_property k given with
    | Some v => Some v
    | None => lookup_property k (defaults)
    end.
Proof.
  intros Hload Hnd H Hi Ho He. rewrite getConfiguration_run, Hload in H.
  injection H as H _. unfold withDefaults, bind_result in H.
  destruct (inputPaths cwd _) as [input |]; [| discriminate].
  destruct (joinCwd cwd _) as [output |]; [| discriminate].
  injection H as <-. cbn [property].
  rewrite !lookup_assign_other by assumption.
  now apply lookup_spread.
Qed.

End GetConfigurationFacts.

(** ** The further properties on the samples *)

Lemma file_target_witness :
  updatePath Fixture.cwd Fixture.nothing_exists Sample.b_is_a_file Fixture.no_file
    "./b" "/proj/esm" = "./b.mjs".
Proof.
  assert (Hreg : regular_segment (chars (path_basename (path Sample.b_mjs)))).
  { repeat split; (discriminate || reflexivity). }
  apply (proj2 (file_target_takes_real_name Fixture.cwd Fixture.nothing_exists
                  Sample.b_is_a_file Fixture.no_file "./b" "/proj/esm" Sample.b_mjs
                  eq_refl eq_refl Hreg) "b");
    [discriminate | reflexivity | reflexivity].
Defined.

Lemma other_specifiers_witness :
  extensionPass Fixture.cwd Fixture.nothing_exists Sample.all_files Fixture.no_file
    [] "/proj/esm" [ImportDeclaration ["transform"] "@babel/core"] !! 0
  = Some (ImportDeclaration ["transform"] "@babel/core").
Proof.
  exact (other_specifiers_skip_extension_pass Fixture.cwd Fixture.nothing_exists
           Sample.all_files Fixture.no_file [] "/proj/esm"
           [ImportDeclaration ["transform"] "@babel/core"] 0
           (ImportDeclaration ["transform"] "@babel/core") "@babel/core"
           eq_refl eq_refl eq_refl).
Defined.

Lemma transform_shape_witness :
  map shape [ImportDeclaration ["x"] "./shared/utils/helpers";
             ExportAllDeclaration None "./b.mjs"]
  = map shape [ImportDeclaration ["x"] "utils/helpers"; ExportAllDeclaration None "./b"]
  /\ length [ImportDeclaration ["x"] "./shared/utils/helpers";
             ExportAllDeclaration None "./b.mjs"]
     = length [ImportDeclaration ["x"] "utils/helpers"; ExportAllDeclaration None "./b"].
Proof.
  exact (transform_changes_specifiers_only Fixture.cwd Fixture.nothing_exists
           Sample.b_is_a_file Fixture.no_file "/proj/esm/a.mjs"
           [ImportDeclaration ["x"] "utils/helpers"; ExportAllDeclaration None "./b"]
           [ImportDeclaration ["x"] "./shared/utils/helpers";
            ExportAllDeclaration None "./b.mjs"]
           Sample.utils eq_refl).
Defined.

Lemma reexports_witness :
  [ImportDeclaration ["x"] "./shared/utils/helpers";
   ExportAllDeclaration None "utils/helpers"] !! 1
  = extensionPass Fixture.cwd Fixture.nothing_exists Fixture.nothing_found
      Fixture.no_file [] (path_dirname "/proj/esm/a.mjs")
      [ImportDeclaration ["x"] "utils/helpers";
       ExportAllDeclaration None "utils/helpers"] !! 1.
Proof.
  exact (reexports_are_never_remapped Fixture.cwd Fixture.nothing_exists
           Fixture.nothing_found Fixture.no_file "/proj/esm/a.mjs"
           [ImportDeclaration ["x"] "utils/helpers";
            ExportAllDeclaration None "utils/helpers"]
           [ImportDeclaration ["x"] "./shared/utils/helpers";
            ExportAllDeclaration None "utils/helpers"]
           Sample.utils [] 1 (ExportAllDeclaration None "utils/helpers")
           eq_refl eq_refl eq_refl eq_refl).
Defined.

Lemma accepted_import_witness :
  modulesPass Sample.dotted [ImportDeclaration ["x"] "axb"]
  = Throw (TypeError "Cannot read properties of undefined (reading 'find')").
Proof.
  apply (accepted_import_without_prefix_throws Sample.dotted
           [({| name := "a.b"; find := None; rule_path := "c" |},
             {| RegExp.source :=
                  RegExp.Seq RegExp.Bol
                    (RegExp.Seq (RegExp.Chr "a")
                       (RegExp.Seq RegExp.Any
                          (RegExp.Seq (RegExp.Chr "b")
                             (RegExp.Group 1 (RegExp.Alt (RegExp.Chr "/") RegExp.Eol)))));
                RegExp.fl := RegExp.no_flags |})]
           [ImportDeclaration ["x"] "axb"] ["x"] "axb");
    [reflexivity | reflexivity | reflexivity | now left].
Defined.

Lemma rule_name_with_unmatched_parenthesis_witness :
  exists e, modulesPass Sample.unreadable [] = Throw e.
Proof.
  apply (rule_name_with_unmatched_parenthesis_throws Sample.unreadable []
           {| name := "("; find := None; rule_path := "c" |});
    [now left | reflexivity | reflexivity].
Defined.

Lemma absolute_proj : absolutePath "/proj".
Proof.
  exists ["proj"]. repeat split; try discriminate.
  repeat constructor; discriminate.
Defined.

Lemma absolute_proj_src : absolutePath "/proj/src".
Proof.
  exists ["proj"; "src"]. repeat split; try discriminate.
  repeat constructor; discriminate.
Defined.

Lemma found_files_witness :
  exists dirs item,
    "/proj/src/lib/b.js" = below "/proj/src" (dirs ++ [item])
    /\ Forall (fun s => skipped s = false) (dirs ++ [item])
    /\ ~ In "node_modules" (dirs ++ [item])
    /\ endsWithJs item.
Proof.
  apply (found_files_are_js_files_below "/proj/src" Sample.tree "/proj/src/lib/b.js"
           absolute_proj_src eq_refl).
  vm_compute. tauto.
Defined.

Lemma copied_file_destination_witness :
  withExtension (path_join ["/proj/esm"; "lib/b.js"]) ".mjs" = Ok "/proj/esm/lib/b.mjs"
  /\ exists contents,
       disk Sample.treeFiles !! "/proj/src/lib/b.js" = Some contents
       /\ disk (copyOne "/proj" "/proj/esm" ".mjs" false "/proj/src/lib/b.js"
                  Sample.treeFiles).2
          = <["/proj/esm/lib/b.mjs" := contents]> (disk Sample.treeFiles).
Proof.
  destruct (copied_file_destination "/proj" "/proj/esm" ".mjs" false "src" "lib/b.js"
              Sample.treeFiles
              (copyOne "/proj" "/proj/esm" ".mjs" false "/proj/src/lib/b.js"
                 Sample.treeFiles).2
              {| from := "/proj/src/lib/b.js"; to := "/proj/esm/lib/b.mjs" |}
              eq_refl)
    as (_ & Hto & Hcopy).
  - vm_compute. reflexivity.
  - split; [exact Hto | exact Hcopy].
Defined.


Lemma copyDirectory_lists_witness :
  map from [ {| from := "/proj/src/A.JS"; to := "/proj/esm/A.mjs" |};
             {| from := "/proj/src/lib/b.js"; to := "/proj/esm/lib/b.mjs" |} ]
  = findFiles "/proj/src" Sample.tree.
Proof.
  apply (copyDirectory_lists_found_files "/proj" "/proj/src" Sample.tree "/proj/esm"
           ExtMjs false Sample.treeFiles
           (copyDirectory "/proj" "/proj/src" Sample.tree "/proj/esm" ExtMjs false
              Sample.treeFiles).2).
  vm_compute. reflexivity.
Defined.

Lemma copies_have_the_extension_witness :
  Forall (fun file => path_parse_ext (to file) = ".mjs")
    [ {| from := "/proj/src/A.JS"; to := "/proj/esm/A.mjs" |};
      {| from := "/proj/src/lib/b.js"; to := "/proj/esm/lib/b.mjs" |} ].
Proof.
  apply (copies_have_the_extension "/proj" ["src"] Sample.tree "/proj/esm"
           ExtMjs false Sample.treeFiles
           (copyDirectory "/proj" "/proj/src" Sample.tree "/proj/esm" ExtMjs false
              Sample.treeFiles).2).
  - exact absolute_proj.
  - discriminate.
  - repeat constructor; discriminate.
  - reflexivity.
  - vm_compute. reflexivity.
Defined.

Lemma files_without_shebang_witness :
  let w := Run.onDisk [("/proj/esm/bin.js", Sample.plainScript)] in
  removeShebangs [Run.script] w = (Ok [], w).
Proof.
  intros w. apply (files_without_shebang_are_left_alone [Run.script] w).
  intros file [<- | []]. exists Sample.plainScript. split; vm_compute; reflexivity.
Defined.

Lemma shebang_line_witness :
  let w := Run.onDisk [("/proj/esm/bin.js", Sample.template)] in
  exists shebangs w1 w2,
    removeShebangs [Run.script] w = (Ok shebangs, w1)
    /\ restoreShebangs shebangs w1 = (Ok tt, w2)
    /\ disk w2 !! to Run.script =
         Some ("#!/bin/sh" +:+ newline +:+ newline
               +:+ Sample.opening +:+ newline +:+ newline +:+ "`;").
Proof.
  intros w.
  apply (shebang_line_is_moved_to_the_top [Run.script] w Run.script
           Sample.opening Sample.closing).
  - apply NoDup_singleton.
  - intros f Hf. apply list_elem_of_singleton in Hf as ->. vm_compute. now eexists.
  - apply list_elem_of_singleton. reflexivity.
  - reflexivity.
  - vm_compute. reflexivity.
Defined.

Lemma success_witness :
  let w := Run.onDisk [("/proj/esm/a.mjs", "exports.a = 1;")] in
  exists w4,
    transformOutput Run.cwd Run.codemods Run.here Sample.runner Run.noTime
      Run.copied Run.options w = (Ok tt, w4)
    /\ runs w4 = transformations Run.codemods Run.here
    /\ console w4 =
         [ ("yellow", "Transforming 1 files...");
           ("gray", "> esm/a.mjs");
           ("green", "All files were successfully transformed (0.00s)!") ].
Proof.
  intros w.
  set (first := {| from := "/proj/src/a.js"; to := "/proj/esm/a.mjs" |}).
  set (w1 := (shield [first] Run.options w).2).
  set (w2 := (runAll Sample.runner (transformations Run.codemods Run.here)
                (output Run.options) (runnerOptions first Run.options) []
                (announce [first] w1).2).2).
  set (w3 := (unshield None w2).2).
  destruct (transformOutput_reports_success Run.cwd Run.codemods Run.here
              Sample.runner Run.noTime first [] Run.options
              w w1 w2 w3 None [Run.good; Run.good; Run.good; Run.good])
    as (w4 & Hout & _ & Hruns & Hconsole).
  - vm_compute. reflexivity.
  - vm_compute. reflexivity.
  - vm_compute. reflexivity.
  - repeat constructor.
  - exists w4. split; [exact Hout | split; [exact Hruns | exact Hconsole]].
Defined.

Lemma rejected_pass_witness :
  let w := Run.onDisk [("/proj/esm/bin.js", Run.tight)] in
  let out :=
    transformOutput Run.cwd Run.codemods Run.here (Sample.rejecting "exports.js")
      Run.noTime [Run.script] (Sample.shebangOptions ["bin"]) w in
  out.1 = Throw (JsError "the transformation cannot be loaded")
  /\ disk out.2 !! "/proj/esm/bin.js" = Some ("main();" +:+ newline)
  /\ exists n, n < 4 /\ runs out.2
       = runs w ++ firstn (S n) (transformations Run.codemods Run.here).
Proof.
  intros w out.
  set (options := Sample.shebangOptions ["bin"]).
  set (s := shield [Run.script] options w).
  set (w2 := (runAll (Sample.rejecting "exports.js")
                (transformations Run.codemods Run.here)
                (output options) (runnerOptions Run.script options) []
                (announce [Run.script] s.2).2).2).
  destruct (rejected_pass_ends_the_run Run.cwd Run.codemods Run.here
              (Sample.rejecting "exports.js") Run.noTime Run.script [] options
              w s.2 w2 (Some [("/proj/esm/bin.js", Run.shebangLine)])
              (JsError "the transformation cannot be loaded"))
    as [Hout Hruns].
  - vm_compute. reflexivity.
  - vm_compute. reflexivity.
  - subst out. fold options. rewrite Hout. cbn [fst snd].
    split; [reflexivity | split; [| exact Hruns]].
    vm_compute. reflexivity.
Defined.

Lemma shebang_expression_with_unmatched_parenthesis_witness :
  let w := Run.onDisk [("/proj/esm/bin.js", Run.tight)] in
  exists e,
    transformOutput Run.cwd Run.codemods Run.here Sample.runner Run.noTime
      [Run.script] (Sample.shebangOptions ["("]) w
    = (Throw e, w).
Proof.
  intros w.
  apply (shebang_expression_with_unmatched_parenthesis_stops_the_run Run.cwd
           Run.codemods Run.here Sample.runner Run.noTime Run.script []
           (Sample.shebangOptions ["("]) w "(");
    [now left | reflexivity | reflexivity].
Defined.

Lemma nothing_to_copy_witness :
  (files <- copyFiles Run.cwd [("/proj/docs", Sample.docs)] "/proj/esm" ExtMjs None ;;
   transformOutput Run.cwd Run.codemods Run.here Sample.runner Run.noTime
     files Run.options) Run.emptyWorld
  = (Throw (TypeError "Cannot read properties of undefined (reading 'to')"),
     Run.emptyWorld).
Proof.
  apply (nothing_to_copy_fails_the_run Run.cwd Run.codemods Run.here Sample.runner
           Run.noTime [("/proj/docs", Sample.docs)] "/proj/esm" ExtMjs None
           Run.options Run.emptyWorld).
  intros item [<- | []]. reflexivity.
Defined.

Lemma module_path_witness :
  (updatePackageJSON "/proj" Sample.requireManifest Sample.index_is_a_file
     Fixture.no_file Sample.printed Sample.copiedIndex Run.emptyWorld).1
  = Ok (Some "./esm/index.mjs").
Proof.
  destruct (module_path_of_the_main_file "/proj" Sample.requireManifest
              Sample.index_is_a_file Fixture.no_file Sample.printed
              Sample.copiedIndex Run.emptyWorld Sample.manifest "src/index.js"
              {| path := "/proj/src/index.js"; isFile := true |}
              {| from := "/proj/src/index.js"; to := "/proj/esm/index.mjs" |}
              eq_refl eq_refl ltac:(discriminate) eq_refl eq_refl eq_refl)
    as [Hout _].
  exact (f_equal fst Hout).
Defined.

Lemma main_that_cannot_be_followed_witness :
  updatePackageJSON "/proj" Sample.requireManifest Sample.lib_is_a_folder
    Fixture.no_file Sample.printed Sample.copiedIndex Run.emptyWorld
  = (Throw (JsError "The entry file can't be found: `/proj/src/index.js`"),
     Run.emptyWorld).
Proof.
  apply (proj2 (main_that_cannot_be_followed "/proj" Sample.requireManifest
                  Sample.lib_is_a_folder Fixture.no_file Sample.printed
                  Sample.copiedIndex Run.emptyWorld Sample.manifest "src/index.js"
                  eq_refl eq_refl ltac:(discriminate))
           {| path := "/proj/src/index.js"; isFile := false |});
    reflexivity.
Defined.


Lemma input_must_be_a_list_witness :
  exists message,
    (getConfiguration "/proj" Sample.configFile Sample.noModule
       Sample.withInputString Run.emptyWorld).1
    = Throw (TypeError message).
Proof.
  destruct (input_must_be_a_list "/proj" Sample.configFile Sample.noModule
              Sample.withInputString Run.emptyWorld
              (loadConfiguration "/proj" Sample.configFile Sample.noModule
                 Sample.withInputString
                 (log "yellow" "Loading configuration..." Run.emptyWorld).2).2
              [("input", JString "src")] (JString "src"))
    as [message H].
  - reflexivity.
  - repeat constructor. intros [].
  - reflexivity.
  - discriminate.
  - exists message. now rewrite H.
Defined.

Lemma given_keys_witness :
  property "banner"
    (JObject [ ("input", JArray [JString "/proj/src"]);
               ("output", JString "/proj/dist");
               ("forceDirectory", JNull); ("modules", JArray []);
               ("extension", JObject [("use", JString "js"); ("ignore", JArray [])]);
               ("addModuleEntry", JBool false); ("addPackageJson", JBool true);
               ("filesWithShebang", JArray []); ("banner", JBool true) ])
  = Some (JBool true).
Proof.
  apply (given_keys_win_over_defaults "/proj" Sample.configFile Sample.noModule
           Sample.withOutput Run.emptyWorld
           (loadConfiguration "/proj" Sample.configFile Sample.noModule
              Sample.withOutput
              (log "yellow" "Loading configuration..." Run.emptyWorld).2).2
           (getConfiguration "/proj" Sample.configFile Sample.noModule
              Sample.withOutput Run.emptyWorld).2
           [("output", JString "/dist"); ("banner", JBool true)]
           (JObject [ ("input", JArray [JString "/proj/src"]);
                      ("output", JString "/proj/dist");
                      ("forceDirectory", JNull); ("modules", JArray []);
                      ("extension", JObject [("use", JString "js"); ("ignore", JArray [])]);
                      ("addModuleEntry", JBool false); ("addPackageJson", JBool true);
                      ("filesWithShebang", JArray []); ("banner", JBool true) ])
           "banner");
    try discriminate; try reflexivity.
  - repeat constructor; cbn; intuition discriminate.
Defined.

Lemma modules_pass_plain_rules_witness :
  modulesPass Sample.utils [ImportDeclaration ["x"] "utils/helpers"]
  = Ok [ImportDeclaration ["x"] "./shared/utils/helpers"].
Proof.
  apply (modules_pass_plain_rules Sample.utils ["x"] "utils/helpers" Fixture.utilsRule);
    try reflexivity.
  intros r' [<- | []]. reflexivity.
Defined.

(** ** From the copies to the runner *)

Lemma upper_m (a : ascii) :
  Char.eqb (Char.upper a) "M" = true -> a = "m"%char \/ a = "M"%char.
Proof.
  destruct a as [[] [] [] [] [] [] [] []]; vm_compute; intros; try discriminate; auto.
Qed.

Lemma attempt_mjs_extension (p : option ascii) (s : list ascii) :
  RegExp.attempt Literal.mjs_extension p s <> None ->
  exists a b c d, s = [a; b; c; d] /\ (b = "m"%char \/ b = "M"%char).
Proof.
  unfold RegExp.attempt, Literal.mjs_extension.
  cbn [RegExp.source RegExp.fl RegExp.m]. unfold RegExp.step, RegExp.guard.
  cbn [RegExp.rest RegExp.caps RegExp.prev].
  unfold RegExp.canonicalize. cbn [RegExp.ignoreCase RegExp.flag_i].
  change (Char.upper "m") with "M"%char.
  destruct s as [|a s]; [now intros [] |].
  destruct (Char.eqb (Char.upper a) (Char.upper ".")); [| now intros []].
  destruct s as [|b s]; [now intros [] |].
  pose proof (upper_m b) as Hb.
  destruct (Char.eqb (Char.upper b) "M"); [| now intros []].
  destruct s as [|c s]; [now intros [] |].
  destruct (Char.eqb (Char.upper c) (Char.upper "j")); [| now intros []].
  destruct s as [|d s]; [now intros [] |].
  destruct (Char.eqb (Char.upper d) (Char.upper "s")); [| now intros []].
  unfold RegExp.at_line_end. cbn [RegExp.rest RegExp.multiline andb].
  destruct s as [|x s]; [| now intros []]. intros _.
  exists a, b, c, d. split; [reflexivity | now apply Hb].
Qed.

Lemma search_finds_suffix (x : RegExp.t) (s pre : list ascii) :
  (forall p, RegExp.attempt x p s <> None) ->
  forall (p : option ascii) (seen : list ascii),
    RegExp.search x p seen (pre ++ s) <> None.
Proof.
  intros Hs. induction pre as [|c pre IH]; intros p seen; rewrite search_unfold.
  - cbn [app]. specialize (Hs p). now destruct (RegExp.attempt x p s).
  - cbn [app]. destruct (RegExp.attempt x p (c :: pre ++ s)); [discriminate | apply IH].
Qed.

Lemma matches_mjs (stem : string) :
  matches (stem +:+ ".mjs") Literal.mjs_extension = true.
Proof.
  unfold matches, RegExp.test, RegExp.exec. rewrite chars_app.
  pose proof (search_finds_suffix Literal.mjs_extension (chars ".mjs") (chars stem)) as H.
  destruct (RegExp.search _ _ _ _) eqn:E; [reflexivity |].
  exfalso. apply (H ltac:(intros [c |]; vm_compute; discriminate) None []). exact E.
Qed.

Lemma search_mjs_in_js (pre : list ascii) :
  forall (p : option ascii) (seen : list ascii),
    RegExp.search Literal.mjs_extension p seen (pre ++ chars ".js") = None.
Proof.
  induction pre as [|c pre IH]; intros p seen.
  - destruct p; reflexivity.
  - rewrite search_unfold. cbn [app].
    destruct (RegExp.attempt Literal.mjs_extension p (c :: pre ++ chars ".js")) eqn:Ea.
    + exfalso.
      destruct (attempt_mjs_extension p (c :: pre ++ chars ".js"))
        as (a & b & c' & d & E & Hb); [now rewrite Ea |].
      injection E as _ E. destruct pre as [|x pre]; [injection E as <- _ _ |].
      * destruct Hb; discriminate.
      * injection E as _ E. destruct pre as [|y pre]; [discriminate |].
        injection E as _ E. destruct pre as [|z pre]; [discriminate |].
        injection E as _ E. now destruct pre.
    + apply IH.
Qed.

Lemma not_matches_mjs (stem : string) :
  matches (stem +:+ ".js") Literal.mjs_extension = false.
Proof.
  unfold matches, RegExp.test, RegExp.exec.
  now rewrite chars_app, search_mjs_in_js.
Qed.

(** X27.  The runner is told the extension of the copies: for the files
    that [copyDirectory] gives (under the conditions of X11), the
    [extension] option that [transformOutput] reads off the first of them is
    the extension they were copied with. *)
Theorem runner_extension_is_the_one_of_the_copies (cwd : string) (rel : list string)
    (entries : list Entry) (output : string) (useExtension : ModuleExtension)
    (forceDirectory : bool) (w w' : World) (first : CopiedFile)
    (others : list CopiedFile) (options : CJS2ESMOptions) :
  absolutePath cwd ->
  rel <> [] ->
  Forall (fun s => regular_segment (chars s)) rel ->
  forallb (wellNamed (fun item => entryName item && hasStem item)) entries = true ->
  copyDirectory cwd (below cwd rel) entries output useExtension forceDirectory w
    = (Ok (first :: others), w') ->
  extension (runnerOptions first options) = extension_name useExtension.
Proof.
  intros Hcwd Hrel Hreg Hnames Hcopy.
  unfold copyDirectory in Hcopy. apply traverse_each in Hcopy.
  inversion Hcopy as [|item file items files (w1 & w2 & Hc) _ Eitems Efiles].
  destruct (copy_of_a_found_file cwd rel entries output useExtension forceDirectory
              item first w1 w2 Hcwd Hrel Hreg Hnames) as (stem & Hto & _).
  - rewrite <- Eitems. now left.
  - exact Hc.
  - unfold runnerOptions. cbn [extension]. rewrite Hto.
    destruct useExtension; cbn [extension_name].
    + now rewrite not_matches_mjs.
    + now rewrite matches_mjs.
Qed.

Lemma runner_extension_witness :
  extension (runnerOptions {| from := "/proj/src/A.JS"; to := "/proj/esm/A.mjs" |}
               Run.options) = "mjs".
Proof.
  apply (runner_extension_is_the_one_of_the_copies "/proj" ["src"] Sample.tree
           "/proj/esm" ExtMjs false Sample.treeFiles
           (copyDirectory "/proj" "/proj/src" Sample.tree "/proj/esm" ExtMjs false
              Sample.treeFiles).2
           {| from := "/proj/src/A.JS"; to := "/proj/esm/A.mjs" |}
           [ {| from := "/proj/src/lib/b.js"; to := "/proj/esm/lib/b.mjs" |} ]).
  - exists ["proj"]. repeat split; try discriminate. repeat constructor; discriminate.
  - discriminate.
  - repeat constructor; discriminate.
  - reflexivity.
  - vm_compute. reflexivity.
Defined.

Lemma files_of_the_tree_witness :
  In "/proj/src/lib/b.js" (findFiles "/proj/src" Sample.tree).
Proof.
  apply (files_of_the_tree_are_found ["lib"] "b.js" "/proj/src" Sample.tree).
  - exists ["proj"; "src"]. repeat split; try discriminate.
    repeat constructor; discriminate.
  - repeat constructor.
  - reflexivity.
  - exists [FileEntry "b.js"; FileEntry "notes.txt"]. split.
    + right. now left.
    + now left.
Defined.

Lemma copyDirectory_copies_witness :
  let out :=
    copyDirectory "/proj" "/proj/src" Sample.tree "/proj/esm" ExtMjs false
      Sample.treeFiles in
  disk out.2 !! "/proj/esm/lib/b.mjs" = Some "module.exports = 2;"
  /\ disk out.2 !! "/proj/src/lib/b.js" = Some "module.exports = 2;".
Proof.
  intros out.
  destruct (copyDirectory_copies_the_contents "/proj" "/proj/src" Sample.tree
              "/proj/esm" ExtMjs false Sample.treeFiles out.2
              [ {| from := "/proj/src/A.JS"; to := "/proj/esm/A.mjs" |};
                {| from := "/proj/src/lib/b.js"; to := "/proj/esm/lib/b.mjs" |} ])
    as (Hother & Hcopies & _).
  - vm_compute. reflexivity.
  - split.
    + assert (Hnd : List.NoDup ["/proj/esm/A.mjs"; "/proj/esm/lib/b.mjs"]).
      { repeat constructor; cbn; intuition discriminate. }
      assert (Hapart : forall f,
                In f [ {| from := "/proj/src/A.JS"; to := "/proj/esm/A.mjs" |};
                       {| from := "/proj/src/lib/b.js"; to := "/proj/esm/lib/b.mjs" |} ] ->
                ~ In (to f) ["/proj/src/A.JS"; "/proj/src/lib/b.js"]).
      { intros f [<- | [<- | []]]; cbn; intuition discriminate. }
      exact (eq_trans
               (Hcopies Hnd Hapart
                  {| from := "/proj/src/lib/b.js"; to := "/proj/esm/lib/b.mjs" |}
                  (or_intror (or_introl eq_refl)))
               eq_refl).
    + assert (Hno : ~ In "/proj/src/lib/b.js" ["/proj/esm/A.mjs"; "/proj/esm/lib/b.mjs"]).
      { cbn. intuition discriminate. }
      exact (eq_trans (Hother "/proj/src/lib/b.js" Hno) eq_refl).
Defined.
